(** * WxO Builder: tool-schema pipeline, validator and remote invocation

    A shallow embedding of the design-bearing functions of the extension:

    - [buildToolSpec] and [deriveBindingSecurity] (api/skills.ts): OpenAPI
      document + tool metadata to the bound-tool record;
    - [skillToOas] (api/skills.ts): bound-tool record back to OpenAPI;
    - [updateSkill], [invokeToolRemote], [formatAssistantContent]
      (api/skills.ts) and [invokeAgent] (api/agents.ts);
    - [validateOas], [inferSchema], the [saveSkill], [generateOaS] and
      [fetchAndGenerate] message handlers (panels/SkillEditorPanel.ts);
    - [parseParamDefault] and [applyParamEditsToJson]
      (resources/skillEditor.js).

    Conventions.  A JavaScript value that may be [undefined] is an [option];
    [null] is the constructor [Null].  A JavaScript object used as a record
    with known fields is a Rocq record whose optional fields are options; an
    object used as a dictionary is the list of its own properties in
    enumeration order ([Obj]).  Strings are sequences of ASCII characters.  Numbers are
    integers. *)

From Stdlib Require Import ZArith Ascii String List Bool Lia.
From Stdlib Require DecimalString.
From stdpp Require Import base decidable option list gmap sets strings.

Local Open Scope Z_scope.
Local Open Scope list_scope.
Local Open Scope stdpp_scope.

(* ===================================================================== *)
(** * JavaScript values *)
(* ===================================================================== *)

#[warnings="-register-all"]
Inductive value : Type :=
| Null
| Bool (b : bool)
| Num (n : Z)
| Str (s : string)
| Arr (items : list value)
| Obj (fields : list (string * value)).

(** ToBoolean.  [undefined] is falsy as well, see [truthy]. *)
Definition truthy_value (v : value) : bool :=
  match v with
  | Null => false
  | Bool b => b
  | Num n => negb (n =? 0)
  | Str s => negb (String.eqb s "")
  | Arr _ | Obj _ => true
  end.

Definition truthy (o : option value) : bool :=
  match o with
  | Some v => truthy_value v
  | None => false
  end.

(** The [typeof] operator. *)
Definition typeof (o : option value) : string :=
  match o with
  | None => "undefined"
  | Some Null => "object"
  | Some (Bool _) => "boolean"
  | Some (Num _) => "number"
  | Some (Str _) => "string"
  | Some (Arr _) => "object"
  | Some (Obj _) => "object"
  end.

Definition isArray (o : option value) : bool :=
  match o with
  | Some (Arr _) => true
  | _ => false
  end.

(** [a || b] on possibly-undefined values. *)
Definition or_else (a b : option value) : option value :=
  if truthy a then a else b.

(** [a ?? b]. *)
Definition nullish (a b : option value) : option value :=
  match a with
  | None | Some Null => b
  | Some _ => a
  end.

(** [s || d] where [s] is a string or undefined. *)
Definition str_or (s : option string) (d : string) : string :=
  match s with
  | Some x => if String.eqb x "" then d else x
  | None => d
  end.

(** [s || t] where both may be undefined. *)
Definition str_or_opt (s t : option string) : option string :=
  match s with
  | Some x => if String.eqb x "" then t else s
  | None => t
  end.

(** [s ?? t]. *)
Definition str_nullish (s : option string) (d : string) : string :=
  match s with
  | Some x => x
  | None => d
  end.

(* ===================================================================== *)
(** * Objects used as dictionaries

    An object is the list of its own properties in the order in which
    JavaScript enumerates them.  [Obj.set] is the assignment [o[k] = v]
    for the keys the program fixes itself: a new key goes to the end and
    an existing key keeps its position.  Where the key comes from the
    input, the assignment is [assignProperty] below, which also covers
    the key [__proto__] and the keys that are array indices. *)
(* ===================================================================== *)

Module Obj.
Section WithValue.
Context {A : Type}.

Fixpoint get (o : list (string * A)) (k : string) : option A :=
  match o with
  | [] => None
  | (k', v) :: o' => if String.eqb k' k then Some v else get o' k
  end.

(** [o[k] = v] *)
Fixpoint set (o : list (string * A)) (k : string) (v : A) : list (string * A) :=
  match o with
  | [] => [(k, v)]
  | (k', v') :: o' =>
      if String.eqb k' k then (k, v) :: o' else (k', v') :: set o' k v
  end.

(** [Object.keys] *)
Definition keys (o : list (string * A)) : list string := map fst o.

Definition has (o : list (string * A)) (k : string) : bool :=
  match get o k with Some _ => true | None => false end.
End WithValue.
End Obj.

(** Property access [v.k] on a value that is known not to be null or
    undefined: objects look the key up; the index keys and [length] of
    arrays and strings are not modelled, and no other value has any of the
    keys read in this development. *)
Definition field (v : value) (k : string) : option value :=
  match v with
  | Obj fs => Obj.get fs k
  | _ => None
  end.

(** Optional chaining [o?.k]. *)
Definition ofield (o : option value) (k : string) : option value :=
  match o with
  | Some v => field v k
  | None => None
  end.

(* ===================================================================== *)
(** * Strings *)
(* ===================================================================== *)

Module Chars.
Definition code (c : ascii) : nat := nat_of_ascii c.

Definition is_upper (c : ascii) : bool := (65 <=? code c)%nat && (code c <=? 90)%nat.
Definition is_lower (c : ascii) : bool := (97 <=? code c)%nat && (code c <=? 122)%nat.
Definition is_digit (c : ascii) : bool := (48 <=? code c)%nat && (code c <=? 57)%nat.
Definition is_underscore (c : ascii) : bool := (code c =? 95)%nat.
Definition is_hyphen (c : ascii) : bool := (code c =? 45)%nat.

(** [\s] restricted to ASCII: TAB, LF, VT, FF, CR, SPACE. *)
Definition is_space (c : ascii) : bool :=
  ((9 <=? code c)%nat && (code c <=? 13)%nat) || (code c =? 32)%nat.

(** [[a-zA-Z0-9_]] *)
Definition is_word (c : ascii) : bool :=
  is_lower c || is_upper c || is_digit c || is_underscore c.

(** [[a-zA-Z0-9]] *)
Definition is_alnum (c : ascii) : bool :=
  is_lower c || is_upper c || is_digit c.

(** [[a-zA-Z_]] *)
Definition is_letter_or_underscore (c : ascii) : bool :=
  is_lower c || is_upper c || is_underscore c.

Definition to_upper (c : ascii) : ascii :=
  if is_lower c then ascii_of_nat (code c - 32) else c.
Definition to_lower (c : ascii) : ascii :=
  if is_upper c then ascii_of_nat (code c + 32) else c.
End Chars.

Module Strs.
Fixpoint map (f : ascii -> ascii) (s : string) : string :=
  match s with
  | EmptyString => EmptyString
  | String c s' => String (f c) (map f s')
  end.

Fixpoint forallb (p : ascii -> bool) (s : string) : bool :=
  match s with
  | EmptyString => true
  | String c s' => p c && forallb p s'
  end.

Definition toUpperCase : string -> string := map Chars.to_upper.
Definition toLowerCase : string -> string := map Chars.to_lower.

(** [s.replace(/[^CLASS]/g, r)] for a one-character replacement [r]. *)
Definition replace_outside (keep : ascii -> bool) (r : ascii) : string -> string :=
  map (fun c => if keep c then c else r).

(** [s.replace(/^[CLASS]+/, '')] *)
Fixpoint drop_while (p : ascii -> bool) (s : string) : string :=
  match s with
  | EmptyString => EmptyString
  | String c s' => if p c then drop_while p s' else s
  end.

Definition rev (s : string) : string :=
  string_of_list_ascii (List.rev (list_ascii_of_string s)).

(** [s.replace(/[CLASS]+$/, '')] *)
Fixpoint drop_while_end (p : ascii -> bool) (s : string) : string :=
  match s with
  | EmptyString => EmptyString
  | String c s' =>
      match drop_while_end p s' with
      | EmptyString => if p c then EmptyString else String c EmptyString
      | r => String c r
      end
  end.

(** [s.trim()] *)
Definition trim (s : string) : string :=
  drop_while_end Chars.is_space (drop_while Chars.is_space s).

(** [s.replace(/\s+/g, r)]: every maximal run of white space becomes one
    [r]; [in_run] tells that the previous character was white space. *)
Fixpoint collapse_spaces_from (in_run : bool) (r : ascii) (s : string) : string :=
  match s with
  | EmptyString => EmptyString
  | String c s' =>
      if Chars.is_space c
      then if in_run then collapse_spaces_from true r s'
           else String r (collapse_spaces_from true r s')
      else String c (collapse_spaces_from false r s')
  end.

Definition collapse_spaces : ascii -> string -> string :=
  collapse_spaces_from false.

(** [s.split(sep)] for a one-character separator *)
Fixpoint split_from (sep : ascii) (cur : string) (s : string) : list string :=
  match s with
  | EmptyString => [rev cur]
  | String c s' =>
      if Ascii.eqb c sep then rev cur :: split_from sep EmptyString s'
      else split_from sep (String c cur) s'
  end.
Definition split (sep : ascii) (s : string) : list string :=
  split_from sep EmptyString s.

Definition nonempty (s : string) : bool := negb (String.eqb s "").

(** [s.replace(/\.[a-z0-9]+$/i, '')] *)
Fixpoint strip_extension (s : string) : string :=
  match s with
  | EmptyString => EmptyString
  | String c s' =>
      if Ascii.eqb c "." && nonempty s' && forallb Chars.is_alnum s'
      then EmptyString
      else String c (strip_extension s')
  end.

(** [path.replace(/^\//, '').split('/').filter(Boolean)] *)
Definition segments (path : string) : list string :=
  let p := match path with
           | String c rest => if Ascii.eqb c "/" then rest else path
           | EmptyString => path
           end in
  filter (fun s => nonempty s = true) (split "/" p).
End Strs.

(* ===================================================================== *)
(** * Assignment to a property whose key comes from the input *)
(* ===================================================================== *)

(** The value of a string of decimal digits. *)
Fixpoint digits_value (acc : N) (s : string) : N :=
  match s with
  | EmptyString => acc
  | String c rest => digits_value (10 * acc + N.of_nat (Chars.code c - 48)) rest
  end.

(** The array index a key stands for: the key is the decimal numeral,
    without a leading zero, of an integer below 2^32 - 1. *)
Definition array_index (k : string) : option N :=
  match k with
  | EmptyString => None
  | String c rest =>
      if Strs.forallb Chars.is_digit k
         && (negb (Ascii.eqb c "0") || String.eqb rest "")
         && (String.length k <=? 10)%nat
         && (digits_value 0 k <? 4294967295)%N
      then Some (digits_value 0 k)
      else None
  end.

Definition is_array_index (k : string) : bool :=
  match array_index k with Some _ => true | None => false end.

(** A key that is neither [__proto__] nor an array index. *)
Definition plain_key (k : string) : bool :=
  negb (String.eqb k "__proto__") && negb (is_array_index k).

Section Assign.
Context {A : Type}.

(** The place of a new array index [i]: after the smaller indices and
    before everything else. *)
Fixpoint insert_index (o : list (string * A)) (i : N) (k : string) (v : A)
    : list (string * A) :=
  match o with
  | [] => [(k, v)]
  | (k', v') :: o' =>
      match array_index k' with
      | Some j =>
          if (j <? i)%N then (k', v') :: insert_index o' i k v
          else (k, v) :: o
      | None => (k, v) :: o
      end
  end.

(** [o[k] = v] on an object made by an object literal, for any key [k].
    The key [__proto__] names the prototype, not a property: the
    assignment leaves the own properties as they are.  An existing key
    keeps its place; a new array index is enumerated among the indices, in
    ascending order and before every other key; any other new key comes
    last. *)
Definition assignProperty (o : list (string * A)) (k : string) (v : A)
    : list (string * A) :=
  if String.eqb k "__proto__" then o
  else
    match array_index k with
    | Some i => if Obj.has o k then Obj.set o k v else insert_index o i k v
    | None => Obj.set o k v
    end.
End Assign.

(* ===================================================================== *)
(** * Data model: the two dialects of a tool document *)
(* ===================================================================== *)

(** ** OpenAPI dialect *)

Record Schema := mkSchema {
  s_type : option string;
  s_title : option string;
  s_description : option string;
  s_default : option value;
  s_enum : option value
}.

Record Param := mkParam {
  p_name : string;
  p_in : option string;
  p_required : bool;
  p_description : option string;
  p_schema : option Schema
}.

(** [responses['200']]: its description and
    [content['application/json'].schema]. *)
Record Response := mkResponse {
  r_description : option string;
  r_schema : option (list (string * value))
}.

Record Operation := mkOperation {
  op_operationId : option string;
  op_summary : option string;
  op_parameters : option (list Param);
  op_security : option value;
  op_response200 : option Response
}.

(** A path item: the declared methods, in declaration order. *)
Definition PathItem := list (string * Operation).

Inductive Server :=
| ServerString (url : string)
| ServerObject (url : option string).

Record SecurityScheme := mkSecurityScheme {
  ss_type : option string;
  ss_in : option string;
  ss_scheme : option string;
  ss_name : option string
}.

Record Info := mkInfo {
  i_title : option string;
  i_version : option string;
  i_description : option string;
  i_x_ibm_skill_name : option string;
  i_x_ibm_skill_id : option string
}.

Record OpenApi := mkOpenApi {
  oas_openapi : option string;
  oas_info : option Info;
  oas_servers : option (list Server);
  oas_paths : option (list (string * PathItem));
  oas_securitySchemes : option (list (string * SecurityScheme));
  oas_security : option value;
  oas_x_ibm_security : option value;
  oas_x_ibm_connection_id : option string;
  (** [binding.openapi.security] and [binding.openapi.connection_id], read
      when a bound record is passed where an OpenAPI document is expected *)
  oas_binding_security : option value;
  oas_binding_connection_id : option string
}.

(** ** Bound dialect *)

Record PropSchema := mkPropSchema {
  ps_type : option string;
  ps_title : option string;
  ps_description : option string;
  ps_in : option string;
  ps_default : option value;
  ps_aliasName : option string;
  ps_enum : option value
}.

Record InputSchema := mkInputSchema {
  is_type : option string;
  is_properties : option (list (string * PropSchema));
  is_required : option (list string)
}.

Record Binding := mkBinding {
  b_http_method : option string;
  b_http_path : option string;
  b_security : option value;
  b_servers : option (list (option Server));
  b_connection_id : option string
}.

Record BoundTool := mkBoundTool {
  bt_name : option string;
  bt_display_name : option string;
  bt_description : option string;
  bt_permission : option string;
  bt_restrictions : option value;
  bt_tags : option value;
  bt_binding : option Binding;
  bt_input_schema : option InputSchema;
  bt_output_schema : option (list (string * value));
  bt_info_version : option string
}.

(** The [toolSpec] argument of [buildToolSpec]. *)
Record ToolMeta := mkToolMeta {
  tm_name : option string;
  tm_description : option string;
  tm_permission : option string;
  tm_restrictions : option value;
  tm_tags : option value
}.

(* ===================================================================== *)
(** * ToolSpecCompiler: [deriveBindingSecurity] and [buildToolSpec] *)
(* ===================================================================== *)

(** [Object.keys(ref)[0]] for one element of a security array, when the
    element passes [typeof ref === 'object' && ref]. *)
Definition firstKeyOfRef (ref : value) : option (option string) :=
  match ref with
  | Obj fs => Some (head (Obj.keys fs))
  | Arr items => Some (match items with [] => None | _ :: _ => Some "0" end)
  | _ => None
  end.

(** [schemes[name]]; an undefined [name] is the property key "undefined". *)
Definition lookupScheme (schemes : list (string * SecurityScheme))
    (name : option string) : option SecurityScheme :=
  Obj.get schemes (str_nullish name "undefined").

Definition flattenScheme (scheme : option SecurityScheme) : list value :=
  match scheme with
  | None => []
  | Some sc =>
      if bool_decide (ss_type sc = Some "apiKey") then
        [Obj [("type", Str "apiKey");
              ("in", Str (str_or (ss_in sc) "query"));
              ("name", Str (str_or (ss_name sc) "apiKey"))]]
      else if bool_decide (ss_type sc = Some "http")
              || bool_decide (ss_scheme sc = Some "bearer") then
        [Obj [("type", Str "http");
              ("scheme", Str (str_or (ss_scheme sc) "bearer"));
              ("name", Str (str_or (ss_name sc) "Authorization"))]]
      else []
  end.

Definition deriveBindingSecurity (openApiSpec : OpenApi) (op : Operation) : list value :=
  let explicit := nullish (oas_x_ibm_security openApiSpec) (oas_binding_security openApiSpec) in
  match explicit with
  | Some (Arr (e :: es)) => e :: es
  | _ =>
      let schemes := default [] (oas_securitySchemes openApiSpec) in
      let secRefs := nullish (nullish (op_security op) (oas_security openApiSpec)) (Some (Arr [])) in
      match secRefs with
      | Some (Arr refs) =>
          flat_map (fun ref =>
                      match firstKeyOfRef ref with
                      | None => []
                      | Some name => flattenScheme (lookupScheme schemes name)
                      end) refs
      | _ => []
      end
  end.

(** The accumulator of the [forEach] over [op.parameters]. *)
Record ParamAcc := mkParamAcc {
  acc_properties : list (string * PropSchema);
  acc_required : list string;
  acc_usedKeys : gset string
}.

Definition emptyAcc : ParamAcc := mkParamAcc [] [] ∅.

Definition paramIn (p : Param) : string := str_or (p_in p) "query".

(** The property key chosen for [p] given the keys used so far. *)
Definition propKeyFor (usedKeys : gset string) (p : Param) : string :=
  if bool_decide (p_name p ∈ usedKeys)
  then paramIn p +:+ "_" +:+ p_name p
  else p_name p.

Definition propSchemaFor (propKey : string) (p : Param) : PropSchema :=
  let sch := p_schema p in
  {| ps_type := Some (str_or (sch ≫= s_type) "string");
     ps_title := Some (str_nullish (sch ≫= s_title) (p_name p));
     ps_description :=
       Some (str_or (p_description p) (str_or (sch ≫= s_description) ""));
     ps_in := Some (paramIn p);
     ps_default :=
       match sch ≫= s_default with
       | Some Null | None => None
       | Some d => Some d
       end;
     ps_aliasName :=
       if bool_decide (propKey = p_name p) then None else Some (p_name p);
     ps_enum := None |}.

(** The body of the [forEach] callback. *)
Definition addParameter (acc : ParamAcc) (p : Param) : ParamAcc :=
  let propKey := propKeyFor (acc_usedKeys acc) p in
  {| acc_usedKeys := {[propKey]} ∪ acc_usedKeys acc;
     acc_properties :=
       assignProperty (acc_properties acc) propKey (propSchemaFor propKey p);
     acc_required :=
       if p_required p then acc_required acc ++ [propKey] else acc_required acc |}.

Definition collectParameters (ps : list Param) : ParamAcc :=
  fold_left addParameter ps emptyAcc.

Definition buildInputSchema (op : Operation) : InputSchema :=
  let acc := collectParameters (default [] (op_parameters op)) in
  {| is_type := Some "object";
     is_properties := Some (acc_properties acc);
     is_required :=
       match acc_required acc with
       | [] => None
       | r => Some r
       end |}.

Definition flattenServer (s : Server) : option Server :=
  match s with
  | ServerString u => Some (ServerString u)
  | ServerObject (Some u) => Some (ServerString u)
  | ServerObject None => None
  end.

Definition buildBinding (openApiSpec : OpenApi) (pathKey method : string)
    (op : Operation) : Binding :=
  let servers := map flattenServer (default [] (oas_servers openApiSpec)) in
  let connectionId :=
    match oas_x_ibm_connection_id openApiSpec with
    | Some c => Some c
    | None => oas_binding_connection_id openApiSpec
    end in
  {| b_http_method := Some (Strs.toUpperCase method);
     b_http_path := Some pathKey;
     b_security := Some (Arr (deriveBindingSecurity openApiSpec op));
     b_servers := Some servers;
     b_connection_id := str_or_opt connectionId None |}.

Definition buildOutputSchema (op : Operation) : option (list (string * value)) :=
  match op_response200 op with
  | Some resp =>
      match r_schema resp with
      | Some responseSchema =>
          let d := Obj.get responseSchema "description" in
          let description :=
            if truthy d then default Null d
            else Str (str_or (r_description resp) "Success") in
          Some (Obj.set responseSchema "description" description)
      | None => None
      end
  | None => None
  end.

(** The methods tried, in this order, on the first path. *)
Definition methods : list string := ["get"; "post"; "put"; "patch"; "delete"].

(** The first of [methods] that the path item declares. *)
Definition firstOperation (pathObj : PathItem) : option (string * Operation) :=
  list_find (fun m => is_Some (Obj.get pathObj m)) methods
    ≫= fun '(_, m) => Obj.get pathObj m ≫= fun op => Some (m, op).

Definition truthy_opt (o : option value) : option value :=
  if truthy o then o else None.

Definition buildToolSpec (toolSpec : ToolMeta) (openApiSpec : OpenApi) : BoundTool :=
  let info := oas_info openApiSpec in
  let spec :=
    {| bt_name := tm_name toolSpec;
       bt_display_name :=
         str_or_opt (info ≫= i_x_ibm_skill_name)
           (str_or_opt (info ≫= i_title) (tm_name toolSpec));
       bt_description := tm_description toolSpec;
       bt_permission := Some (str_or (tm_permission toolSpec) "read_write");
       bt_restrictions := truthy_opt (tm_restrictions toolSpec);
       bt_tags := truthy_opt (tm_tags toolSpec);
       bt_binding := None;
       bt_input_schema := None;
       bt_output_schema := None;
       bt_info_version := None |} in
  match oas_paths openApiSpec with
  | Some ((pathKey, pathObj) :: _) =>
      match firstOperation pathObj with
      | Some (method, op) =>
          {| bt_name := bt_name spec;
             bt_display_name := bt_display_name spec;
             bt_description := bt_description spec;
             bt_permission := bt_permission spec;
             bt_restrictions := bt_restrictions spec;
             bt_tags := bt_tags spec;
             bt_binding := Some (buildBinding openApiSpec pathKey method op);
             bt_input_schema := Some (buildInputSchema op);
             bt_output_schema := buildOutputSchema op;
             bt_info_version := None |}
      | None => spec
      end
  | _ => spec
  end.

(* ===================================================================== *)
(** * Decompiler: [skillToOas] *)
(* ===================================================================== *)

Definition paramOfProperty (inputSchema : InputSchema) (kp : string * PropSchema)
    : Param :=
  let '(key, prop) := kp in
  {| p_name := str_nullish (ps_aliasName prop) key;
     p_in := Some (str_or (ps_in prop) "query");
     p_required :=
       bool_decide (key ∈ default [] (is_required inputSchema));
     p_description := Some (str_or (ps_description prop) "");
     p_schema :=
       Some {| s_type := Some (str_or (ps_type prop) "string");
               s_title := ps_title prop;
               s_description := None;
               s_default := ps_default prop;
               s_enum := truthy_opt (ps_enum prop) |} |}.

Definition skillParams (inputSchema : option InputSchema) : list Param :=
  match inputSchema with
  | Some sch =>
      match is_properties sch with
      | Some props => map (paramOfProperty sch) props
      | None => []
      end
  | None => []
  end.

(** [typeof s === 'string' ? s : s?.url], then [filter(Boolean)]. *)
Definition serverUrl (s : option Server) : option string :=
  match s with
  | Some (ServerString u) => str_or_opt (Some u) None
  | Some (ServerObject u) => str_or_opt u None
  | None => None
  end.

(** [security?.length] as a condition. *)
Definition hasLength (v : option value) : bool :=
  match v with
  | Some (Arr (_ :: _)) => true
  | Some (Str s) => negb (String.eqb s "")
  | _ => false
  end.

Definition skillToOas (skill : BoundTool) : OpenApi :=
  let b := bt_binding skill in
  let method := Strs.toLowerCase (str_or (b ≫= b_http_method) "GET") in
  let path := str_or (b ≫= b_http_path) "/" in
  let servers := omap serverUrl (default [] (b ≫= b_servers)) in
  let security := b ≫= b_security in
  let connectionId := b ≫= b_connection_id in
  let outputSchema := bt_output_schema skill in
  let params := skillParams (bt_input_schema skill) in
  let name := bt_name skill in
  let title := str_or (str_or_opt (bt_display_name skill) name) "Tool" +:+ " (Copy)" in
  let baseId :=
    Strs.replace_outside (fun c => Chars.is_word c || Chars.is_hyphen c) "-"
      (str_or name "tool") in
  let skillId := baseId +:+ "-copy-v1" in
  {| oas_openapi := Some "3.0.1";
     oas_info :=
       Some {| i_title := Some title;
               i_version := Some (str_or (bt_info_version skill) "1.0.0");
               i_description := Some (str_or (bt_description skill) "");
               i_x_ibm_skill_name := Some title;
               i_x_ibm_skill_id := Some skillId |};
     oas_servers :=
       Some (match servers with
             | [] => [ServerObject (Some "https://httpbin.org")]
             | _ => map (fun u => ServerObject (Some u)) servers
             end);
     oas_paths :=
       Some [(path,
              [(method,
                {| op_operationId := Some (str_or name "operation");
                   op_summary :=
                     Some (str_or (str_or_opt (bt_display_name skill) name) "Operation");
                   op_parameters := Some params;
                   op_security := None;
                   op_response200 :=
                     Some {| r_description := Some "Success";
                             r_schema :=
                               Some (default [("type", Str "object")] outputSchema) |} |})])];
     oas_securitySchemes := None;
     oas_security := None;
     oas_x_ibm_security := if hasLength security then security else None;
     oas_x_ibm_connection_id := str_or_opt connectionId None;
     oas_binding_security := None;
     oas_binding_connection_id := None |}.

(* ===================================================================== *)
(** * ToolSchemaValidator: [validateOas] *)
(* ===================================================================== *)

Definition typeof_is_object (o : option value) : bool :=
  String.eqb (typeof o) "object".

Definition is_nullish (o : option value) : bool :=
  match o with
  | None | Some Null => true
  | Some _ => false
  end.

(** [o !== undefined] *)
Definition is_defined (o : option value) : bool :=
  match o with
  | Some _ => true
  | None => false
  end.

(** The one-character string holding a double quote. *)
Definition dquote : string := String (ascii_of_nat 34) EmptyString.

(** [if (c) errors.push(msg)] *)
Definition push_if (c : bool) (msg : string) : list string :=
  if c then [msg] else [].

Definition validateBound (oas binding : option value) : list string :=
  push_if (negb (truthy (ofield binding "http_method")))
    "binding.openapi.http_method is required"
  ++ push_if (negb (truthy (ofield binding "http_path")))
    "binding.openapi.http_path is required"
  ++ push_if (negb (truthy (ofield oas "input_schema"))
              || negb (typeof_is_object (ofield oas "input_schema")))
    "input_schema is required for WxO tools"
  ++ push_if (negb (truthy (ofield oas "name"))
              && negb (truthy (ofield oas "display_name")))
    "name or display_name is required".

Definition validateOpenApi (oas : option value) : list string :=
  (if negb (truthy (ofield oas "openapi"))
   then ["Missing required field: openapi"]
   else push_if (negb (String.eqb (typeof (ofield oas "openapi")) "string"))
          ("openapi must be a string (e.g. " +:+ dquote +:+ "3.0.1" +:+ dquote +:+ ")"))
  ++ (if negb (truthy (ofield oas "info"))
      then ["Missing required field: info"]
      else
        push_if (negb (truthy (ofield (ofield oas "info") "title")))
          "info.title is required"
        ++ push_if (is_nullish (ofield (ofield oas "info") "version"))
          "info.version is recommended")
  ++ push_if (is_defined (ofield oas "paths")
              && (negb (typeof_is_object (ofield oas "paths"))
                  || isArray (ofield oas "paths")))
    "paths must be an object"
  ++ push_if (is_defined (ofield oas "servers") && negb (isArray (ofield oas "servers")))
    "servers must be an array".

Definition validateOas (oas : option value) : list string :=
  if negb (truthy oas) || negb (typeof_is_object oas)
  then ["Content is not a valid object."]
  else
    let binding := ofield (ofield oas "binding") "openapi" in
    if truthy binding && typeof_is_object binding
    then validateBound oas binding
    else validateOpenApi oas.

(* ===================================================================== *)
(** * ToString and Array.prototype.join *)
(* ===================================================================== *)

Definition string_of_Z (n : Z) : string :=
  DecimalString.NilZero.string_of_int (Z.to_int n).

Fixpoint toString (v : value) : string :=
  match v with
  | Null => "null"
  | Bool true => "true"
  | Bool false => "false"
  | Num n => string_of_Z n
  | Str s => s
  | Arr items =>
      String.concat ","
        (map (fun x => match x with Null => "" | _ => toString x end) items)
  | Obj _ => "[object Object]"
  end.

(** [items.join(sep)]: null elements print as the empty string. *)
Definition join (sep : string) (items : list value) : string :=
  String.concat sep
    (map (fun x => match x with Null => "" | _ => toString x end) items).

(* ===================================================================== *)
(** * Effects: exceptions, the remote transport, the user *)
(* ===================================================================== *)

(** A computation that may throw. *)
Inductive outcome (A : Type) : Type :=
| Ok (a : A)
| Throw (msg : string).
Arguments Ok {A} a.
Arguments Throw {A} msg.

Definition obind {A B} (m : outcome A) (k : A -> outcome B) : outcome B :=
  match m with
  | Ok a => k a
  | Throw e => Throw e
  end.

Declare Scope outcome_scope.
Delimit Scope outcome_scope with outcome.
Notation "'try!' x := m 'in' k" := (obind m (fun x => k))
  (at level 10, x name, m at level 100, k at level 200) : outcome_scope.

(** What the runtime raises on a property access on [null], or on a call
    of a method the receiver does not have. *)
Definition TypeError {A} : outcome A := Throw "TypeError".

(** [v.k] where [v] may be [null] or [undefined]. *)
Definition fieldE (o : option value) (k : string) : outcome (option value) :=
  match o with
  | None | Some Null => TypeError
  | Some v => Ok (field v k)
  end.

(** [items.find(pred)] *)
Fixpoint findE (pred : value -> outcome bool) (items : list value)
    : outcome (option value) :=
  match items with
  | [] => Ok None
  | x :: rest =>
      match pred x with
      | Throw e => Throw e
      | Ok true => Ok (Some x)
      | Ok false => findE pred rest
      end
  end.

(** [items.filter(pred)] *)
Fixpoint filterE (pred : value -> outcome bool) (items : list value)
    : outcome (list value) :=
  match items with
  | [] => Ok []
  | x :: rest =>
      match pred x with
      | Throw e => Throw e
      | Ok b =>
          match filterE pred rest with
          | Throw e => Throw e
          | Ok ys => Ok (if b then x :: ys else ys)
          end
      end
  end.

(** [items.map(f)] *)
Fixpoint mapE {B} (f : value -> outcome B) (items : list value) : outcome (list B) :=
  match items with
  | [] => Ok []
  | x :: rest =>
      match f x with
      | Throw e => Throw e
      | Ok y =>
          match mapE f rest with
          | Throw e => Throw e
          | Ok ys => Ok (y :: ys)
          end
      end
  end.

(** [o === s] for a string literal [s]. *)
Definition is_str (o : option value) (s : string) : bool :=
  match o with
  | Some (Str t) => String.eqb t s
  | _ => false
  end.

(** [x.k === s] as the predicate of a [find] or [filter]. *)
Definition fieldIs (k s : string) (x : value) : outcome bool :=
  obind (fieldE (Some x) k) (fun f => Ok (is_str f s)).

(** ** HTTP *)

Record Request := mkRequest {
  req_endpoint : string;
  req_method : option string;
  req_body : option value
}.

Record HttpResponse := mkHttpResponse {
  status : Z;
  text : string;          (** [await response.text()] *)
  json : option value     (** the body parsed as JSON, if it parses *)
}.

(** [response.ok] *)
Definition ok (r : HttpResponse) : bool :=
  (200 <=? status r) && (status r <=? 299).

Inductive FetchResult :=
| Rejected (msg : string)
| Responded (r : HttpResponse).

Inductive Event :=
| EvFetch (req : Request)
| EvSleep (ms : Z)
| EvWarning (msg : string) (buttons : list string)
| EvInformation (msg : string)
| EvError (msg : string)
| EvLoadData.

(** The result of [invokeToolRemote]. *)
Record ToolRun := mkToolRun {
  tr_data : value;
  tr_threadId : value;
  tr_reasoning : option string
}.

(** The result of [invokeAgent]. *)
Record AgentRun := mkAgentRun {
  ar_success : bool;
  ar_response : string;
  ar_reasoning : option string
}.

Section Remote.
(** The state of everything outside the extension. *)
Variable World : Type.
(** [woFetch]: the authenticated request primitive of api/client.ts. *)
Variable woFetch : Request -> World -> FetchResult * World.
(** A modal prompt: the button the user picks, if any. *)
Variable ask : string -> list string -> World -> option string * World.
(** [JSON.stringify(v)] and [JSON.stringify(v, null, 2)]. *)
Variable JSON_stringify : value -> string.
Variable JSON_stringify2 : value -> string.

(** An effectful computation: it reads and changes the world, appends
    to the log of observable events, and returns or throws. *)
Definition M (A : Type) : Type :=
  World * list Event -> outcome A * (World * list Event).

Definition ret {A} (a : A) : M A := fun s => (Ok a, s).
Definition throw {A} (msg : string) : M A := fun s => (Throw msg, s).
Definition bind {A B} (m : M A) (k : A -> M B) : M B :=
  fun s =>
    match m s with
    | (Ok a, s') => k a s'
    | (Throw e, s') => (Throw e, s')
    end.
Definition lift {A} (o : outcome A) : M A := fun s => (o, s).
Definition emit (e : Event) : M unit :=
  fun '(w, log) => (Ok tt, (w, log ++ [e])).

(** [try { m } catch (e) { h(e.message) }] *)
Definition catch {A} (m : M A) (h : string -> M A) : M A :=
  fun s =>
    match m s with
    | (Ok a, s') => (Ok a, s')
    | (Throw e, s') => h e s'
    end.

Notation "'do' x <- m ; k" := (bind m (fun x => k))
  (at level 10, x name, m at level 100, k at level 200).
Notation "m ;; k" := (bind m (fun _ => k))
  (at level 100, right associativity).

(** [await woFetch(endpoint, {method, body})] *)
Definition fetch (req : Request) : M HttpResponse :=
  fun '(w, log) =>
    match woFetch req w with
    | (Responded r, w') => (Ok r, (w', log ++ [EvFetch req]))
    | (Rejected msg, w') => (Throw msg, (w', log ++ [EvFetch req]))
    end.

(** [await new Promise(r => setTimeout(r, ms))] *)
Definition sleep (ms : Z) : M unit := emit (EvSleep ms).

(** [await vscode.window.showWarningMessage(msg, {modal: true}, ...buttons)] *)
Definition showWarningMessage (msg : string) (buttons : list string)
    : M (option string) :=
  fun '(w, log) =>
    let '(choice, w') := ask msg buttons w in
    (Ok choice, (w', log ++ [EvWarning msg buttons])).

(** [await response.json()] *)
Definition jsonOf (r : HttpResponse) : M value :=
  match json r with
  | Some v => ret v
  | None => throw "SyntaxError"
  end.

(* ------------------------------------------------------------------- *)
(** ** [updateSkill] *)
(* ------------------------------------------------------------------- *)

(** [name.replace(/[^a-zA-Z0-9_]/g, '_').replace(/^[^a-zA-Z_]+/, '')] *)
Definition sanitizeToolName (name : string) : string :=
  Strs.drop_while (fun c => negb (Chars.is_letter_or_underscore c))
    (Strs.replace_outside Chars.is_word "_" name).

(** [if (skillJson[k]) updatePayload[k] = skillJson[k]] *)
Definition copyIfTruthy (skillJson : value) (k : string)
    (payload : list (string * value)) : list (string * value) :=
  match field skillJson k with
  | Some v => if truthy_value v then Obj.set payload k v else payload
  | None => payload
  end.

(** [if (skillJson.name) updatePayload.name = skillJson.name.replace(...)];
    a truthy name that is not a string has no [replace]. *)
Definition namePayload (skillJson : value) : outcome (list (string * value)) :=
  match field skillJson "name" with
  | Some (Str s) =>
      Ok (if String.eqb s "" then []
          else Obj.set [] "name" (Str (sanitizeToolName s)))
  | Some v => if truthy_value v then TypeError else Ok []
  | None => Ok []
  end.

Definition updatePayload (skillJson : option value)
    : outcome (list (string * value)) :=
  match skillJson with
  | None | Some Null => TypeError
  | Some sj =>
      try! p0 := namePayload sj in
      let p1 := copyIfTruthy sj "display_name" p0 in
      let p2 := copyIfTruthy sj "description" p1 in
      let p3 :=
        Obj.set p2 "permission"
          (default Null (or_else (field sj "permission") (Some (Str "read_write")))) in
      let p4 := copyIfTruthy sj "restrictions" p3 in
      let p5 := copyIfTruthy sj "tags" p4 in
      Ok p5
  end%outcome.

Definition success : value := Obj [("success", Bool true)].

Definition updateSkill (skillId : string) (skillJson : option value) : M value :=
  do payload <- lift (updatePayload skillJson);
  let endpoint := "/v1/orchestrate/tools/" +:+ skillId in
  do put <- fetch (mkRequest endpoint (Some "PUT") (Some (Obj payload)));
  do response <-
    (if status put =? 405
     then fetch (mkRequest endpoint (Some "PATCH") (Some (Obj payload)))
     else ret put);
  if negb (ok response) then
    throw ("Failed to update skill: " +:+ string_of_Z (status response)
           +:+ " " +:+ text response)
  else if status response =? 204 then ret success
  else if String.eqb (text response) "" then ret success
  else
    match json response with
    | Some v => ret v
    | None =>
        ret (Obj [("success", Bool true);
                  ("message", Str "Updated successfully (non-JSON response)")])
    end.

(* ------------------------------------------------------------------- *)
(** ** The [saveSkill] message handler *)
(* ------------------------------------------------------------------- *)

Definition newline : string := String (ascii_of_nat 10) EmptyString.

Definition saveSkill (skillId : option string) (content : option value) : M unit :=
  let saveErrors := validateOas content in
  do proceed <-
    (match saveErrors with
     | _ :: _ =>
         do choice <-
           showWarningMessage
             ("OpenAPI validation issues:" +:+ newline
              +:+ String.concat newline saveErrors
              +:+ newline +:+ newline +:+ "Continue anyway?")
             ["Update Anyway"; "Cancel"];
         ret (bool_decide (choice = Some "Update Anyway"))
     | [] =>
         do confirmSave <-
           showWarningMessage
             ("Are you sure you want to update tool " +:+ dquote
              +:+ str_nullish skillId "null" +:+ dquote +:+ "?")
             ["Update"; "Cancel"];
         ret (bool_decide (confirmSave = Some "Update"))
     end);
  if negb proceed then ret tt
  else
    catch
      (match skillId with
       | Some id =>
           if String.eqb id "" then ret tt
           else
             updateSkill id content ;;
             emit (EvInformation "Tool updated successfully.") ;;
             emit EvLoadData
       | None => ret tt
       end)
      (fun message => emit (EvError ("Failed to update tool: " +:+ message))).

(* ------------------------------------------------------------------- *)
(** ** [formatAssistantContent] *)
(* ------------------------------------------------------------------- *)

(** [typeof v === 'string' ? v : JSON.stringify(v, null, 2)] *)
Definition stringOrPretty (v : value) : string :=
  match v with
  | Str s => s
  | _ => JSON_stringify2 v
  end.

(** The lines one content block contributes to the trace. *)
Definition blockLines (includeResult : bool) (c : value) : outcome (list string) :=
  (try! ty := fieldE (Some c) "type" in
   let t := nullish ty (field c "response_type") in
   if is_str t "text" then
     let ctext := field c "text" in
     let txt := nullish (nullish (ofield ctext "value") ctext) (field c "value") in
     Ok (match txt with
         | Some v => if truthy_value v then [Strs.trim (toString v)] else []
         | None => []
         end)
   else if is_str t "tool_use" then
     let name :=
       or_else (field c "name") (or_else (field c "tool_name") (Some (Str "tool"))) in
     let input :=
       nullish (field c "input") (nullish (field c "arguments") (Some (Obj []))) in
     Ok [newline +:+ "🔧 Tool: " +:+ toString (default Null name);
         "Input: " +:+ stringOrPretty (default Null input)]
   else if is_str t "tool_result" then
     if includeResult then
       let out :=
         nullish (field c "content")
           (nullish (field c "output") (nullish (field c "result") (Some c))) in
       Ok [newline +:+ "📋 Result:" +:+ newline +:+ stringOrPretty (default Null out)]
     else Ok [newline +:+ "📋 Tool returned result (see below)"]
   else Ok [])%outcome.

Definition formatAssistantContent (content : option value) (includeToolResult : bool)
    : outcome string :=
  match content with
  | Some (Arr (c :: cs)) =>
      (try! lines := mapE (blockLines includeToolResult) (c :: cs) in
       Ok (Strs.trim (String.concat newline (concat lines))))%outcome
  | _ => Ok ""
  end.

(* ------------------------------------------------------------------- *)
(** ** [invokeToolRemote] *)
(* ------------------------------------------------------------------- *)

Definition toolDirective (parameters : list (string * value)) : string :=
  match parameters with
  | _ :: _ =>
      "Execute the tool with these parameters. Return the raw result data."
      +:+ newline +:+ newline +:+ "Parameters: " +:+ JSON_stringify (Obj parameters)
  | [] => "Execute the tool with default parameters. Return the raw result data."
  end.

Definition toolRunPayload (toolId : string) (parameters : list (string * value))
    (agentId : option string) : value :=
  let payload :=
    [("tool_id", Str toolId);
     ("parameters", Obj parameters);
     ("message", Obj [("role", Str "user");
                      ("content", Str (toolDirective parameters))])] in
  Obj (match agentId with
       | Some a => if String.eqb a "" then payload else Obj.set payload "agent_id" (Str a)
       | None => payload
       end).

Definition threadMessagesUrl (threadId : option value) : string :=
  "/v1/orchestrate/threads/"
  +:+ match threadId with Some v => toString v | None => "undefined" end
  +:+ "/messages".

(** [Array.isArray(msgData) ? msgData : (msgData.messages || msgData.data || [])] *)
Definition toolMessagesOf (msgData : value) : outcome value :=
  match msgData with
  | Arr _ => Ok msgData
  | Null => TypeError
  | _ =>
      Ok (default Null
            (or_else (field msgData "messages")
               (or_else (field msgData "data") (Some (Arr [])))))
  end.

(** [messages.find(m => m.role === 'assistant')] *)
Definition findAssistant (messages : value) : outcome (option value) :=
  match messages with
  | Arr items => findE (fieldIs "role" "assistant") items
  | _ => TypeError
  end.

Definition toolMaxAttempts : nat := 12.
Definition toolPollDelay : Z := 4000.

(** The [for] loop of [invokeToolRemote] with [attempts] iterations left;
    [messages] is the variable of that name. *)
Fixpoint toolPoll (url : string) (attempts : nat) (messages : value) : M value :=
  match attempts with
  | O => ret messages
  | S n =>
      sleep toolPollDelay ;;
      do msgRes <- fetch (mkRequest url None None);
      if ok msgRes then
        do msgData <- jsonOf msgRes;
        do messages' <- lift (toolMessagesOf msgData);
        do assistantMsg <- lift (findAssistant messages');
        match assistantMsg with
        | Some _ => ret messages'
        | None => toolPoll url n messages'
        end
      else toolPoll url n messages
  end.

(** [messages[0]] *)
Definition firstItem (messages : value) : option value :=
  match messages with
  | Arr (m :: _) => Some m
  | _ => None
  end.

(** The branch [Array.isArray(content)] of the result extraction. *)
Definition extractFromBlocks (content : value) (blocks : list value) : outcome value :=
  (try! toolResult := findE (fieldIs "type" "tool_result") blocks in
   try! textBlock := findE (fieldIs "type" "text") blocks in
   try! toolUse := findE (fieldIs "type" "tool_use") blocks in
   let fromToolUse :=
     match toolUse with
     | Some tu => default Null (nullish (field tu "content") (Some tu))
     | None => content
     end in
   Ok (match toolResult with
       | Some r =>
           default Null
             (nullish (field r "content")
                (nullish (field r "output") (nullish (field r "result") (Some r))))
       | None =>
           match textBlock with
           | Some tb =>
               match field tb "text" with
               | None | Some Null => fromToolUse
               | Some (Str s) => Str s
               | Some t =>
                   default Null
                     (nullish (field t "value") (Some (Str (JSON_stringify t))))
               end
           | None => fromToolUse
           end
       end))%outcome.

(** The body of [if (assistantMsg && assistantMsg.content)]: the pair
    [(responseData, reasoning)] it assigns. *)
Definition extractContent (content : option value)
    : outcome (option value * option string) :=
  match content with
  | Some (Arr blocks) =>
      (try! d := extractFromBlocks (Arr blocks) blocks in
       try! r := formatAssistantContent (Some (Arr blocks)) false in
       Ok (Some d, Some r))%outcome
  | c => Ok (c, None)
  end.

(** Everything after the choice of [assistantMsg]: the pair
    [(responseData, reasoning)]. *)
Definition responseFrom (threadId : value) (messages : value)
    (assistantMsg : option value) : outcome (value * option string) :=
  (try! extracted :=
     (if truthy assistantMsg && truthy (ofield assistantMsg "content")
      then extractContent (ofield assistantMsg "content")
      else Ok (None, None)) in
   let '(responseData, reasoning) := extracted in
   let data :=
     if is_nullish responseData then
       if hasLength (Some messages) then messages
       else Obj [("thread_id", threadId);
                 ("info", Str "No tool output in messages.")]
     else default Null responseData in
   Ok (data, reasoning))%outcome.

(** Everything after the loop:
    [messages.find(m => m.role === 'assistant') || messages[0]] and what
    is made of it. *)
Definition toolResponse (threadId : value) (messages : value)
    : outcome (value * option string) :=
  (try! found := findAssistant messages in
   responseFrom threadId messages (or_else found (firstItem messages)))%outcome.

Definition invokeToolRemote (toolId : string) (parameters : list (string * value))
    (agentId : option string) : M ToolRun :=
  do runRes <-
    fetch (mkRequest "/v1/orchestrate/runs" (Some "POST")
             (Some (toolRunPayload toolId parameters agentId)));
  if negb (ok runRes) then
    throw ("Run failed (" +:+ string_of_Z (status runRes) +:+ "): " +:+ text runRes)
  else
    do runData <- jsonOf runRes;
    do threadId <- lift (fieldE (Some runData) "thread_id");
    if negb (truthy threadId) then
      throw ("No thread_id returned from run. Response: " +:+ JSON_stringify runData)
    else
      let tid := default Null threadId in
      do messages <- toolPoll (threadMessagesUrl threadId) toolMaxAttempts (Arr []);
      do dr <- lift (toolResponse tid messages);
      ret {| tr_data := fst dr; tr_threadId := tid; tr_reasoning := snd dr |}.

(* ------------------------------------------------------------------- *)
(** ** [invokeAgent] *)
(* ------------------------------------------------------------------- *)

(** [c.text?.value ?? (typeof c.text === 'string' ? c.text : c.text)] *)
Definition textPart (c : value) : outcome (option value) :=
  (try! t := fieldE (Some c) "text" in
   Ok (nullish (ofield t "value") t))%outcome.

(** [c.text?.value || c.text || JSON.stringify(c)] *)
Definition textOrJson (c : value) : outcome value :=
  (try! t := fieldE (Some c) "text" in
   Ok (default Null
         (or_else (ofield t "value") (or_else t (Some (Str (JSON_stringify c)))))))%outcome.

(** [a || b] on strings *)
Definition nonempty_or (a b : string) : string :=
  if String.eqb a "" then b else a.

(** The body of [if (assistantMsg) { ... }]. *)
Definition agentResponse (assistantMsg : value) : outcome AgentRun :=
  match field assistantMsg "content" with
  | Some (Str s) =>
      Ok {| ar_success := true; ar_response := s; ar_reasoning := None |}
  | Some (Arr blocks) =>
      (try! reasoning := formatAssistantContent (Some (Arr blocks)) true in
       try! texts := filterE (fieldIs "type" "text") blocks in
       try! parts := mapE textPart texts in
       let textParts := omap (fun p => if truthy p then p else None) parts in
       try! all := mapE textOrJson blocks in
       Ok {| ar_success := true;
             ar_response :=
               nonempty_or (Strs.trim (join " " textParts))
                 (nonempty_or (join " " all) "(See reasoning for details)");
             ar_reasoning := Some reasoning |})%outcome
  | _ =>
      Ok {| ar_success := true; ar_response := "Unknown format"; ar_reasoning := None |}
  end.

(** [messages.filter(m => m.role === 'assistant').pop()] *)
Definition lastAssistant (items : list value) : outcome (option value) :=
  (try! assistants := filterE (fieldIs "role" "assistant") items in
   Ok (last assistants))%outcome.

(** [data.data || data] *)
Definition agentMessagesOf (data : value) : outcome value :=
  (try! dd := fieldE (Some data) "data" in
   Ok (default Null (or_else dd (Some data))))%outcome.

Definition agentMaxAttempts : nat := 15.
Definition agentPollDelay : Z := 2000.

(** The [while (pollCount < 15)] loop with [attempts] iterations left,
    followed by the statement after the loop. *)
Fixpoint agentPoll (url : string) (attempts : nat) : M AgentRun :=
  match attempts with
  | O => throw "Timed out waiting for assistant response."
  | S n =>
      sleep agentPollDelay ;;
      do msgRes <- fetch (mkRequest url (Some "GET") None);
      if ok msgRes then
        do data <- jsonOf msgRes;
        do messages <- lift (agentMessagesOf data);
        match messages with
        | Arr items =>
            do assistantMsg <- lift (lastAssistant items);
            match assistantMsg with
            | Some am => lift (agentResponse am)
            | None => agentPoll url n
            end
        | _ => agentPoll url n
        end
      else agentPoll url n
  end.

Definition invokeAgent (agentId message : string) : M AgentRun :=
  let runPayload :=
    Obj [("agent_id", Str agentId);
         ("message", Obj [("role", Str "user"); ("content", Str message)])] in
  do runRes <- fetch (mkRequest "/v1/orchestrate/runs" (Some "POST") (Some runPayload));
  if negb (ok runRes) then
    throw ("Failed to start run: " +:+ string_of_Z (status runRes) +:+ " " +:+ text runRes)
  else
    match json runRes with
    | None => throw ("Failed to parse run response: " +:+ text runRes)
    | Some runData =>
        do threadId <- lift (fieldE (Some runData) "thread_id");
        agentPoll (threadMessagesUrl threadId) agentMaxAttempts
    end.

End Remote.

(* ===================================================================== *)
(** * SchemaInferencer: [inferSchema] *)
(* ===================================================================== *)

(** The description given to a property whose sample is a string of more
    than ten characters (counted as the source counts them when the text
    is ASCII). *)
Definition withExample (sample : value) (schema : value) : value :=
  match sample, schema with
  | Str s, Obj fs =>
      if (10 <? String.length s)%nat
      then Obj (Obj.set fs "description"
                  (Str ("Example: " +:+ String.substring 0 30 s +:+ "...")))
      else schema
  | _, _ => schema
  end.

(** The numbers of [value] are integers, so the type [number] that the
    source gives to a number that is not an integer is not met here.  The
    properties are assigned one by one under the keys of the sample. *)
Fixpoint inferSchema (data : value) : value :=
  match data with
  | Null => Obj [("type", Str "string"); ("nullable", Bool true)]
  | Str _ => Obj [("type", Str "string")]
  | Num _ => Obj [("type", Str "integer")]
  | Bool _ => Obj [("type", Str "boolean")]
  | Arr items =>
      Obj [("type", Str "array");
           ("items", match items with
                     | x :: _ => inferSchema x
                     | [] => Obj [("type", Str "string")]
                     end)]
  | Obj fs =>
      Obj [("type", Str "object");
           ("properties",
            Obj (fold_left
                   (fun properties kv =>
                      let '(key, v) := kv in
                      assignProperty properties key (withExample v (inferSchema v)))
                   fs []))]
  end.

(** [inferSchema(data) || { type: 'object' }] as the field list of the
    schema object; [undefined] infers [{type: 'string'}]. *)
Definition responseSchemaOf (data : option value) : list (string * value) :=
  match data with
  | Some v =>
      match inferSchema v with
      | Obj fs => fs
      | _ => [("type", Str "object")]
      end
  | None => [("type", Str "string")]
  end.

(* ===================================================================== *)
(** * OpenApiDocumentBuilder: the [generateOaS] and [fetchAndGenerate]
      handlers *)
(* ===================================================================== *)


Definition pathToOperationId (path : string) : string :=
  let seg := Strs.segments path in
  let lastSeg := str_or (last seg) "operation" in
  let base := Strs.replace_outside Chars.is_alnum "_" (Strs.strip_extension lastSeg) in
  nonempty_or base "generatedOperation".

Definition pathToSummary (path : string) : string :=
  let seg := Strs.segments path in
  let lastSeg := str_or (last seg) "data" in
  let base := Strs.strip_extension lastSeg in
  nonempty_or
    (Strs.trim
       (Strs.collapse_spaces " "
          (Strs.replace_outside (fun c => Chars.is_alnum c || Chars.is_space c) " " base)))
    "Generated Operation".

(** What [new URL(url)] exposes. *)
Record URL := mkURL {
  origin : string;
  pathname : string;
  hostname : string
}.

(** The result of [_fetchServiceInfo]. *)
Record ServiceInfo := mkServiceInfo {
  si_title : option string;
  si_description : option string
}.

(** The message of the webview. *)
Record GenerateMessage := mkGenerateMessage {
  g_url : string;
  g_method : option string;
  g_params : option (list (string * value));
  g_responseBody : option value;
  g_apiKeyParamName : option string
}.

(** What the handler reads from outside: the parsed URL (none if [new URL]
    throws), the scraped service information, the clock. *)
Record GenerateEnv := mkGenerateEnv {
  env_url : option URL;
  env_serviceInfo : ServiceInfo;
  env_now : Z
}.

Definition apiKeyAliases : list string := ["key"; "apiKey"; "api_key"].

(** [Object.keys(params).forEach(key => oasParams.push(...))] *)
Definition oasParamsOf (params : list (string * value)) : list Param :=
  map (fun key =>
         let val := Obj.get params key in
         {| p_name := key;
            p_in := Some "query";
            p_required := false;
            p_description := None;
            p_schema :=
              Some {| s_type := Some (typeof val);
                      s_title := None;
                      s_description := None;
                      s_default := if is_nullish val then None else val;
                      s_enum := None |} |})
      (Obj.keys params).

(** [(apiKeyParamName || 'apiKey').trim() || 'apiKey'] *)
Definition apiKeyParamOf (apiKeyParamName : option string) : string :=
  nonempty_or (Strs.trim (str_or apiKeyParamName "apiKey")) "apiKey".

Definition isAlias (k : string) : bool := bool_decide (k ∈ apiKeyAliases).

Definition hasApiKeyParamIn (paramNames : list string) (apiKeyParam : string) : bool :=
  existsb (fun k => String.eqb k apiKeyParam || isAlias k) paramNames.

Definition secNameOf (paramNames : list string) (apiKeyParam : string) : string :=
  if hasApiKeyParamIn paramNames apiKeyParam && bool_decide (apiKeyParam ∈ paramNames)
  then apiKeyParam
  else if hasApiKeyParamIn paramNames apiKeyParam
  then str_or (find isAlias paramNames) apiKeyParam
  else apiKeyParam.

(** The document both handlers assemble, given the lower-cased method,
    the path key and the parameters already chosen. *)
Definition assembleOas (env : GenerateEnv) (url : string) (u : URL)
    (pathKey methodKey : string) (parameters : list Param)
    (responseSchema : list (string * value))
    (paramNames : list string) (apiKeyParamName : option string) : OpenApi :=
  let serviceInfo := env_serviceInfo env in
  let apiKeyParam := apiKeyParamOf apiKeyParamName in
  let hasApiKeyParam := hasApiKeyParamIn paramNames apiKeyParam in
  let secName := secNameOf paramNames apiKeyParam in
  {| oas_openapi := Some "3.0.1";
     oas_info :=
       Some {| i_title := Some (str_or (si_title serviceInfo) "Generated Tool");
               i_description :=
                 Some (str_or (si_description serviceInfo) ("Tool generated from " +:+ url));
               i_version := Some "1.0.0";
               i_x_ibm_skill_name :=
                 Some (str_or (si_title serviceInfo) "Generated Tool Service");
               i_x_ibm_skill_id := Some ("generated-" +:+ string_of_Z (env_now env)) |};
     oas_servers := Some [ServerObject (Some (origin u))];
     oas_paths :=
       Some [(pathKey,
              [(methodKey,
                {| op_operationId := Some (pathToOperationId pathKey);
                   op_summary := Some (pathToSummary pathKey);
                   op_parameters := Some parameters;
                   op_security := None;
                   op_response200 :=
                     Some {| r_description := Some "Success";
                             r_schema := Some responseSchema |} |})])];
     oas_securitySchemes :=
       if hasApiKeyParam
       then Some [("ApiKeyAuth",
                   {| ss_type := Some "apiKey"; ss_in := Some "query";
                      ss_scheme := None; ss_name := Some secName |})]
       else None;
     oas_security :=
       if hasApiKeyParam then Some (Arr [Obj [("ApiKeyAuth", Arr [])]]) else None;
     oas_x_ibm_security := None;
     oas_x_ibm_connection_id := None;
     oas_binding_security := None;
     oas_binding_connection_id := None |}.

(** The [generateOaS] handler: the document posted as [updateJson], or the
    message caught and shown as "Failed to generate OAS". *)
Definition generateOaS (env : GenerateEnv) (message : GenerateMessage) : outcome OpenApi :=
  match env_url env with
  | None => Throw "Invalid URL"
  | Some urlObj =>
      let path := pathname urlObj in
      let oasParams := oasParamsOf (default [] (g_params message)) in
      let responseSchema := responseSchemaOf (g_responseBody message) in
      let paramNames := Obj.keys (default [] (g_params message)) in
      match g_method message with
      | None => TypeError
      | Some method =>
          let m := Strs.toLowerCase method in
          Ok (assembleOas env (g_url message) urlObj path m
                (if String.eqb m "get" then oasParams else [])
                responseSchema paramNames (g_apiKeyParamName message))
      end
  end.

(** What [fetchAndGenerate] posts to the webview. *)
Inductive GenerateReply :=
| ReplyError (message : string)
| ReplyUpdateJson (content : OpenApi).

(** The [fetchAndGenerate] handler from the point where the response of
    the probed endpoint has arrived ([response]); a thrown exception is
    shown as "Fetch failed". *)
Definition fetchAndGenerate (env : GenerateEnv) (statusText : string)
    (response : HttpResponse) (message : GenerateMessage) : outcome GenerateReply :=
  let m := Strs.toUpperCase (Strs.trim (str_or (g_method message) "GET")) in
  let responseBody :=
    match json response with
    | Some v => v
    | None => Str (text response)
    end in
  if negb (ok response) then
    Ok (ReplyError ("Fetch failed: " +:+ string_of_Z (status response)
                    +:+ " " +:+ statusText))
  else
    match env_url env with
    | None => Throw "Invalid URL"
    | Some urlObj =>
        let oasParams := oasParamsOf (default [] (g_params message)) in
        let paramNames := Obj.keys (default [] (g_params message)) in
        let pathKey := nonempty_or (pathname urlObj) "/" in
        Ok (ReplyUpdateJson
              (assembleOas env (g_url message) urlObj pathKey (Strs.toLowerCase m)
                 (if String.eqb m "GET" then oasParams else [])
                 (responseSchemaOf (Some responseBody))
                 paramNames (g_apiKeyParamName message)))
    end.

(* ===================================================================== *)
(** * FormSyncEngine: [parseParamDefault] and [applyParamEditsToJson] *)
(* ===================================================================== *)

(** One [tr.param-row] of a parameter table: the [data-deleted] marker and
    the current values of its inputs ([None]: the input is not there). *)
Record Row := mkRow {
  row_deleted : bool;
  row_name : option string;
  row_in : option string;
  row_type : option string;
  row_required : option bool;
  row_default : option string;
  row_desc : option string
}.

(** One [table[data-params-format]] with its attributes. *)
Record Table := mkTable {
  tbl_format : string;
  tbl_pathKey : option string;
  tbl_method : option string;
  tbl_rows : list Row
}.

(** [raw.replace(/\s+/g, '_').replace(/[^a-zA-Z0-9_]/g, '_')
        .replace(/^_+/, '').replace(/_+$/, '')] *)
Definition sanitizeKey (raw : string) : string :=
  Strs.drop_while_end Chars.is_underscore
    (Strs.drop_while Chars.is_underscore
       (Strs.replace_outside Chars.is_word "_"
          (Strs.collapse_spaces "_" raw))).

(** [v.k = x] on a value that is an object, for a key [k] that the script
    fixes or that the object already has.  On an array the assignment does not show in the serialized
    document, and the value is left as it is; on a string, a number or a
    boolean the script, which runs in strict mode, throws instead, and so
    it does on [null]: these cases are outside what [setField] models,
    and the statements about the write-back exclude them. *)
Definition setField (v : value) (k : string) (x : value) : value :=
  match v with
  | Obj fs => Obj (Obj.set fs k x)
  | _ => v
  end.

(** [v.k = undefined]: the key is left out of the serialized document. *)
Definition unsetField (v : value) (k : string) : value :=
  match v with
  | Obj fs => Obj (filter (fun kv => negb (String.eqb (fst kv) k) = true) fs)
  | _ => v
  end.

Section FormSync.
(** [parseFloat(v)] when [String(parseFloat(v)) === v], else nothing. *)
Variable numericLiteral : string -> option value.

Definition parseParamDefault (v : option string) : option value :=
  let v := Strs.trim (str_or v "") in
  if String.eqb v "" then None
  else if String.eqb v "true" then Some (Bool true)
  else if String.eqb v "false" then Some (Bool false)
  else match numericLiteral v with
       | Some num => Some num
       | None => Some (Str v)
       end.

(** [def !== undefined ? fields + {default: def} : fields] *)
Definition withDefault (fields : list (string * value)) (def : option value)
    : list (string * value) :=
  match def with
  | Some d => Obj.set fields "default" d
  | None => fields
  end.

(** *** The [schema] format *)

(** The key of a row, or nothing when the row is skipped. *)
Definition schemaRowKey (row : Row) : option string :=
  if row_deleted row then None
  else
    let raw := Strs.trim (str_or (row_name row) "") in
    if String.eqb raw "" then None
    else
      let key := sanitizeKey raw in
      if String.eqb key "" then None else Some key.

Definition schemaRowProp (row : Row) : value :=
  Obj (withDefault
         [("type", Str (str_or (row_type row) "string"));
          ("description", Str (str_or (row_desc row) ""));
          ("in", Str (str_or (row_in row) "query"))]
         (parseParamDefault (row_default row))).

(** The callback of [rows.forEach] on the pair [(props, required)]. *)
Definition schemaRowStep (acc : list (string * value) * list string) (row : Row)
    : list (string * value) * list string :=
  match schemaRowKey row with
  | None => acc
  | Some key =>
      (assignProperty (fst acc) key (schemaRowProp row),
       if default false (row_required row) then snd acc ++ [key] else snd acc)
  end.

Definition schemaRows (rows : list Row) : list (string * value) * list string :=
  fold_left schemaRowStep rows ([], []).

Definition applySchemaTable (currentJson : value) (tbl : Table) : value :=
  let withSchema :=
    if truthy (field currentJson "input_schema") then currentJson
    else setField currentJson "input_schema"
           (Obj [("type", Str "object"); ("properties", Obj [])]) in
  let '(props, required) := schemaRows (tbl_rows tbl) in
  let inputSchema := default Null (field withSchema "input_schema") in
  let inputSchema1 := setField inputSchema "properties" (Obj props) in
  let inputSchema2 :=
    match required with
    | [] => unsetField inputSchema1 "required"
    | _ => setField inputSchema1 "required" (Arr (map Str required))
    end in
  setField withSchema "input_schema" inputSchema2.

(** *** The [paths] format *)

(** The name of a row, or nothing when the row is skipped. *)
Definition pathsRowName (row : Row) : option string :=
  if row_deleted row then None
  else
    let name := Strs.trim (str_or (row_name row) "") in
    if String.eqb name "" then None else Some name.

Definition pathsRowParam (name : string) (row : Row) : value :=
  Obj [("name", Str name);
       ("in", Str (str_or (row_in row) "query"));
       ("required", Bool (default false (row_required row)));
       ("description", Str (str_or (row_desc row) ""));
       ("schema",
        Obj (withDefault [("type", Str (str_or (row_type row) "string"))]
               (parseParamDefault (row_default row))))].

Definition pathsRows (rows : list Row) : list value :=
  omap (fun row => pathsRowName row ≫= fun name => Some (pathsRowParam name row)) rows.

Definition applyPathsTable (currentJson : value) (tbl : Table) : value :=
  match tbl_pathKey tbl, tbl_method tbl with
  | Some pathKey, Some method =>
      let paths := field currentJson "paths" in
      let pathObj := ofield paths pathKey in
      let op := ofield pathObj method in
      if negb (String.eqb pathKey "") && negb (String.eqb method "")
         && truthy paths && truthy pathObj && truthy op
      then
        let op' := setField (default Null op) "parameters"
                     (Arr (pathsRows (tbl_rows tbl))) in
        let pathObj' := setField (default Null pathObj) method op' in
        let paths' := setField (default Null paths) pathKey pathObj' in
        setField currentJson "paths" paths'
      else currentJson
  | _, _ => currentJson
  end.

Definition applyTable (currentJson : value) (tbl : Table) : value :=
  if String.eqb (tbl_format tbl) "schema" then applySchemaTable currentJson tbl
  else if String.eqb (tbl_format tbl) "paths" then applyPathsTable currentJson tbl
  else currentJson.

(** [currentJson] is the parsed document, an object the caller has
    already assigned fields to. *)
Definition applyParamEditsToJson (tables : list Table) (currentJson : value) : value :=
  fold_left applyTable tables currentJson.
End FormSync.

(* ===================================================================== *)
(** * Auxiliary definitions used by the statements *)
(* ===================================================================== *)

(** The wire identity of a parameter: its name and where it travels. *)
Definition wire (p : Param) : string * string := (p_name p, paramIn p).

(** The parameters of the operation that [buildToolSpec] compiles. *)
Definition compiledOperation (o : OpenApi) : option (string * string * Operation) :=
  match oas_paths o with
  | Some ((pathKey, pathObj) :: _) =>
      firstOperation pathObj ≫= fun '(m, op) => Some (pathKey, m, op)
  | _ => None
  end.

Definition operationParameters (o : OpenApi) : list Param :=
  match compiledOperation o with
  | Some (_, _, op) => default [] (op_parameters op)
  | None => []
  end.

(** The property entries the parameters ask for, one per parameter in
    order, with the key each is given; [buildToolSpec] stores them by
    assignment, so a repeated key overwrites. *)
Fixpoint propEntries (used : gset string) (ps : list Param)
    : list (string * PropSchema) :=
  match ps with
  | [] => []
  | p :: ps' =>
      let k := propKeyFor used p in
      (k, propSchemaFor k p) :: propEntries ({[k]} ∪ used) ps'
  end.

(** [spec.binding.openapi.http_method], [.http_path],
    [spec.input_schema.properties[k]] and [spec.input_schema.required]. *)
Definition http_method_of (spec : BoundTool) : option string :=
  bt_binding spec ≫= b_http_method.
Definition http_path_of (spec : BoundTool) : option string :=
  bt_binding spec ≫= b_http_path.
Definition property_of (spec : BoundTool) (k : string) : option PropSchema :=
  match bt_input_schema spec with
  | Some sch =>
      match is_properties sch with
      | Some ps => Obj.get ps k
      | None => None
      end
  | None => None
  end.
Definition required_of (spec : BoundTool) : option (list string) :=
  bt_input_schema spec ≫= is_required.

(** The document with its [paths] replaced. *)
Definition with_paths (o : OpenApi) (paths : option (list (string * PathItem))) : OpenApi :=
  {| oas_openapi := oas_openapi o;
     oas_info := oas_info o;
     oas_servers := oas_servers o;
     oas_paths := paths;
     oas_securitySchemes := oas_securitySchemes o;
     oas_security := oas_security o;
     oas_x_ibm_security := oas_x_ibm_security o;
     oas_x_ibm_connection_id := oas_x_ibm_connection_id o;
     oas_binding_security := oas_binding_security o;
     oas_binding_connection_id := oas_binding_connection_id o |}.

(** ** Concrete documents *)

Module Examples.
Definition stringSchema : Schema := mkSchema (Some "string") None None None None.

Definition param (name loc : string) (required : bool) : Param :=
  mkParam name (Some loc) required None (Some stringSchema).

Definition operation (ps : list Param) : Operation :=
  mkOperation None None (Some ps) None
    (Some (mkResponse None (Some [("type", Str "object")]))).

Definition document (item : PathItem) : OpenApi :=
  mkOpenApi None None
    (Some [ServerObject (Some "https://api.weatherapi.com/v1")])
    (Some [("/current.json", item)])
    None None None None None None.

(** The end-to-end scenario: one GET operation with the required query
    parameter [q]. *)
Definition weatherOas : OpenApi := document [("get", operation [param "q" "query" true])].

Definition weatherMeta : ToolMeta :=
  mkToolMeta (Some "get_weather") None (Some "read_write") None None.

(** [id] in both [query] and [path]. *)
Definition idTwice : list Param := [param "id" "query" false; param "id" "path" true].

(** Two colliding pairs; the alias key of the last parameter,
    [query_x], is the key already given to the first. *)
Definition aliasClash : list Param :=
  [param "query_x" "header" false; param "query_x" "path" false;
   param "x" "path" false; param "x" "query" false].

(** One required parameter named [__proto__], next to an ordinary one. *)
Definition protoRequired : list Param :=
  [param "q" "query" true; param "__proto__" "query" true].

(** A path item that declares [post] before [get]. *)
Definition postThenGet : PathItem :=
  [("post", operation [param "body_id" "query" true]);
   ("get", operation [param "q" "query" true])].

(** A bound record with method and path, an [input_schema] that is a
    string, and neither [name] nor [display_name]. *)
Definition boundWithoutName : value :=
  Obj [("binding",
        Obj [("openapi", Obj [("http_method", Str "GET"); ("http_path", Str "/x")])]);
       ("input_schema", Str "none")].

Definition boundWithName : value :=
  Obj [("name", Str "get_weather");
       ("binding",
        Obj [("openapi", Obj [("http_method", Str "GET"); ("http_path", Str "/x")])]);
       ("input_schema", Str "none")].

(** An OpenAPI document that lacks only [info.version]. *)
Definition oasWithoutVersion : value :=
  Obj [("openapi", Str "3.0.1");
       ("info", Obj [("title", Str "Weather")]);
       ("servers", Arr []);
       ("paths", Obj [])].

(** A remote service that answers every request with the same status
    and an empty body, and a user who always picks the same button. *)
Definition constantService (code : Z) : Request -> unit -> FetchResult * unit :=
  fun _ w => (Responded (mkHttpResponse code "" None), w).

Definition constantUser (choice : option string)
    : string -> list string -> unit -> option string * unit :=
  fun _ _ w => (choice, w).

(** An edited document with fields the update call must not send. *)
Definition editedSkill : value :=
  Obj [("name", Str "get weather");
       ("display_name", Str "Weather");
       ("id", Str "abc");
       ("binding", Obj [("openapi", Obj [("http_method", Str "GET")])]);
       ("input_schema", Obj []);
       ("tags", Arr [Str "demo"])].

(** The generation scenario: a GET of the weather endpoint with the
    observed parameters [q] and [key]; the API-key parameter name is the
    default of the form, "apiKey". *)
Definition weatherParams : list (string * value) :=
  [("q", Str "Toronto,On"); ("key", Str "abc123")].

Definition weatherMessage : GenerateMessage :=
  mkGenerateMessage "https://api.weatherapi.com/v1/current.json" (Some "GET")
    (Some weatherParams)
    (Some (Obj [("location", Obj [("name", Str "Toronto")]); ("temp_c", Num 3)]))
    (Some "apiKey").

Definition weatherEnv : GenerateEnv :=
  mkGenerateEnv
    (Some (mkURL "https://api.weatherapi.com" "/v1/current.json" "api.weatherapi.com"))
    (mkServiceInfo None None) 1700000000000.

Definition weatherResponse : HttpResponse :=
  mkHttpResponse 200 "{}" (Some (Obj [("temp_c", Num 3)])).

(** A row of a parameter table with a typed name and nothing else. *)
Definition rowNamed (name : string) : Row :=
  mkRow false (Some name) (Some "query") (Some "string") (Some false) (Some "") (Some "").

(** A [paths]-format table for GET /items with one row named "a b", and
    the document it is written back to. *)
Definition spacedTable : Table :=
  mkTable "paths" (Some "/items") (Some "get") [rowNamed "a b"].

Definition itemsDocument : value :=
  Obj [("openapi", Str "3.0.1");
       ("paths", Obj [("/items", Obj [("get", Obj [("parameters", Arr [])])])])].

(** A [schema]-format table with the rows "user id", "a-b", "___" and a
    deleted row. *)
Definition schemaTable : Table :=
  mkTable "schema" None None
    [rowNamed "user id"; rowNamed "a-b"; rowNamed "___";
     mkRow true (Some "gone") None None None None None].

(** No default value is a number. *)
Definition noNumbers : string -> option value := fun _ => None.






Definition noStringify : value -> string := fun _ => "".

(** The same request without the [key] parameter. *)
Definition plainMessage : GenerateMessage :=
  mkGenerateMessage "https://api.weatherapi.com/v1/current.json" (Some "GET")
    (Some [("q", Str "Toronto,On")]) None (Some "apiKey").
End Examples.

(** The parameter of the compiled operation with a given name. *)
Definition parameterNamed (o : OpenApi) (name : string) : option Param :=
  find (fun p => String.eqb (p_name p) name) (operationParameters o).

(** Its [in] and its [schema.default]. *)
Definition parameterIn (o : OpenApi) (name : string) : option string :=
  parameterNamed o name ≫= p_in.

Definition parameterDefault (o : OpenApi) (name : string) : option value :=
  match parameterNamed o name with
  | Some p =>
      match p_schema p with
      | Some sch => s_default sch
      | None => None
      end
  | None => None
  end.

(** [o.components.securitySchemes[name]] *)
Definition securityScheme (o : OpenApi) (name : string) : option SecurityScheme :=
  match oas_securitySchemes o with
  | Some schemes => Obj.get schemes name
  | None => None
  end.

(** The document a generation handler posts, if it posts one. *)
Definition generated (r : outcome OpenApi) : option OpenApi :=
  match r with
  | Ok o => Some o
  | Throw _ => None
  end.

Definition fetched (r : outcome GenerateReply) : option OpenApi :=
  match r with
  | Ok (ReplyUpdateJson o) => Some o
  | _ => None
  end.

(** A safe identifier: not empty, made of [[A-Za-z0-9_]] only, with no
    underscore at either end. *)
Definition starts_with (p : ascii -> bool) (s : string) : bool :=
  match s with
  | String c _ => p c
  | EmptyString => false
  end.

Fixpoint ends_with (p : ascii -> bool) (s : string) : bool :=
  match s with
  | EmptyString => false
  | String c EmptyString => p c
  | String _ s' => ends_with p s'
  end.

Definition safe_identifier (s : string) : bool :=
  Strs.nonempty s && Strs.forallb Chars.is_word s
  && negb (starts_with Chars.is_underscore s)
  && negb (ends_with Chars.is_underscore s).

(** The text typed into the name input of a row, trimmed. *)
Definition typedName (row : Row) : string := Strs.trim (str_or (row_name row) "").

(** ** Polling *)

(** The events of [k] poll attempts: each is a delay followed by the
    request of the thread's messages. *)
Fixpoint pollEvents (delay : Z) (req : Request) (k : nat) : list Event :=
  match k with
  | O => []
  | S k' => EvSleep delay :: EvFetch req :: pollEvents delay req k'
  end.

(** A message that is not from the assistant. *)
Definition no_assistant (m : value) : bool :=
  match m with
  | Null => false
  | Obj fs => negb (is_str (Obj.get fs "role") "assistant")
  | _ => true
  end.

Definition not_null (v : value) : bool :=
  match v with
  | Null => false
  | _ => true
  end.

(** The content of a message, when it is a list of blocks, has no [null]
    among them. *)
Definition blocks_present (m : value) : bool :=
  match field m "content" with
  | Some (Arr blocks) => forallb not_null blocks
  | _ => true
  end.

(** The first message of a list, when its content is a list of blocks,
    has no [null] among them. *)
Definition first_blocks_present (msgs : list value) : bool :=
  match msgs with
  | m :: _ => blocks_present m
  | [] => true
  end.

(** The answers of the transport to [n] successive polls [req], from the
    state [w] of the world. *)
Fixpoint pollAnswers {World : Type} (woFetch : Request -> World -> FetchResult * World)
    (req : Request) (n : nat) (w : World) : list FetchResult :=
  match n with
  | O => []
  | S n' =>
      let a := woFetch req w in
      fst a :: pollAnswers woFetch req n' (snd a)
  end.

(** What an answer to a poll gives a loop to search, [messagesOf] being
    the way the loop reads the message list from the body: nothing when
    the status is outside 200..299; the list read from a JSON body; the
    exception when the request is rejected, the body is not JSON or the
    list cannot be read from it. *)
Definition listOf (messagesOf : value -> outcome value) (a : FetchResult)
    : outcome (option value) :=
  match a with
  | Rejected msg => Throw msg
  | Responded r =>
      if ok r then
        match json r with
        | Some body => obind (messagesOf body) (fun messages => Ok (Some messages))
        | None => Throw "SyntaxError"
        end
      else Ok None
  end.

(** An answer that shows [invokeToolRemote] no message of the assistant:
    a status outside 200..299, or a list that holds only messages that
    are not [null] and have another role. *)
Definition toolSilent (a : FetchResult) : bool :=
  match listOf toolMessagesOf a with
  | Ok None => true
  | Ok (Some (Arr msgs)) => forallb no_assistant msgs
  | _ => false
  end.


(** The variable [messages] of [invokeToolRemote] after the answers
    [answers]: the list read from the last of them that has one. *)
Fixpoint lastFetched (messages : value) (answers : list FetchResult) : value :=
  match answers with
  | [] => messages
  | a :: rest =>
      lastFetched (match listOf toolMessagesOf a with
                   | Ok (Some fetched) => fetched
                   | _ => messages
                   end) rest
  end.

(** The result of [invokeToolRemote] made of the pair
    [(responseData, reasoning)]. *)
Definition toolRunOf (threadId : value) (dr : outcome (value * option string))
    : outcome ToolRun :=
  obind dr (fun dr => Ok {| tr_data := fst dr; tr_threadId := threadId;
                            tr_reasoning := snd dr |}).

(** The poll requests of the two orchestrators for a thread. *)
Definition toolPollRequest (threadId : value) : Request :=
  mkRequest (threadMessagesUrl (Some threadId)) None None.



(** The request that submits a tool run, and the one that submits an
    agent run. *)
Definition toolRunRequest (JSON_stringify : value -> string) (toolId : string)
    (parameters : list (string * value)) (agentId : option string) : Request :=
  mkRequest "/v1/orchestrate/runs" (Some "POST")
    (Some (toolRunPayload JSON_stringify toolId parameters agentId)).

Definition agentRunRequest (agentId message : string) : Request :=
  mkRequest "/v1/orchestrate/runs" (Some "POST")
    (Some (Obj [("agent_id", Str agentId);
                ("message", Obj [("role", Str "user"); ("content", Str message)])])).

(** The requests among the events of a log. *)
Definition requestsOf (log : list Event) : list Request :=
  omap (fun e => match e with EvFetch r => Some r | _ => None end) log.

(** The fields the update call may send. *)
Definition editableFields : list string :=
  ["name"; "display_name"; "description"; "permission"; "restrictions"; "tags"].

(** Every required key other than [__proto__] is a key of the
    properties. *)
Definition required_in_properties (acc : ParamAcc) : Prop :=
  ∀ k, k ∈ acc_required acc → k ≠ "__proto__" → k ∈ Obj.keys (acc_properties acc).

(** A payload made of editable fields only. *)
Definition only_editable (payload : list (string * value)) : Prop :=
  ∀ k, k ∈ Obj.keys payload → k ∈ editableFields.

(** The prompt shown when validation reports only the missing version. *)
Definition versionPrompt : string :=
  "OpenAPI validation issues:" +:+ newline +:+ "info.version is recommended"
  +:+ newline +:+ newline +:+ "Continue anyway?".

(** Every key of [props] is the sanitized name of a kept row of [rows]. *)
Definition keys_from_rows (rows : list Row) (props : list (string * value)) : Prop :=
  ∀ key, key ∈ Obj.keys props →
    ∃ row, row ∈ rows ∧ row_deleted row = false
           ∧ key = sanitizeKey (typedName row) ∧ key ≠ "".


(* ===================================================================== *)
(** * Further definitions

    The rest of the modelled code: what the statements about the compiler
    and the decompiler need, the JSON object a typed record stands for, and
    the remaining functions of api/skills.ts, api/agents.ts, api/models.ts,
    api/client.ts, panels/SkillEditorPanel.ts and resources/skillEditor.js
    that are modelled. *)
(* ===================================================================== *)

(** ** Compiler and decompiler *)

(** What the parameter table shows of a parameter: its wire name, its
    location and whether it is required. *)
Definition wireRequired (p : Param) : string * string * bool :=
  (p_name p, paramIn p, p_required p).

(** The keys pushed to [required], one per required parameter in order,
    given the keys used so far. *)
Fixpoint requiredEntries (used : gset string) (ps : list Param) : list string :=
  match ps with
  | [] => []
  | p :: ps' =>
      let k := propKeyFor used p in
      (if p_required p then [k] else []) ++ requiredEntries ({[k]} ∪ used) ps'
  end.

(** The method and the path that [skillToOas] gives the single operation
    of the document. *)
Definition decompiledMethod (skill : BoundTool) : string :=
  Strs.toLowerCase (str_or (bt_binding skill ≫= b_http_method) "GET").

Definition decompiledPath (skill : BoundTool) : string :=
  str_or (bt_binding skill ≫= b_http_path) "/".

(** The server list that [skillToOas] followed by [buildToolSpec] gives a
    binding with the servers [servers]. *)
Definition copiedServers (servers : option (list (option Server))) : list (option Server) :=
  match omap serverUrl (default [] servers) with
  | [] => [Some (ServerString "https://httpbin.org")]
  | urls => map (fun u => Some (ServerString u)) urls
  end.

(** An entry of a derived security array that is complete: a type, and
    non-empty strings for the other two fields. *)
Definition complete_security_entry (e : value) : Prop :=
  (∃ loc name, loc ≠ "" ∧ name ≠ ""
     ∧ e = Obj [("type", Str "apiKey"); ("in", Str loc); ("name", Str name)])
  ∨ (∃ scheme name, scheme ≠ "" ∧ name ≠ ""
       ∧ e = Obj [("type", Str "http"); ("scheme", Str scheme); ("name", Str name)]).

(** The security requirements [deriveBindingSecurity] flattens:
    [op.security ?? openApiSpec.security ?? []] when that is an array. *)
Definition securityRefs (o : OpenApi) (op : Operation) : list value :=
  match nullish (nullish (op_security op) (oas_security o)) (Some (Arr [])) with
  | Some (Arr refs) => refs
  | _ => []
  end.

(** The scheme a requirement refers to: the one declared under its first
    key. *)
Definition referredScheme (o : OpenApi) (ref : value) : option SecurityScheme :=
  match firstKeyOfRef ref with
  | Some name => lookupScheme (default [] (oas_securitySchemes o)) name
  | None => None
  end.

(** A scheme that gives an entry: its type is apiKey or http, or its
    scheme is bearer. *)
Definition gives_entry (sc : SecurityScheme) : bool :=
  bool_decide (ss_type sc = Some "apiKey")
  || bool_decide (ss_type sc = Some "http")
  || bool_decide (ss_scheme sc = Some "bearer").

(** The document says nothing explicit about the security of the binding:
    [x-ibm-security ?? binding.openapi.security] is not a non-empty array. *)
Definition no_explicit_security (o : OpenApi) : Prop :=
  ∀ e es, nullish (oas_x_ibm_security o) (oas_binding_security o) ≠ Some (Arr (e :: es)).


(** ** Content blocks *)

(** A block that is there and whose [type] is not [t]. *)
Definition other_block (t : string) (c : value) : bool :=
  not_null c && negb (is_str (field c "type") t).

(** [r.content ?? r.output ?? r.result ?? r] *)
Definition resultOf (r : value) : value :=
  default Null
    (nullish (field r "content")
       (nullish (field r "output") (nullish (field r "result") (Some r)))).

(** ** Generated documents *)

(** The security array that a generated document compiles to. *)
Definition generatedSecurity (message : GenerateMessage) : list value :=
  let names := Obj.keys (default [] (g_params message)) in
  let apiKeyParam := apiKeyParamOf (g_apiKeyParamName message) in
  if hasApiKeyParamIn names apiKeyParam
  then [Obj [("type", Str "apiKey"); ("in", Str "query");
             ("name", Str (secNameOf names apiKeyParam))]]
  else [].

(* ===================================================================== *)
(** * The JSON object a typed record stands for

    The compiler and the decompiler are modelled on typed records, the
    validator on JSON values.  A record stands for the object that has each
    field that is there under its key; a field that is missing
    ([undefined]) is left out, as [JSON.stringify] leaves it out.  Keys come
    in one fixed order, which is not always that of the object literals of
    the source; nothing that is modelled reads the order of these keys. *)
(* ===================================================================== *)

Definition entry (k : string) (v : option value) : list (string * value) :=
  match v with
  | Some x => [(k, x)]
  | None => []
  end.

Definition jsonOfSchema (s : Schema) : value :=
  Obj (entry "type" (Str <$> s_type s)
       ++ entry "title" (Str <$> s_title s)
       ++ entry "description" (Str <$> s_description s)
       ++ entry "default" (s_default s)
       ++ entry "enum" (s_enum s)).

Definition jsonOfParam (p : Param) : value :=
  Obj ([("name", Str (p_name p))]
       ++ entry "in" (Str <$> p_in p)
       ++ [("required", Bool (p_required p))]
       ++ entry "description" (Str <$> p_description p)
       ++ entry "schema" (jsonOfSchema <$> p_schema p)).

Definition jsonOfResponse (r : Response) : value :=
  Obj (entry "description" (Str <$> r_description r)
       ++ entry "content"
            ((fun fs => Obj [("application/json", Obj [("schema", Obj fs)])])
               <$> r_schema r)).

Definition jsonOfOperation (op : Operation) : value :=
  Obj (entry "operationId" (Str <$> op_operationId op)
       ++ entry "summary" (Str <$> op_summary op)
       ++ entry "parameters" ((fun ps => Arr (map jsonOfParam ps)) <$> op_parameters op)
       ++ entry "security" (op_security op)
       ++ entry "responses" ((fun r => Obj [("200", jsonOfResponse r)]) <$> op_response200 op)).

Definition jsonOfPathItem (item : PathItem) : value :=
  Obj (map (fun mo => (fst mo, jsonOfOperation (snd mo))) item).

Definition jsonOfServer (s : Server) : value :=
  match s with
  | ServerString u => Str u
  | ServerObject u => Obj (entry "url" (Str <$> u))
  end.

Definition jsonOfScheme (sc : SecurityScheme) : value :=
  Obj (entry "type" (Str <$> ss_type sc)
       ++ entry "in" (Str <$> ss_in sc)
       ++ entry "scheme" (Str <$> ss_scheme sc)
       ++ entry "name" (Str <$> ss_name sc)).

Definition jsonOfInfo (i : Info) : value :=
  Obj (entry "title" (Str <$> i_title i)
       ++ entry "version" (Str <$> i_version i)
       ++ entry "description" (Str <$> i_description i)
       ++ entry "x-ibm-skill-name" (Str <$> i_x_ibm_skill_name i)
       ++ entry "x-ibm-skill-id" (Str <$> i_x_ibm_skill_id i)).

(** [binding.openapi] of a document is there when one of the two fields
    read from it is. *)
Definition jsonOfOasBinding (o : OpenApi) : option value :=
  match oas_binding_security o, oas_binding_connection_id o with
  | None, None => None
  | sec, conn =>
      Some (Obj [("openapi",
                  Obj (entry "security" sec ++ entry "connection_id" (Str <$> conn)))])
  end.

Definition jsonOfOpenApi (o : OpenApi) : value :=
  Obj (entry "openapi" (Str <$> oas_openapi o)
       ++ entry "info" (jsonOfInfo <$> oas_info o)
       ++ entry "servers" ((fun ss => Arr (map jsonOfServer ss)) <$> oas_servers o)
       ++ entry "paths"
            ((fun ps => Obj (map (fun kp => (fst kp, jsonOfPathItem (snd kp))) ps))
               <$> oas_paths o)
       ++ entry "components"
            ((fun scs =>
                Obj [("securitySchemes",
                      Obj (map (fun ks => (fst ks, jsonOfScheme (snd ks))) scs))])
               <$> oas_securitySchemes o)
       ++ entry "security" (oas_security o)
       ++ entry "x-ibm-security" (oas_x_ibm_security o)
       ++ entry "x-ibm-connection-id" (Str <$> oas_x_ibm_connection_id o)
       ++ entry "binding" (jsonOfOasBinding o)).

Definition jsonOfPropSchema (ps : PropSchema) : value :=
  Obj (entry "type" (Str <$> ps_type ps)
       ++ entry "title" (Str <$> ps_title ps)
       ++ entry "description" (Str <$> ps_description ps)
       ++ entry "in" (Str <$> ps_in ps)
       ++ entry "default" (ps_default ps)
       ++ entry "aliasName" (Str <$> ps_aliasName ps)
       ++ entry "enum" (ps_enum ps)).

Definition jsonOfInputSchema (s : InputSchema) : value :=
  Obj (entry "type" (Str <$> is_type s)
       ++ entry "properties"
            ((fun ps => Obj (map (fun kp => (fst kp, jsonOfPropSchema (snd kp))) ps))
               <$> is_properties s)
       ++ entry "required" ((fun r => Arr (map Str r)) <$> is_required s)).

(** In a binding a server without URL and a missing connection are [null],
    as [JSON.stringify] writes an [undefined] element of an array and as
    [buildToolSpec] writes a missing connection. *)
Definition jsonOfBinding (b : Binding) : value :=
  Obj [("openapi",
        Obj (entry "http_method" (Str <$> b_http_method b)
             ++ entry "http_path" (Str <$> b_http_path b)
             ++ entry "security" (b_security b)
             ++ entry "servers"
                  ((fun ss => Arr (map (from_option jsonOfServer Null) ss)) <$> b_servers b)
             ++ [("connection_id", from_option Str Null (b_connection_id b))]))].

Definition jsonOfBoundTool (t : BoundTool) : value :=
  Obj (entry "name" (Str <$> bt_name t)
       ++ entry "display_name" (Str <$> bt_display_name t)
       ++ entry "description" (Str <$> bt_description t)
       ++ entry "permission" (Str <$> bt_permission t)
       ++ entry "restrictions" (bt_restrictions t)
       ++ entry "tags" (bt_tags t)
       ++ entry "binding" (jsonOfBinding <$> bt_binding t)
       ++ entry "input_schema" (jsonOfInputSchema <$> bt_input_schema t)
       ++ entry "output_schema" (Obj <$> bt_output_schema t)
       ++ entry "info" ((fun v => Obj [("version", Str v)]) <$> bt_info_version t)).

(* ===================================================================== *)
(** * More of the API clients: api/models.ts, api/agents.ts and
      [deploySkill] of api/skills.ts *)
(* ===================================================================== *)

(** [try { return JSON.parse(text) } catch { return text }] *)
Definition parseOrText (r : HttpResponse) : value :=
  match json r with
  | Some v => v
  | None => Str (text r)
  end.

Definition PREFERRED_DEFAULT_MODEL_ID : string := "groq/openai/gpt-oss-120b".
Definition TEST_AGENT_NAME : string := "WxoBuilderTestAgent".

(** [(a.name || a.display_name) === TEST_AGENT_NAME] *)
Definition isTestAgent (a : value) : outcome bool :=
  obind (fieldE (Some a) "name")
    (fun name => Ok (is_str (or_else name (field a "display_name")) TEST_AGENT_NAME)).

(** The list of agents in the answer of [listAgents]: the answer itself,
    its [assistants] or its [data], whichever is the first to be an
    array. *)
Definition agentsOf (data : value) : list value :=
  match data with
  | Arr items => items
  | _ =>
      match field data "assistants" with
      | Some (Arr items) => items
      | _ =>
          match field data "data" with
          | Some (Arr items) => items
          | _ => []
          end
      end
  end.

(** [created?.data?.id ?? created?.id ?? created] *)
Definition createdAgentId (created : value) : value :=
  default Null
    (nullish (ofield (field created "data") "id")
       (nullish (field created "id") (Some created))).

(** [currentLlm && /^ibm\//.test(currentLlm)] for
    [currentLlm = agent.llm || agent.model_id] *)
Definition needsLlmFix (agent : value) : bool :=
  let currentLlm := or_else (field agent "llm") (field agent "model_id") in
  truthy currentLlm && String.prefix "ibm/" (toString (default Null currentLlm)).

Section Clients.
Variable World : Type.
Variable woFetch : Request -> World -> FetchResult * World.
(** [createOpenApiZip]: the archive, or the error the promise is rejected
    with; and the multipart body made of a file name and an archive (its
    boundary is random and its bytes are not modelled). *)
Variable createOpenApiZip : OpenApi -> World -> outcome value * World.
Variable multipart : string -> value -> value.

Local Notation "'do' x <- m ; k" := (bind World m (fun x => k))
  (at level 10, x name, m at level 100, k at level 200).
Local Notation "m ;; k" := (bind World m (fun _ => k))
  (at level 100, right associativity).

(* ------------------------------------------------------------------- *)
(** ** api/models.ts *)
(* ------------------------------------------------------------------- *)

Definition listModels : M World (list value) :=
  do response <- fetch World woFetch (mkRequest "/v1/models/list" (Some "GET") None);
  if negb (ok response) then
    throw World ("Failed to list models: " +:+ string_of_Z (status response)
                 +:+ " " +:+ text response)
  else
    let data := default (Obj []) (json response) in
    do resources <- lift World (fieldE (Some data) "resources");
    let list :=
      nullish resources
        (nullish (field data "data") (Some (if isArray (Some data) then data else Arr []))) in
    ret World (match list with
               | Some (Arr items) => items
               | _ => []
               end).

Definition getDefaultModelId : M World value :=
  catch World
    (do models <- listModels;
     match models with
     | [] => ret World (Str PREFERRED_DEFAULT_MODEL_ID)
     | first :: _ =>
         do preferred <- lift World (findE (fieldIs "id" PREFERRED_DEFAULT_MODEL_ID) models);
         if truthy preferred then ret World (Str PREFERRED_DEFAULT_MODEL_ID)
         else
           ret World (default Null
                        (nullish (field first "id") (Some (Str PREFERRED_DEFAULT_MODEL_ID))))
     end)
    (fun _ => ret World (Str PREFERRED_DEFAULT_MODEL_ID)).

(* ------------------------------------------------------------------- *)
(** ** api/agents.ts *)
(* ------------------------------------------------------------------- *)

Definition listAgents (limit offset : Z) : M World value :=
  do response <-
    fetch World woFetch
      (mkRequest ("/v1/orchestrate/agents?limit=" +:+ string_of_Z limit
                  +:+ "&offset=" +:+ string_of_Z offset) (Some "GET") None);
  if negb (ok response) then
    throw World ("Failed to list agents: " +:+ string_of_Z (status response)
                 +:+ " " +:+ text response)
  else ret World (parseOrText response).

Definition agentEndpoint (agentId : value) : string :=
  "/v1/orchestrate/agents/" +:+ toString agentId.

Definition updateAgent (agentId : value) (payload : value) : M World value :=
  do response <-
    fetch World woFetch (mkRequest (agentEndpoint agentId) (Some "PATCH") (Some payload));
  if negb (ok response) then
    throw World ("Failed to update agent: " +:+ string_of_Z (status response)
                 +:+ " " +:+ text response)
  else ret World (default success (json response)).

Definition createAgentPayload (name description : string) (modelId : value)
    (instructions : string) : value :=
  Obj [("name", Str name); ("description", Str description);
       ("agent_type", Str "watsonx"); ("llm", modelId);
       ("instructions", Str instructions); ("style", Str "default");
       ("settings", Obj [])].

Definition createAgent (name description : string) (modelId : value)
    (instructions : string) : M World value :=
  do response <-
    fetch World woFetch
      (mkRequest "/v1/orchestrate/agents" (Some "POST")
         (Some (createAgentPayload name description modelId instructions)));
  if negb (ok response) then
    throw World ("Failed to create agent: " +:+ string_of_Z (status response)
                 +:+ " " +:+ text response)
  else ret World (parseOrText response).

Definition testAgentDescription : string :=
  "WxO Builder internal agent for remote tool testing. Do not delete.".
Definition testAgentInstructions : string :=
  "When the user asks you to execute a tool, execute it and return the raw result. Do not add commentary.".

Definition onlyThisTool (toolId : string) : list (string * value) :=
  [("tools", Arr [Str toolId])].

Definition ensureTestAgentForTool (toolId : string) : M World value :=
  do data <- listAgents 100 0;
  do agent <- lift World (findE isTestAgent (agentsOf data));
  match agent with
  | Some agent =>
      let agentId := default Null (or_else (field agent "id") (Some agent)) in
      do updatePayload <-
        (if needsLlmFix agent
         then do llm <- getDefaultModelId;
              ret World (Obj.set (onlyThisTool toolId) "llm" llm)
         else ret World (onlyThisTool toolId));
      updateAgent agentId (Obj updatePayload) ;;
      ret World agentId
  | None =>
      do defaultLlm <- getDefaultModelId;
      do created <-
        createAgent TEST_AGENT_NAME testAgentDescription defaultLlm testAgentInstructions;
      let agentId := createdAgentId created in
      updateAgent agentId (Obj (onlyThisTool toolId)) ;;
      ret World agentId
  end.

(* ------------------------------------------------------------------- *)
(** ** [deploySkill] *)
(* ------------------------------------------------------------------- *)

(** [`${toolId}`] *)
Definition templateOf (v : option value) : string :=
  match v with
  | Some x => toString x
  | None => "undefined"
  end.

Definition createToolRequest (toolSpec : ToolMeta) (openApiSpec : OpenApi) : Request :=
  mkRequest "/v1/orchestrate/tools" (Some "POST")
    (Some (jsonOfBoundTool (buildToolSpec toolSpec openApiSpec))).

Definition uploadRequest (toolId : option value) (zipBuffer : value) : Request :=
  mkRequest ("/v1/orchestrate/tools/" +:+ templateOf toolId +:+ "/upload") (Some "POST")
    (Some (multipart (templateOf toolId +:+ ".zip") zipBuffer)).

(** The second step, whose failure is logged to the console and otherwise
    ignored. *)
Definition uploadArtifact (toolId : option value) (openApiSpec : OpenApi) : M World unit :=
  catch World
    (do zipBuffer <- (fun s => let '(z, w') := createOpenApiZip openApiSpec (fst s) in
                               (z, (w', snd s)));
     do uploadRes <- fetch World woFetch (uploadRequest toolId zipBuffer);
     ret World tt)
    (fun _ => ret World tt).

Definition deploySkill (toolSpec : ToolMeta) (openApiSpec : OpenApi) : M World value :=
  do createRes <- fetch World woFetch (createToolRequest toolSpec openApiSpec);
  if negb (ok createRes) then
    throw World ("Failed to create tool: " +:+ string_of_Z (status createRes)
                 +:+ " " +:+ text createRes)
  else
    match json createRes with
    | None => throw World ("Failed to parse tool response: " +:+ text createRes)
    | Some toolData =>
        do toolId <- lift World (fieldE (Some toolData) "id");
        uploadArtifact toolId openApiSpec ;;
        ret World (Obj ([("success", Bool true)] ++ entry "toolId" toolId))
    end.

End Clients.

(** The requests of these clients. *)
Definition modelsRequest : Request := mkRequest "/v1/models/list" (Some "GET") None.

Definition listAgentsRequest (limit offset : Z) : Request :=
  mkRequest ("/v1/orchestrate/agents?limit=" +:+ string_of_Z limit
             +:+ "&offset=" +:+ string_of_Z offset) (Some "GET") None.

Definition updateAgentRequest (agentId payload : value) : Request :=
  mkRequest (agentEndpoint agentId) (Some "PATCH") (Some payload).

Definition createTestAgentRequest (modelId : value) : Request :=
  mkRequest "/v1/orchestrate/agents" (Some "POST")
    (Some (createAgentPayload TEST_AGENT_NAME testAgentDescription modelId
             testAgentInstructions)).

(** The models in the answer to [modelsRequest], when the answer lists
    any: [data.resources ?? data.data ?? data], if that is an array. *)
Definition listedModels (r : HttpResponse) : list value :=
  let data := default (Obj []) (json r) in
  match nullish (field data "resources")
          (nullish (field data "data") (Some (if isArray (Some data) then data else Arr [])))
  with
  | Some (Arr items) => items
  | _ => []
  end.

(** No model of the list has the identifier [id]. *)
Definition without_model (id : string) (models : list value) : bool :=
  forallb (fun m => not_null m && negb (is_str (field m "id") id)) models.

(* ===================================================================== *)
(** * Escaping of HTML text *)
(* ===================================================================== *)

(** [s.replace(/c/g, by)] for one character [c] *)
Fixpoint replaceAll (c : ascii) (by_ : string) (s : string) : string :=
  match s with
  | EmptyString => EmptyString
  | String a rest =>
      if Ascii.eqb a c then by_ +:+ replaceAll c by_ rest
      else String a (replaceAll c by_ rest)
  end.

(** The double quote. *)
Definition quoteChar : ascii := ascii_of_nat 34.

(** panels/SkillEditorPanel.ts *)
Definition escapeHtml (str : string) : string :=
  replaceAll quoteChar "&quot;"
    (replaceAll ">" "&gt;"
       (replaceAll "<" "&lt;"
          (replaceAll "&" "&amp;" str))).

(** resources/skillEditor.js *)
Definition escapeAttr (v : option value) : string :=
  match v with
  | None | Some Null => ""
  | Some x =>
      let s := toString x in
      replaceAll ">" "&gt;"
        (replaceAll "<" "&lt;"
           (replaceAll quoteChar "&quot;"
              (replaceAll "&" "&amp;" s)))
  end.

(** The characters that have an entity, and the text in which each of them
    is replaced by its entity. *)
Definition entity (c : ascii) : string :=
  if Ascii.eqb c "&" then "&amp;"
  else if Ascii.eqb c "<" then "&lt;"
  else if Ascii.eqb c ">" then "&gt;"
  else if Ascii.eqb c quoteChar then "&quot;"
  else String c EmptyString.

Fixpoint entities (s : string) : string :=
  match s with
  | EmptyString => EmptyString
  | String a rest => entity a +:+ entities rest
  end.

Definition markup (c : ascii) : bool :=
  Ascii.eqb c "<" || Ascii.eqb c ">" || Ascii.eqb c quoteChar.

(* ===================================================================== *)
(** * The URL of a request (api/client.ts, [woFetch]) *)
(* ===================================================================== *)

(** [s.endsWith(c)] for one character [c] *)
Fixpoint endsWith (s : string) (c : ascii) : bool :=
  match s with
  | EmptyString => false
  | String a EmptyString => Ascii.eqb a c
  | String _ rest => endsWith rest c
  end.

(** [s.slice(0, -1)] *)
Fixpoint dropLast (s : string) : string :=
  match s with
  | EmptyString => EmptyString
  | String _ EmptyString => EmptyString
  | String a rest => String a (dropLast rest)
  end.

Definition requestUrl (instanceUrl endpoint : string) : string :=
  if String.prefix "http" endpoint then endpoint
  else
    let baseUrl :=
      if endsWith instanceUrl "/" then dropLast instanceUrl else instanceUrl in
    let apiPath :=
      if String.prefix "/" endpoint then endpoint else "/" +:+ endpoint in
    baseUrl +:+ apiPath.

(* ===================================================================== *)
(** * The connections offered for a new tool (panels/SkillEditorPanel.ts) *)
(* ===================================================================== *)

Definition apiKeyInQuery : value :=
  Obj [("type", Str "apiKey"); ("in", Str "query"); ("name", Str "apiKey")].

Definition bearerAuthorization : value :=
  Obj [("type", Str "http"); ("scheme", Str "bearer"); ("name", Str "Authorization")].

Definition connectionToSecurity (app : option value) : outcome (list value) :=
  let scheme := ofield app "security_scheme" in
  match scheme with
  | Some (Arr (first :: rest)) => Ok (first :: rest)
  | _ =>
      if truthy scheme && typeof_is_object scheme && truthy (ofield scheme "type")
      then Ok [default Null scheme]
      else
        match or_else (ofield app "auth_type") (Some (Str "")) with
        | Some (Str a) =>
            let auth := Strs.toLowerCase a in
            if String.eqb auth "api_key" || String.eqb auth "apikey"
               || String.eqb auth "api-key"
            then Ok [apiKeyInQuery]
            else if String.eqb auth "bearer" || String.eqb auth "oauth2"
            then Ok [bearerAuthorization]
            else Ok [apiKeyInQuery]
        | _ => TypeError
        end
  end.

(** [a.connection_id || a.app_id], the predicate of the [filter] *)
Definition hasIdentifier (a : value) : outcome bool :=
  obind (fieldE (Some a) "connection_id")
    (fun connection_id => Ok (truthy (or_else connection_id (field a "app_id")))).

Definition offeredConnection (a : value) : outcome value :=
  obind (connectionToSecurity (Some a)) (fun security =>
    Ok (Obj [("connection_id",
              default Null (or_else (field a "connection_id") (field a "app_id")));
             ("app_id",
              default Null
                (or_else (field a "app_id")
                   (or_else (field a "connection_id") (Some (Str "Unknown")))));
             ("security", Arr security)])).

(** The connections that [_loadData] hands to the page of a new tool, from
    the answer of [listConnections]; whatever is thrown on the way leaves
    the list empty. *)
Definition offeredConnections (connData : option value) : list value :=
  let apps :=
    nullish (ofield connData "applications")
      (Some (if isArray connData then default Null connData else Arr [])) in
  match apps with
  | Some (Arr items) =>
      match obind (filterE hasIdentifier items) (mapE offeredConnection) with
      | Ok connections => connections
      | Throw _ => []
      end
  | _ => []
  end.

(** ** More concrete documents *)

Module Samples.
(** A bound record with a method and the path [/items]. *)
Definition skillWith (method : string) : BoundTool :=
  mkBoundTool (Some "list_items") None None None None None
    (Some (mkBinding (Some method) (Some "/items") None None None))
    None None None.

(** A bound record with an API key, a connection and two servers, one of
    them without a URL. *)
Definition apiKeyEntry : value :=
  Obj [("type", Str "apiKey"); ("in", Str "query"); ("name", Str "key")].

Definition connectedSkill : BoundTool :=
  mkBoundTool (Some "get_weather") (Some "Weather") None None None None
    (Some (mkBinding (Some "GET") (Some "/current.json")
             (Some (Arr [apiKeyEntry]))
             (Some [Some (ServerString "https://api.weatherapi.com/v1"); None])
             (Some "conn-1")))
    None None None.
(** A document whose only statement about security is the scheme
    [ApiKeyAuth], referred to by the document-level security array. *)
Definition schemeDocument : OpenApi :=
  mkOpenApi (Some "3.0.1") None None
    (Some [("/current.json", [("get", Examples.operation [])])])
    (Some [("ApiKeyAuth", mkSecurityScheme (Some "apiKey") (Some "query") None (Some "key"))])
    (Some (Arr [Obj [("ApiKeyAuth", Arr [])]]))
    None None None None.

(** A document whose only scheme is of type oauth2; its security array
    also refers to a scheme that is not declared. *)
Definition oauthDocument : OpenApi :=
  mkOpenApi (Some "3.0.1") None None
    (Some [("/current.json", [("get", Examples.operation [])])])
    (Some [("OAuth", mkSecurityScheme (Some "oauth2") None None None)])
    (Some (Arr [Obj [("OAuth", Arr [])]; Obj [("Missing", Arr [])]]))
    None None None None.

(** A document whose first path declares only [head]; the second path
    declares [get]. *)
Definition headFirst : OpenApi :=
  mkOpenApi (Some "3.0.1") None None
    (Some [("/status", [("head", Examples.operation [])]);
           ("/current.json", [("get", Examples.operation [Examples.param "q" "query" true])])])
    None None None None None None.
End Samples.

Module Samples2.
(** A bound record, as the editor holds it, with a field of
    [input_schema] that the parameter table does not show. *)
Definition boundDocument : list (string * value) :=
  [("name", Str "list_items");
   ("input_schema",
    Obj [("type", Str "object"); ("additionalProperties", Bool false);
         ("properties", Obj [])])].
End Samples2.

Module Samples3.
(** A remote service that answers every request with status 200 and the
    same JSON body. *)
Definition acceptingService (body : value) : Request -> unit -> FetchResult * unit :=
  fun _ w => (Responded (mkHttpResponse 200 "{}" (Some body)), w).
End Samples3.

Module Samples4.
(** The content of an answer of the assistant: a text, the use of a tool
    and the result of the tool. *)
Definition textBlock : value :=
  Obj [("type", Str "text"); ("text", Str "It is 22 C in Toronto.")].

Definition toolUse : value :=
  Obj [("type", Str "tool_use"); ("name", Str "get_weather");
       ("input", Obj [("q", Str "Toronto")])].

Definition toolResult : value :=
  Obj [("type", Str "tool_result"); ("content", Str "22 C")].

Definition blocks : list value := [textBlock; toolUse; toolResult].
End Samples4.

(* ===================================================================== *)
(** * Properties *)
(* ===================================================================== *)

(** ** Strings *)

Lemma length_append (a b : string) :
  String.length (a +:+ b) = (String.length a + String.length b)%nat.
Proof. induction a as [|c a IH]; simpl; [reflexivity | rewrite IH; reflexivity]. Qed.

Lemma prefixed_key_differs (loc name : string) : loc +:+ "_" +:+ name ≠ name.
Proof.
  intros H. apply (f_equal String.length) in H.
  rewrite !length_append in H. simpl in H. lia.
Qed.

(** ** Objects *)

Section ObjFacts.
Context {A : Type}.
Implicit Types (o : list (string * A)) (k : string) (v : A).

Lemma get_None_iff o k : Obj.get o k = None ↔ k ∉ Obj.keys o.
Proof.
  induction o as [|[k' v'] o IH]; simpl.
  - split; [intros _; apply not_elem_of_nil | reflexivity].
  - destruct (String.eqb_spec k' k) as [->|Hne].
    + split; [discriminate | intros H; exfalso; apply H; left].
    + rewrite IH. unfold Obj.keys. simpl. rewrite not_elem_of_cons.
      split; [intros H; split; [congruence | exact H] | intros [_ H]; exact H].
Qed.

Lemma set_fresh o k v : k ∉ Obj.keys o → Obj.set o k v = o ++ [(k, v)].
Proof.
  induction o as [|[k' v'] o IH]; simpl; intros Hk; [reflexivity|].
  unfold Obj.keys in Hk. simpl in Hk. apply not_elem_of_cons in Hk as [Hne Hk].
  destruct (String.eqb_spec k' k) as [->|_]; [congruence|].
  now rewrite IH.
Qed.

Lemma keys_set o k v k' :
  k' ∈ Obj.keys (Obj.set o k v) ↔ k' = k ∨ k' ∈ Obj.keys o.
Proof.
  induction o as [|[k0 v0] o IH]; simpl.
  - unfold Obj.keys; simpl. rewrite list_elem_of_singleton.
    split; [auto | intros [?|H]; [assumption | inversion H]].
  - destruct (String.eqb_spec k0 k) as [->|Hne]; unfold Obj.keys in *; simpl.
    + rewrite !elem_of_cons. tauto.
    + rewrite !elem_of_cons, IH. tauto.
Qed.

Lemma get_set_eq o k v : Obj.get (Obj.set o k v) k = Some v.
Proof.
  induction o as [|[k0 v0] o IH]; simpl.
  - now rewrite String.eqb_refl.
  - destruct (String.eqb_spec k0 k) as [->|Hne]; simpl.
    + now rewrite String.eqb_refl.
    + apply String.eqb_neq in Hne. now rewrite Hne.
Qed.

Lemma get_set_ne o k v k' : k ≠ k' → Obj.get (Obj.set o k v) k' = Obj.get o k'.
Proof.
  intros Hne. induction o as [|[k0 v0] o IH]; simpl.
  - apply String.eqb_neq in Hne. now rewrite Hne.
  - destruct (String.eqb_spec k0 k) as [->|Hk]; simpl.
    + apply String.eqb_neq in Hne. now rewrite Hne.
    + now rewrite IH.
Qed.

(** Assignment never removes a key and never duplicates one. *)
Lemma keys_set_NoDup o k v : NoDup (Obj.keys o) → NoDup (Obj.keys (Obj.set o k v)).
Proof.
  induction o as [|[k0 v0] o IH]; simpl; intros Hnd.
  - unfold Obj.keys; simpl. apply NoDup_singleton.
  - unfold Obj.keys in *; simpl in *. apply NoDup_cons in Hnd as [Hk0 Hnd].
    destruct (String.eqb_spec k0 k) as [->|Hne]; simpl.
    + apply NoDup_cons; auto.
    + apply NoDup_cons; split; [|auto].
      intros Hin. apply (keys_set o k v k0) in Hin as [->|Hin]; [congruence | contradiction].
Qed.

(** *** Assignment with a key of the input *)

Lemma assign_plain o k v : plain_key k = true → assignProperty o k v = Obj.set o k v.
Proof.
  unfold plain_key, is_array_index, assignProperty.
  intros H. apply andb_true_iff in H as [Hp Hi].
  apply negb_true_iff in Hp. rewrite Hp.
  destruct (array_index k); [discriminate | reflexivity].
Qed.

Lemma assign_proto o v : assignProperty o "__proto__" v = o.
Proof. reflexivity. Qed.

Lemma elem_of_insert_index o i k v e :
  e ∈ insert_index o i k v ↔ e = (k, v) ∨ e ∈ o.
Proof.
  induction o as [|[k0 v0] o IH]; cbn [insert_index].
  - rewrite list_elem_of_singleton. split; [auto | intros [?|H]; [assumption | inversion H]].
  - destruct (array_index k0) as [j|]; [destruct (j <? i)%N|];
      rewrite ?elem_of_cons, ?IH, ?elem_of_cons; tauto.
Qed.

Lemma elem_of_set o k v e : e ∈ Obj.set o k v → e = (k, v) ∨ e ∈ o.
Proof.
  induction o as [|[k0 v0] o IH]; cbn [Obj.set].
  - rewrite list_elem_of_singleton. auto.
  - destruct (String.eqb k0 k); rewrite !elem_of_cons; [tauto|].
    intros [->|H]; [auto | destruct (IH H); auto].
Qed.

(** An assignment adds at most the entry assigned. *)
Lemma elem_of_assign o k v e : e ∈ assignProperty o k v → e = (k, v) ∨ e ∈ o.
Proof.
  unfold assignProperty. destruct (String.eqb k "__proto__"); [auto|].
  destruct (array_index k) as [i|]; [destruct (Obj.has o k)|];
    try apply elem_of_set.
  apply elem_of_insert_index.
Qed.

Lemma keys_insert_index o i k v k' :
  k' ∈ Obj.keys (insert_index o i k v) ↔ k' = k ∨ k' ∈ Obj.keys o.
Proof.
  induction o as [|[k0 v0] o IH]; cbn [insert_index].
  - unfold Obj.keys; simpl. rewrite list_elem_of_singleton.
    split; [auto | intros [?|H]; [assumption | inversion H]].
  - destruct (array_index k0) as [j|]; [destruct (j <? i)%N|];
      unfold Obj.keys in *; cbn [map fst]; rewrite ?elem_of_cons, ?IH, ?elem_of_cons;
      cbn [map fst]; rewrite ?elem_of_cons; tauto.
Qed.

Lemma get_insert_index o i k v k' :
  Obj.get o k = None →
  Obj.get (insert_index o i k v) k' = if String.eqb k k' then Some v else Obj.get o k'.
Proof.
  induction o as [|[k0 v0] o IH]; cbn [insert_index Obj.get]; [reflexivity|].
  destruct (String.eqb_spec k0 k) as [->|Hne]; [discriminate|]. intros Hk.
  destruct (array_index k0) as [j|]; [destruct (j <? i)%N|]; cbn [Obj.get]; try reflexivity.
  rewrite (IH Hk).
  destruct (String.eqb_spec k0 k') as [->|Hne']; [|reflexivity].
  apply String.eqb_neq in Hne. rewrite String.eqb_sym in Hne. now rewrite Hne.
Qed.

(** Reading after an assignment. *)
Lemma get_assign o k v k' :
  Obj.get (assignProperty o k v) k'
  = if String.eqb k "__proto__" then Obj.get o k'
    else if String.eqb k k' then Some v else Obj.get o k'.
Proof.
  unfold assignProperty. destruct (String.eqb k "__proto__"); [reflexivity|].
  assert (Hset : Obj.get (Obj.set o k v) k'
                 = if String.eqb k k' then Some v else Obj.get o k').
  { destruct (String.eqb_spec k k') as [<-|Hne];
      [apply get_set_eq | now apply get_set_ne]. }
  destruct (array_index k) as [i|]; [|exact Hset].
  unfold Obj.has. destruct (Obj.get o k) eqn:Hk; [exact Hset|].
  now apply get_insert_index.
Qed.

(** The keys after an assignment: those before it, and the key assigned
    unless it is [__proto__]. *)
Lemma keys_assign o k v k' :
  k' ∈ Obj.keys (assignProperty o k v)
  ↔ (k' = k ∧ k ≠ "__proto__") ∨ k' ∈ Obj.keys o.
Proof.
  unfold assignProperty. destruct (String.eqb_spec k "__proto__") as [->|Hne].
  - split; [auto | intros [[_ H]|H]; [congruence | exact H]].
  - destruct (array_index k) as [i|]; [destruct (Obj.has o k)|];
      rewrite ?keys_set, ?keys_insert_index; tauto.
Qed.
End ObjFacts.

(** ** The compiler: keys, required, properties *)

Lemma paramIn_nonempty p : paramIn p ≠ "".
Proof.
  unfold paramIn, str_or. destruct (p_in p) as [s|]; [|discriminate].
  destruct (String.eqb_spec s ""); [discriminate | assumption].
Qed.

Lemma str_or_paramIn p : str_or (Some (paramIn p)) "query" = paramIn p.
Proof.
  unfold str_or at 1. pose proof (paramIn_nonempty p) as H.
  apply String.eqb_neq in H. now rewrite H.
Qed.

(** The key chosen for a parameter is a key of the properties after the
    parameter has been added, unless it is [__proto__]. *)
Lemma addParameter_key acc p :
  propKeyFor (acc_usedKeys acc) p ≠ "__proto__" →
  propKeyFor (acc_usedKeys acc) p ∈ Obj.keys (acc_properties (addParameter acc p)).
Proof. intros H. unfold addParameter; simpl. apply keys_assign. now left. Qed.

Lemma addParameter_keeps_keys acc p k :
  k ∈ Obj.keys (acc_properties acc) → k ∈ Obj.keys (acc_properties (addParameter acc p)).
Proof. intros H. unfold addParameter; simpl. apply keys_assign. now right. Qed.

Lemma addParameter_required acc p :
  required_in_properties acc → required_in_properties (addParameter acc p).
Proof.
  intros Hinv k Hk Hproto.
  destruct (p_required p) eqn:Hreq.
  - unfold addParameter in Hk; simpl in Hk. rewrite Hreq in Hk.
    apply elem_of_app in Hk as [Hk|Hk].
    + apply addParameter_keeps_keys. auto.
    + apply list_elem_of_singleton in Hk as ->. now apply addParameter_key.
  - unfold addParameter in Hk; simpl in Hk. rewrite Hreq in Hk.
    apply addParameter_keeps_keys. auto.
Qed.

Lemma fold_addParameter_required ps acc :
  required_in_properties acc → required_in_properties (fold_left addParameter ps acc).
Proof.
  revert acc. induction ps as [|p ps IH]; simpl; intros acc Hinv; [assumption|].
  apply IH. now apply addParameter_required.
Qed.

Lemma collectParameters_required ps : required_in_properties (collectParameters ps).
Proof.
  apply fold_addParameter_required. intros k Hk. inversion Hk.
Qed.

Lemma buildToolSpec_input_schema toolSpec openApiSpec sch :
  bt_input_schema (buildToolSpec toolSpec openApiSpec) = Some sch →
  ∃ op, sch = buildInputSchema op.
Proof.
  unfold buildToolSpec.
  destruct (oas_paths openApiSpec) as [[|[pathKey pathObj] rest]|]; simpl; try discriminate.
  destruct (firstOperation pathObj) as [[m op]|]; simpl; try discriminate.
  intros [= <-]. now exists op.
Qed.

(** Where the claim of C10 does hold: in every bound-tool record the
    compiler produces, each element of [input_schema.required] other than
    [__proto__] is a key of [input_schema.properties]; and the entry
    pushed for a required parameter whose name is already in use is the
    prefixed key [in_name], which differs from the wire name and, unless
    it is [__proto__], is a key of the properties. *)
Theorem required_keys_are_property_keys :
  (∀ toolSpec openApiSpec sch k,
      bt_input_schema (buildToolSpec toolSpec openApiSpec) = Some sch →
      k ∈ default [] (is_required sch) →
      k ≠ "__proto__" →
      k ∈ Obj.keys (default [] (is_properties sch)))
  ∧ (∀ acc p,
        p_name p ∈ acc_usedKeys acc →
        p_required p = true →
        let key := paramIn p +:+ "_" +:+ p_name p in
        acc_required (addParameter acc p) = acc_required acc ++ [key]
        ∧ key ≠ p_name p
        ∧ (key ≠ "__proto__" → key ∈ Obj.keys (acc_properties (addParameter acc p)))).
Proof.
  split.
  - intros toolSpec openApiSpec sch k Hsch Hk Hproto.
    apply buildToolSpec_input_schema in Hsch as [op ->].
    unfold buildInputSchema in *; simpl in *.
    apply collectParameters_required; [|exact Hproto].
    destruct (acc_required (collectParameters (default [] (op_parameters op))));
      simpl in Hk; [inversion Hk | assumption].
  - intros acc p Hused Hreq key.
    assert (Hkey : propKeyFor (acc_usedKeys acc) p = key).
    { unfold propKeyFor. now rewrite bool_decide_eq_true_2. }
    split; [|split].
    + unfold addParameter; simpl. now rewrite Hreq, Hkey.
    + apply prefixed_key_differs.
    + intros Hproto. rewrite <- Hkey. apply addParameter_key. now rewrite Hkey.
Qed.

Lemma required_keys_are_property_keys_witness :
  "path_id" ∈ Obj.keys
    (default [] (is_properties
       (buildInputSchema (Examples.operation Examples.idTwice))))
  ∧ acc_required
      (addParameter (addParameter emptyAcc (Examples.param "id" "query" false))
         (Examples.param "id" "path" true)) = ["path_id"].
Proof.
  split.
  - apply (proj1 required_keys_are_property_keys Examples.weatherMeta
             (Examples.document [("get", Examples.operation Examples.idTwice)])
             (buildInputSchema (Examples.operation Examples.idTwice)) "path_id").
    + reflexivity.
    + vm_compute. apply list_elem_of_singleton. reflexivity.
    + discriminate.
  - apply (proj2 required_keys_are_property_keys
             (addParameter emptyAcc (Examples.param "id" "query" false))
             (Examples.param "id" "path" true)).
    + vm_compute. set_solver.
    + reflexivity.
Defined.

(** C10 (failing input).  An operation with the required parameters [q]
    and [__proto__]: the assignment [properties["__proto__"] = propSchema]
    makes no property, so the compiled record requires [__proto__] and
    has the property [q] alone. *)
Theorem C10_required_proto_has_no_property :
  let oas := Examples.document [("get", Examples.operation Examples.protoRequired)] in
  ∃ sch,
    bt_input_schema (buildToolSpec Examples.weatherMeta oas) = Some sch
    ∧ is_required sch = Some ["q"; "__proto__"]
    ∧ Obj.keys (default [] (is_properties sch)) = ["q"]
    ∧ "__proto__" ∉ Obj.keys (default [] (is_properties sch)).
Proof.
  intros oas. eexists. split; [vm_compute; reflexivity|].
  split; [reflexivity|]. split; [reflexivity|].
  cbn. rewrite not_elem_of_cons. split; [discriminate | apply not_elem_of_nil].
Qed.

(** ** Compile, then decompile *)

Lemma firstOperation_Some pathObj m op :
  firstOperation pathObj = Some (m, op) →
  m ∈ methods ∧ Obj.get pathObj m = Some op.
Proof.
  unfold firstOperation.
  destruct (list_find _ methods) as [[i m']|] eqn:Hfind; simpl; [|discriminate].
  apply list_find_Some in Hfind as (Hi & _ & _).
  destruct (Obj.get pathObj m') as [op'|] eqn:Hget; simpl; [|discriminate].
  intros [= <- <-]. split; [|assumption].
  apply list_elem_of_lookup. now exists i.
Qed.

Lemma firstOperation_intro pathObj i m op :
  methods !! i = Some m →
  Obj.get pathObj m = Some op →
  (∀ j m', (j < i)%nat → methods !! j = Some m' → Obj.get pathObj m' = None) →
  firstOperation pathObj = Some (m, op).
Proof.
  intros Hi Hget Hbefore. unfold firstOperation.
  assert (Hfind : list_find (λ m0, is_Some (Obj.get pathObj m0)) methods = Some (i, m)).
  { apply list_find_Some. split; [assumption|]. split; [rewrite Hget; eauto|].
    intros j y Hj Hlt [x Hx]. rewrite (Hbefore j y Hlt Hj) in Hx. discriminate. }
  rewrite Hfind. simpl. rewrite Hget. reflexivity.
Qed.

Lemma lower_upper_method m : m ∈ methods → Strs.toLowerCase (Strs.toUpperCase m) = m.
Proof.
  unfold methods. rewrite !elem_of_cons.
  intros [->|[->|[->|[->|[->|H]]]]]; try reflexivity. inversion H.
Qed.

Lemma firstOperation_single m op : m ∈ methods → firstOperation [(m, op)] = Some (m, op).
Proof.
  unfold methods. rewrite !elem_of_cons.
  intros [->|[->|[->|[->|[->|H]]]]]; try reflexivity. inversion H.
Qed.

Lemma upper_method_nonempty m : m ∈ methods → Strs.toUpperCase m ≠ "".
Proof.
  unfold methods. rewrite !elem_of_cons.
  intros [->|[->|[->|[->|[->|H]]]]]; try discriminate. inversion H.
Qed.

(** The decompiled document has one path with one method, and that method
    is found again when the document is compiled. *)
Lemma operationParameters_roundtrip toolSpec oas :
  operationParameters (skillToOas (buildToolSpec toolSpec oas))
  = skillParams (bt_input_schema (buildToolSpec toolSpec oas)).
Proof.
  unfold buildToolSpec.
  destruct (oas_paths oas) as [[|[pathKey pathObj] rest]|]; try reflexivity.
  destruct (firstOperation pathObj) as [[m op]|] eqn:Hop; try reflexivity.
  apply firstOperation_Some in Hop as [Hm _].
  unfold operationParameters, compiledOperation, skillToOas. simpl.
  pose proof (upper_method_nonempty m Hm) as Hne.
  apply String.eqb_neq in Hne. rewrite Hne.
  rewrite (lower_upper_method m Hm), (firstOperation_single _ _ Hm). reflexivity.
Qed.

Lemma wire_paramOfProperty sch k p :
  wire (paramOfProperty sch (k, propSchemaFor k p)) = wire p.
Proof.
  unfold wire. f_equal.
  - cbn. case_bool_decide; simpl; congruence.
  - change (paramIn (paramOfProperty sch (k, propSchemaFor k p)))
      with (str_or (Some (str_or (Some (paramIn p)) "query")) "query").
    now rewrite !str_or_paramIn.
Qed.

Lemma wire_propEntries sch used ps :
  map wire (map (paramOfProperty sch) (propEntries used ps)) = map wire ps.
Proof.
  revert used. induction ps as [|p ps IH]; intros used; simpl; [reflexivity|].
  rewrite IH. f_equal.
  apply (wire_paramOfProperty sch (propKeyFor used p) p).
Qed.

(** While no chosen key repeats, and none is [__proto__] or an array
    index, the properties are exactly the entries asked for, in order. *)
Lemma fold_addParameter_fresh ps acc :
  acc_usedKeys acc = list_to_set (Obj.keys (acc_properties acc)) →
  NoDup (Obj.keys (acc_properties acc) ++ map fst (propEntries (acc_usedKeys acc) ps)) →
  forallb plain_key (map fst (propEntries (acc_usedKeys acc) ps)) = true →
  acc_properties (fold_left addParameter ps acc)
  = acc_properties acc ++ propEntries (acc_usedKeys acc) ps.
Proof.
  revert acc. induction ps as [|p ps IH]; intros acc Hused Hnd Hplain.
  - cbn [fold_left propEntries]. now rewrite app_nil_r.
  - cbn [fold_left propEntries map fst forallb] in *.
    set (k := propKeyFor (acc_usedKeys acc) p) in *.
    apply andb_true_iff in Hplain as [Hk Hplain].
    assert (Hfresh : k ∉ Obj.keys (acc_properties acc)).
    { apply NoDup_app in Hnd as (_ & Hdisj & _). intros Hin.
      apply (Hdisj _ Hin). left. }
    assert (Hprops : acc_properties (addParameter acc p)
                     = acc_properties acc ++ [(k, propSchemaFor k p)]).
    { unfold addParameter. cbn [acc_properties]. fold k.
      rewrite (assign_plain _ _ _ Hk). now apply set_fresh. }
    assert (Hkeys : acc_usedKeys (addParameter acc p) = {[k]} ∪ acc_usedKeys acc)
      by reflexivity.
    rewrite IH.
    + rewrite Hprops, Hkeys, <- app_assoc. reflexivity.
    + rewrite Hprops, Hkeys, Hused. unfold Obj.keys.
      rewrite map_app, list_to_set_app_L. cbn [map fst list_to_set].
      rewrite (right_id_L ∅ (∪)). apply (comm_L (∪)).
    + rewrite Hprops, Hkeys. unfold Obj.keys in *.
      rewrite map_app, <- app_assoc. exact Hnd.
    + rewrite Hkeys. exact Hplain.
Qed.

(** Where the claim of C1 does hold: when the keys chosen for the
    parameters are pairwise distinct, and none of them is [__proto__] or
    an array index, compiling and decompiling gives back every parameter,
    in order, with its wire name and its location. *)
Theorem roundtrip_wires_when_keys_distinct toolSpec oas :
  NoDup (map fst (propEntries ∅ (operationParameters oas))) →
  forallb plain_key (map fst (propEntries ∅ (operationParameters oas))) = true →
  map wire (operationParameters (skillToOas (buildToolSpec toolSpec oas)))
  = map wire (operationParameters oas).
Proof.
  intros Hnd Hplain. rewrite operationParameters_roundtrip.
  unfold operationParameters, compiledOperation, buildToolSpec in *.
  destruct (oas_paths oas) as [[|[pathKey pathObj] rest]|]; try reflexivity.
  destruct (firstOperation pathObj) as [[m op]|] eqn:Hop; try reflexivity.
  simpl in *. unfold collectParameters.
  rewrite (fold_addParameter_fresh (default [] (op_parameters op)) emptyAcc);
    [| reflexivity | exact Hnd | exact Hplain].
  simpl. apply wire_propEntries.
Qed.

Lemma roundtrip_wires_witness :
  map wire (operationParameters
              (skillToOas (buildToolSpec Examples.weatherMeta
                 (Examples.document [("get", Examples.operation Examples.idTwice)]))))
  = [("id", "query"); ("id", "path")].
Proof.
  apply (roundtrip_wires_when_keys_distinct Examples.weatherMeta
           (Examples.document [("get", Examples.operation Examples.idTwice)])).
  - apply (bool_decide_unpack _). vm_compute. exact I.
  - reflexivity.
Defined.

(** C1 (failing input).  An operation with the parameters [query_x] in
    header, [query_x] in path, [x] in path and [x] in query: the alias
    key of the last one, [query_x], is the key of the first, whose entry
    it overwrites.  After compiling and decompiling, the header parameter
    [query_x] is gone and three parameters are left of four. *)
Theorem C1_alias_key_overwrites_parameter :
  let oas := Examples.document [("get", Examples.operation Examples.aliasClash)] in
  let back := skillToOas (buildToolSpec Examples.weatherMeta oas) in
  map wire (operationParameters oas)
  = [("query_x", "header"); ("query_x", "path"); ("x", "path"); ("x", "query")]
  ∧ map wire (operationParameters back)
    = [("x", "query"); ("query_x", "path"); ("x", "path")]
  ∧ ("query_x", "header") ∉ map wire (operationParameters back).
Proof.
  intros oas back.
  assert (Hback : map wire (operationParameters back)
                  = [("x", "query"); ("query_x", "path"); ("x", "path")])
    by (vm_compute; reflexivity).
  split; [vm_compute; reflexivity|]. split; [exact Hback|].
  rewrite Hback, !not_elem_of_cons. repeat split; try discriminate.
  apply not_elem_of_nil.
Qed.

(** ** The scope of the compiler *)

Lemma buildToolSpec_with_paths toolSpec oas pathKey pathObj m op :
  firstOperation pathObj = Some (m, op) →
  ∀ others,
    oas_paths oas = Some ((pathKey, pathObj) :: others) →
    buildToolSpec toolSpec oas
    = buildToolSpec toolSpec (with_paths oas (Some [(pathKey, [(m, op)])])).
Proof.
  intros Hop others Hpaths.
  pose proof (firstOperation_Some _ _ _ Hop) as [Hm _].
  unfold buildToolSpec. rewrite Hpaths. simpl.
  rewrite Hop, (firstOperation_single _ _ Hm). reflexivity.
Qed.

(** C2 (counterexample).  A path item that declares [post] first and [get]
    second: the compiled operation is [get], not the first declared one. *)
Lemma C2_first_declared_method_is_not_compiled :
  let spec := buildToolSpec Examples.weatherMeta (Examples.document Examples.postThenGet) in
  head (Obj.keys Examples.postThenGet) = Some "post"
  ∧ http_method_of spec = Some "GET"
  ∧ http_method_of spec ≠ Some "POST"
  ∧ required_of spec = Some ["q"].
Proof. vm_compute. repeat split. discriminate. Qed.

(** C2 (amended).  The scenario compiles as stated.  Only the first
    declared path is compiled, and within it the first method, in the
    fixed order get, post, put, patch, delete, that the path declares;
    every other path and method is ignored. *)
Theorem C2_compile_scenario_and_scope :
  (let spec := buildToolSpec Examples.weatherMeta Examples.weatherOas in
   http_method_of spec = Some "GET"
   ∧ http_path_of spec = Some "/current.json"
   ∧ (property_of spec "q" ≫= ps_in) = Some "query"
   ∧ required_of spec = Some ["q"])
  ∧ (∀ toolSpec oas pathKey pathObj others i m op,
        oas_paths oas = Some ((pathKey, pathObj) :: others) →
        methods !! i = Some m →
        Obj.get pathObj m = Some op →
        (∀ j m', (j < i)%nat → methods !! j = Some m' → Obj.get pathObj m' = None) →
        buildToolSpec toolSpec oas
        = buildToolSpec toolSpec (with_paths oas (Some [(pathKey, [(m, op)])]))
        ∧ http_method_of (buildToolSpec toolSpec oas) = Some (Strs.toUpperCase m)
        ∧ http_path_of (buildToolSpec toolSpec oas) = Some pathKey
        ∧ bt_input_schema (buildToolSpec toolSpec oas) = Some (buildInputSchema op)).
Proof.
  split; [vm_compute; repeat split|].
  intros toolSpec oas pathKey pathObj others i m op Hpaths Hi Hget Hbefore.
  pose proof (firstOperation_intro _ _ _ _ Hi Hget Hbefore) as Hop.
  split; [eapply buildToolSpec_with_paths; eassumption|].
  unfold http_method_of, http_path_of, buildToolSpec.
  rewrite Hpaths. simpl. rewrite Hop. simpl. auto.
Qed.

Lemma C2_compile_scenario_and_scope_witness :
  http_method_of
    (buildToolSpec Examples.weatherMeta (Examples.document Examples.postThenGet))
  = Some "GET".
Proof.
  apply (proj2 C2_compile_scenario_and_scope Examples.weatherMeta
           (Examples.document Examples.postThenGet)
           "/current.json" Examples.postThenGet [] 0%nat "get"
           (Examples.operation [Examples.param "q" "query" true])).
  - reflexivity.
  - reflexivity.
  - reflexivity.
  - intros j m' Hj. lia.
Defined.

(** ** The validator *)

Lemma push_if_true c msg : c = true → push_if c msg = [msg].
Proof. now intros ->. Qed.

Lemma push_if_false c msg : c = false → push_if c msg = [].
Proof. now intros ->. Qed.

(** A field that is present makes its holder an object. *)
Lemma ofield_truthy_holder o k :
  truthy (ofield o k) = true → truthy o = true ∧ typeof_is_object o = true.
Proof. destruct o as [[]|]; simpl; try discriminate. auto. Qed.

Lemma validateOas_bound oas :
  let binding := ofield (ofield oas "binding") "openapi" in
  truthy (ofield binding "http_method") = true →
  validateOas oas = validateBound oas binding.
Proof.
  intros binding Hm.
  pose proof (ofield_truthy_holder _ _ Hm) as [Hb1 Hb2].
  pose proof (ofield_truthy_holder _ _ Hb1) as [Hbb _].
  pose proof (ofield_truthy_holder _ _ Hbb) as [Ho1 Ho2].
  unfold validateOas. fold binding. now rewrite Ho1, Ho2, Hb1, Hb2.
Qed.

(** C3 (counterexample).  A document with [binding.openapi.http_method],
    [.http_path] and a string as [input_schema], without [name] and
    [display_name], gets two errors, not exactly one. *)
Lemma C3_two_errors_without_name :
  validateOas (Some Examples.boundWithoutName)
  = ["input_schema is required for WxO tools"; "name or display_name is required"]
  ∧ validateOas (Some Examples.boundWithoutName)
    ≠ ["input_schema is required for WxO tools"].
Proof. split; [reflexivity | discriminate]. Qed.

(** C3 (amended).  For every document with non-empty
    [binding.openapi.http_method] and [.http_path] whose [input_schema] is
    missing, falsy or not of type object, the validator reports
    "input_schema is required for WxO tools" and never
    "Missing required field: openapi"; the report is exactly that one
    error when [name] or [display_name] is present, and that error
    followed by "name or display_name is required" when neither is. *)
Theorem C3_bound_dialect_routing (oas : option value) :
  let binding := ofield (ofield oas "binding") "openapi" in
  let input_schema := ofield oas "input_schema" in
  truthy (ofield binding "http_method") = true →
  truthy (ofield binding "http_path") = true →
  (truthy input_schema && typeof_is_object input_schema) = false →
  ("Missing required field: openapi" ∉ validateOas oas)
  ∧ validateOas oas =
      "input_schema is required for WxO tools" ::
      (if truthy (ofield oas "name") || truthy (ofield oas "display_name")
       then []
       else ["name or display_name is required"]).
Proof.
  intros binding input_schema Hm Hp Hin.
  assert (Heq : validateOas oas =
      "input_schema is required for WxO tools" ::
      (if truthy (ofield oas "name") || truthy (ofield oas "display_name")
       then [] else ["name or display_name is required"])).
  { rewrite (validateOas_bound oas Hm). unfold validateBound. fold binding input_schema.
    rewrite Hm, Hp. simpl.
    rewrite (push_if_true (negb (truthy input_schema)
                           || negb (typeof_is_object input_schema))).
    - simpl. f_equal.
      destruct (truthy (ofield oas "name")), (truthy (ofield oas "display_name"));
        reflexivity.
    - destruct (truthy input_schema), (typeof_is_object input_schema);
        simpl in *; congruence. }
  split; [|exact Heq].
  rewrite Heq.
  destruct (truthy (ofield oas "name") || truthy (ofield oas "display_name"));
    rewrite ?not_elem_of_cons; repeat split; try discriminate; apply not_elem_of_nil.
Qed.

Lemma C3_bound_dialect_routing_witness :
  ("Missing required field: openapi" ∉ validateOas (Some Examples.boundWithName))
  ∧ validateOas (Some Examples.boundWithName)
    = ["input_schema is required for WxO tools"].
Proof.
  apply (C3_bound_dialect_routing (Some Examples.boundWithName)); reflexivity.
Defined.

(** ** Updating a tool *)


Lemma only_editable_nil : only_editable [].
Proof. intros k Hk. inversion Hk. Qed.

Lemma only_editable_set payload k v :
  k ∈ editableFields → only_editable payload → only_editable (Obj.set payload k v).
Proof.
  intros Hk Hp k' Hk'. apply keys_set in Hk' as [->|Hk']; [assumption | now apply Hp].
Qed.

Lemma only_editable_copy sj k payload :
  k ∈ editableFields → only_editable payload → only_editable (copyIfTruthy sj k payload).
Proof.
  intros Hk Hp. unfold copyIfTruthy.
  destruct (field sj k) as [v|]; [|assumption].
  destruct (truthy_value v); [now apply only_editable_set | assumption].
Qed.

Lemma editable_name : "name" ∈ editableFields.
Proof. unfold editableFields. rewrite !elem_of_cons. tauto. Qed.
Lemma editable_display_name : "display_name" ∈ editableFields.
Proof. unfold editableFields. rewrite !elem_of_cons. tauto. Qed.
Lemma editable_description : "description" ∈ editableFields.
Proof. unfold editableFields. rewrite !elem_of_cons. tauto. Qed.
Lemma editable_permission : "permission" ∈ editableFields.
Proof. unfold editableFields. rewrite !elem_of_cons. tauto. Qed.
Lemma editable_restrictions : "restrictions" ∈ editableFields.
Proof. unfold editableFields. rewrite !elem_of_cons. tauto. Qed.
Lemma editable_tags : "tags" ∈ editableFields.
Proof. unfold editableFields. rewrite !elem_of_cons. tauto. Qed.

Create HintDb editable.
#[local] Hint Resolve only_editable_nil only_editable_set only_editable_copy
  editable_name editable_display_name editable_description editable_permission
  editable_restrictions editable_tags : editable.

Lemma namePayload_only_editable sj p0 : namePayload sj = Ok p0 → only_editable p0.
Proof.
  unfold namePayload.
  destruct (field sj "name") as [[| b | n | s | items | fs]|]; simpl;
    try (intros [= <-]; apply only_editable_nil);
    try discriminate.
  - destruct b; [discriminate | intros [= <-]; apply only_editable_nil].
  - destruct (negb (n =? 0)); [discriminate | intros [= <-]; apply only_editable_nil].
  - intros [= <-]. destruct (String.eqb s ""); [apply only_editable_nil|].
    intros k Hk. unfold Obj.keys in Hk. simpl in Hk.
    apply list_elem_of_singleton in Hk as ->. apply editable_name.
Qed.

Lemma updatePayload_only_editable skillJson payload :
  updatePayload skillJson = Ok payload → only_editable payload.
Proof.
  unfold updatePayload. destruct skillJson as [sj|]; [|discriminate].
  assert (Hgen : obind (namePayload sj)
            (λ p0, Ok (copyIfTruthy sj "tags"
                         (copyIfTruthy sj "restrictions"
                            (Obj.set
                               (copyIfTruthy sj "description"
                                  (copyIfTruthy sj "display_name" p0))
                               "permission"
                               (default Null
                                  (or_else (field sj "permission")
                                     (Some (Str "read_write"))))))))
          = Ok payload → only_editable payload).
  { destruct (namePayload sj) as [p0|e] eqn:Hp0; simpl; [|discriminate].
    intros [= <-]. apply namePayload_only_editable in Hp0.
    auto 7 with editable. }
  destruct sj; try exact Hgen. discriminate.
Qed.

(** Whatever the response, the steps after the request(s) leave the world
    and the log as they are. *)
Lemma updateSkill_log World (woFetch : Request → World → FetchResult * World)
    skillId skillJson payload w log :
  updatePayload skillJson = Ok payload →
  let endpoint := "/v1/orchestrate/tools/" +:+ skillId in
  let put := mkRequest endpoint (Some "PUT") (Some (Obj payload)) in
  let patch := mkRequest endpoint (Some "PATCH") (Some (Obj payload)) in
  let got405 :=
    match fst (woFetch put w) with
    | Responded r => status r =? 405
    | Rejected _ => false
    end in
  snd (snd (updateSkill World woFetch skillId skillJson (w, log)))
  = log ++ EvFetch put :: (if got405 then [EvFetch patch] else []).
Proof.
  intros Hp endpoint put patch got405.
  unfold updateSkill, bind, lift, fetch, ret, throw. rewrite Hp. fold endpoint put patch.
  subst got405.
  destruct (woFetch put w) as [[msg|r] w1] eqn:Hput; simpl; [reflexivity|].
  destruct (status r =? 405) eqn:H405; simpl.
  - destruct (woFetch patch w1) as [[msg|r'] w2]; simpl.
    + now rewrite <- app_assoc.
    + rewrite <- app_assoc.
      destruct (negb (ok r')); simpl; [reflexivity|].
      destruct (status r' =? 204); simpl; [reflexivity|].
      destruct (String.eqb (text r') ""); simpl; [reflexivity|].
      destruct (json r'); reflexivity.
  - destruct (negb (ok r)); simpl; [reflexivity|].
    destruct (status r =? 204); simpl; [reflexivity|].
    destruct (String.eqb (text r) ""); simpl; [reflexivity|].
    destruct (json r); reflexivity.
Qed.

(** C9.  The payload of an update request has no key outside name,
    display_name, description, permission, restrictions and tags, whatever
    else the edited document holds; the request is a PUT to the tool, and
    a PATCH with the same payload follows exactly when the PUT is answered
    with status 405.  When no payload can be built, nothing is sent. *)
Theorem C9_update_payload_and_fallback :
  (∀ skillJson payload k,
      updatePayload skillJson = Ok payload →
      k ∈ Obj.keys payload → k ∈ editableFields)
  ∧ (∀ World (woFetch : Request → World → FetchResult * World)
       skillId skillJson payload w log,
        updatePayload skillJson = Ok payload →
        let endpoint := "/v1/orchestrate/tools/" +:+ skillId in
        let put := mkRequest endpoint (Some "PUT") (Some (Obj payload)) in
        let patch := mkRequest endpoint (Some "PATCH") (Some (Obj payload)) in
        let got405 :=
          match fst (woFetch put w) with
          | Responded r => status r =? 405
          | Rejected _ => false
          end in
        snd (snd (updateSkill World woFetch skillId skillJson (w, log)))
        = log ++ EvFetch put :: (if got405 then [EvFetch patch] else []))
  ∧ (∀ World (woFetch : Request → World → FetchResult * World)
       skillId skillJson e w log,
        updatePayload skillJson = Throw e →
        updateSkill World woFetch skillId skillJson (w, log) = (Throw e, (w, log))).
Proof.
  split; [|split].
  - intros skillJson payload k Hp. exact (updatePayload_only_editable _ _ Hp k).
  - intros. now apply updateSkill_log.
  - intros World woFetch skillId skillJson e w log He.
    unfold updateSkill, bind, lift. now rewrite He.
Qed.

Lemma C9_update_payload_and_fallback_witness :
  requestsOf (snd (snd (updateSkill unit (Examples.constantService 405) "t1"
                          (Some Examples.editedSkill) (tt, []))))
  = [mkRequest "/v1/orchestrate/tools/t1" (Some "PUT")
       (Some (Obj [("name", Str "get_weather"); ("display_name", Str "Weather");
                   ("permission", Str "read_write"); ("tags", Arr [Str "demo"])]));
     mkRequest "/v1/orchestrate/tools/t1" (Some "PATCH")
       (Some (Obj [("name", Str "get_weather"); ("display_name", Str "Weather");
                   ("permission", Str "read_write"); ("tags", Arr [Str "demo"])]))]
  ∧ "tags" ∈ editableFields.
Proof.
  split.
  - rewrite (proj1 (proj2 C9_update_payload_and_fallback) unit
               (Examples.constantService 405) "t1" (Some Examples.editedSkill)
               [("name", Str "get_weather"); ("display_name", Str "Weather");
                ("permission", Str "read_write"); ("tags", Arr [Str "demo"])]
               tt [] eq_refl).
    reflexivity.
  - apply (proj1 C9_update_payload_and_fallback (Some Examples.editedSkill)
             [("name", Str "get_weather"); ("display_name", Str "Weather");
              ("permission", Str "read_write"); ("tags", Arr [Str "demo"])]
             "tags" eq_refl).
    unfold Obj.keys. simpl. rewrite !elem_of_cons.
    repeat (first [left; reflexivity | right]).
Defined.

(** ** Saving with validation issues *)

Lemma validateOas_without_version (oas : option value) (v : string) :
  let binding := ofield (ofield oas "binding") "openapi" in
  let info := ofield oas "info" in
  let paths := ofield oas "paths" in
  let servers := ofield oas "servers" in
  (truthy binding && typeof_is_object binding) = false →
  ofield oas "openapi" = Some (Str v) → v ≠ "" →
  truthy (ofield info "title") = true →
  is_nullish (ofield info "version") = true →
  (is_defined paths = false ∨ (typeof_is_object paths = true ∧ isArray paths = false)) →
  (is_defined servers = false ∨ isArray servers = true) →
  validateOas oas = ["info.version is recommended"].
Proof.
  intros binding info paths servers Hb Hv Hne Ht Hver Hpaths Hservers.
  assert (Ho : truthy (ofield oas "openapi") = true).
  { rewrite Hv. simpl. apply String.eqb_neq in Hne. now rewrite Hne. }
  pose proof (ofield_truthy_holder _ _ Ho) as [Ho1 Ho2].
  pose proof (ofield_truthy_holder _ _ Ht) as [Hi _].
  unfold validateOas. fold binding. rewrite Ho1, Ho2, Hb. simpl.
  unfold validateOpenApi. fold info paths servers.
  rewrite Ho, Hi, Ht, Hver, Hv. simpl.
  rewrite (push_if_false (is_defined paths && _)), (push_if_false (is_defined servers && _)).
  - reflexivity.
  - destruct Hservers as [->| ->]; [reflexivity | apply andb_false_r].
  - destruct Hpaths as [->|[-> ->]]; [reflexivity | apply andb_false_r].
Qed.


(** C7.  An OpenAPI document that satisfies every other rule but lacks
    [info.version] gets the single report "info.version is recommended".
    On save the report is shown in a warning prompt that offers
    "Update Anyway"; when the user picks it, the update request is sent:
    the missing version alone does not block the save. *)
Theorem C7_missing_version_does_not_block_save (oas : option value) (v : string) :
  let binding := ofield (ofield oas "binding") "openapi" in
  let info := ofield oas "info" in
  let paths := ofield oas "paths" in
  let servers := ofield oas "servers" in
  (truthy binding && typeof_is_object binding) = false →
  ofield oas "openapi" = Some (Str v) → v ≠ "" →
  truthy (ofield info "title") = true →
  is_nullish (ofield info "version") = true →
  (is_defined paths = false ∨ (typeof_is_object paths = true ∧ isArray paths = false)) →
  (is_defined servers = false ∨ isArray servers = true) →
  validateOas oas = ["info.version is recommended"]
  ∧ ∀ World (woFetch : Request → World → FetchResult * World)
      (ask : string → list string → World → option string * World)
      skillId payload w w' log,
      skillId ≠ "" →
      updatePayload oas = Ok payload →
      ask versionPrompt ["Update Anyway"; "Cancel"] w = (Some "Update Anyway", w') →
      ∃ rest,
        snd (snd (saveSkill World woFetch ask (Some skillId) oas (w, log)))
        = log ++ EvWarning versionPrompt ["Update Anyway"; "Cancel"]
            :: EvFetch (mkRequest ("/v1/orchestrate/tools/" +:+ skillId)
                          (Some "PUT") (Some (Obj payload)))
            :: rest.
Proof.
  intros binding info paths servers Hb Hv Hne Ht Hver Hpaths Hservers.
  pose proof (validateOas_without_version oas v Hb Hv Hne Ht Hver Hpaths Hservers) as Hval.
  split; [exact Hval|].
  intros World woFetch ask skillId payload w w' log Hid Hp Hask.
  unfold saveSkill. rewrite Hval.
  unfold bind at 1. unfold bind at 1. unfold showWarningMessage.
  change (String.concat newline ["info.version is recommended"])
    with "info.version is recommended".
  fold versionPrompt. rewrite Hask. unfold ret at 1.
  rewrite (bool_decide_eq_true_2 _ eq_refl). cbn [negb].
  apply String.eqb_neq in Hid. rewrite Hid.
  unfold catch, bind, emit. cbv beta.
  pose proof (updateSkill_log World woFetch skillId oas payload w'
                (log ++ [EvWarning versionPrompt ["Update Anyway"; "Cancel"]]) Hp) as Hlog.
  cbv zeta in Hlog.
  destruct (updateSkill World woFetch skillId oas
              (w', log ++ [EvWarning versionPrompt ["Update Anyway"; "Cancel"]]))
    as [[r|e] [w2 log2]]; simpl in Hlog |- *; rewrite Hlog, <- !app_assoc; simpl;
    eexists; reflexivity.
Qed.

Lemma C7_missing_version_does_not_block_save_witness :
  validateOas (Some Examples.oasWithoutVersion) = ["info.version is recommended"]
  ∧ ∃ rest,
      snd (snd (saveSkill unit (Examples.constantService 200)
                  (Examples.constantUser (Some "Update Anyway"))
                  (Some "t1") (Some Examples.oasWithoutVersion) (tt, [])))
      = [] ++ EvWarning versionPrompt ["Update Anyway"; "Cancel"]
          :: EvFetch (mkRequest ("/v1/orchestrate/tools/" +:+ "t1") (Some "PUT")
                        (Some (Obj [("permission", Str "read_write")])))
          :: rest.
Proof.
  assert (H := C7_missing_version_does_not_block_save
                 (Some Examples.oasWithoutVersion) "3.0.1").
  cbv zeta in H.
  destruct H as [Hval Hsave]; try reflexivity.
  - discriminate.
  - right. split; reflexivity.
  - right. reflexivity.
  - split; [exact Hval|].
    apply (Hsave unit (Examples.constantService 200)
             (Examples.constantUser (Some "Update Anyway")) "t1"
             [("permission", Str "read_write")] tt tt []).
    + discriminate.
    + reflexivity.
    + reflexivity.
Defined.

(** ** Generation *)

Lemma hasApiKeyParamIn_false paramNames apiKeyParam :
  (∀ k, k ∈ paramNames → k ≠ apiKeyParam ∧ k ∉ apiKeyAliases) →
  hasApiKeyParamIn paramNames apiKeyParam = false.
Proof.
  intros H. unfold hasApiKeyParamIn.
  induction paramNames as [|k ks IH]; simpl; [reflexivity|].
  destruct (H k) as [Hne Hal]; [left|].
  apply String.eqb_neq in Hne. rewrite Hne. unfold isAlias.
  rewrite (bool_decide_eq_false_2 _ Hal). simpl.
  apply IH. intros k' Hk'. apply H. now right.
Qed.

Lemma hasApiKeyParamIn_true paramNames apiKeyParam k :
  k ∈ paramNames → k = apiKeyParam ∨ k ∈ apiKeyAliases →
  hasApiKeyParamIn paramNames apiKeyParam = true.
Proof.
  intros Hin Hk. unfold hasApiKeyParamIn.
  apply existsb_exists. exists k. split; [now apply list_elem_of_In|].
  destruct Hk as [->|Hal].
  - now rewrite String.eqb_refl.
  - unfold isAlias. rewrite (bool_decide_eq_true_2 _ Hal). apply orb_true_r.
Qed.

Lemma assembleOas_security env url u pathKey methodKey parameters schema names configured :
  let o := assembleOas env url u pathKey methodKey parameters schema names configured in
  let apiKeyParam := apiKeyParamOf configured in
  if hasApiKeyParamIn names apiKeyParam
  then securityScheme o "ApiKeyAuth"
       = Some (mkSecurityScheme (Some "apiKey") (Some "query") None
                 (Some (secNameOf names apiKeyParam)))
       ∧ oas_security o = Some (Arr [Obj [("ApiKeyAuth", Arr [])]])
  else oas_securitySchemes o = None ∧ oas_security o = None.
Proof.
  intros o apiKeyParam. unfold o, securityScheme, assembleOas. simpl. fold apiKeyParam.
  destruct (hasApiKeyParamIn names apiKeyParam); split; reflexivity.
Qed.

Lemma generated_assembled env message o :
  generated (generateOaS env message) = Some o →
  ∃ u pathKey methodKey parameters schema,
    o = assembleOas env (g_url message) u pathKey methodKey parameters schema
          (Obj.keys (default [] (g_params message))) (g_apiKeyParamName message).
Proof.
  unfold generateOaS.
  destruct (env_url env) as [u|]; [|discriminate].
  destruct (g_method message) as [m|]; [|discriminate].
  simpl. intros [= <-]. eauto 10.
Qed.

Lemma fetched_assembled env statusText response message o :
  fetched (fetchAndGenerate env statusText response message) = Some o →
  ∃ u pathKey methodKey parameters schema,
    o = assembleOas env (g_url message) u pathKey methodKey parameters schema
          (Obj.keys (default [] (g_params message))) (g_apiKeyParamName message).
Proof.
  unfold fetchAndGenerate.
  destruct (negb (ok response)); [discriminate|].
  destruct (env_url env) as [u|]; [|discriminate].
  simpl. intros [= <-]. eauto 10.
Qed.

(** C6.  For a GET request with the observed parameters
    q = "Toronto,On" and key = "abc123" and the default API-key parameter
    name, each generation handler posts a document ([generateOaS] whenever
    the URL can be parsed, [fetchAndGenerate] when moreover the probed
    endpoint answers with a status in 200..299) with a query parameter
    [q] whose schema default is "Toronto,On", with the scheme
    [ApiKeyAuth] of type apiKey in query named "key", and with the
    document-level security array referring to [ApiKeyAuth].  When no
    parameter name is the configured name or one of the aliases key,
    apiKey, api_key, the document each handler posts has neither security
    schemes nor a security array. *)
Theorem C6_generated_defaults_and_security :
  (∀ env u url body configured statusText response,
      env_url env = Some u →
      apiKeyParamOf configured = "apiKey" →
      let message :=
        mkGenerateMessage url (Some "GET") (Some Examples.weatherParams) body configured in
      let as_claimed o :=
        parameterIn o "q" = Some "query"
        ∧ parameterDefault o "q" = Some (Str "Toronto,On")
        ∧ securityScheme o "ApiKeyAuth"
          = Some (mkSecurityScheme (Some "apiKey") (Some "query") None (Some "key"))
        ∧ oas_security o = Some (Arr [Obj [("ApiKeyAuth", Arr [])]]) in
      (∃ o, generateOaS env message = Ok o ∧ as_claimed o)
      ∧ (ok response = true →
         ∃ o, fetchAndGenerate env statusText response message = Ok (ReplyUpdateJson o)
              ∧ as_claimed o))
  ∧ (∀ env u statusText response message,
        env_url env = Some u →
        (∀ k, k ∈ Obj.keys (default [] (g_params message)) →
              k ≠ apiKeyParamOf (g_apiKeyParamName message) ∧ k ∉ apiKeyAliases) →
        (∀ method, g_method message = Some method →
           ∃ o, generateOaS env message = Ok o
                ∧ oas_securitySchemes o = None ∧ oas_security o = None)
        ∧ (ok response = true →
           ∃ o, fetchAndGenerate env statusText response message = Ok (ReplyUpdateJson o)
                ∧ oas_securitySchemes o = None ∧ oas_security o = None)).
Proof.
  split.
  - intros env u url body configured statusText response Hurl Hcfg message as_claimed.
    assert (Hassembled : ∀ pathKey schema,
               as_claimed (assembleOas env url u pathKey "get"
                             (oasParamsOf Examples.weatherParams) schema
                             (Obj.keys Examples.weatherParams) configured)).
    { intros pathKey schema. unfold as_claimed.
      split; [reflexivity|]. split; [reflexivity|].
      pose proof (assembleOas_security env url u pathKey "get"
                    (oasParamsOf Examples.weatherParams) schema
                    (Obj.keys Examples.weatherParams) configured) as Hsec.
      cbv zeta in Hsec. rewrite Hcfg in Hsec. exact Hsec. }
    split.
    + eexists. split; [|apply Hassembled].
      unfold generateOaS, message. rewrite Hurl. reflexivity.
    + intros Hok. eexists. split; [|apply Hassembled].
      unfold fetchAndGenerate, message. rewrite Hok, Hurl. reflexivity.
  - intros env u statusText response message Hurl Hnames.
    assert (Hassembled : ∀ pathKey methodKey parameters schema,
               let o := assembleOas env (g_url message) u pathKey methodKey parameters
                          schema (Obj.keys (default [] (g_params message)))
                          (g_apiKeyParamName message) in
               oas_securitySchemes o = None ∧ oas_security o = None).
    { intros pathKey methodKey parameters schema.
      pose proof (assembleOas_security env (g_url message) u pathKey methodKey parameters
                    schema (Obj.keys (default [] (g_params message)))
                    (g_apiKeyParamName message)) as Hsec.
      cbv zeta in *. now rewrite (hasApiKeyParamIn_false _ _ Hnames) in Hsec. }
    split.
    + intros method Hmethod. eexists. split; [|apply Hassembled].
      unfold generateOaS. rewrite Hurl, Hmethod. reflexivity.
    + intros Hok. eexists. split; [|apply Hassembled].
      unfold fetchAndGenerate. rewrite Hok, Hurl. reflexivity.
Qed.

Lemma C6_generated_defaults_and_security_witness :
  (∃ o, generateOaS Examples.weatherEnv Examples.weatherMessage = Ok o
        ∧ securityScheme o "ApiKeyAuth"
          = Some (mkSecurityScheme (Some "apiKey") (Some "query") None (Some "key")))
  ∧ (∃ o, fetchAndGenerate Examples.weatherEnv "OK" Examples.weatherResponse
            Examples.weatherMessage = Ok (ReplyUpdateJson o)
          ∧ parameterDefault o "q" = Some (Str "Toronto,On"))
  ∧ (∃ o, fetchAndGenerate Examples.weatherEnv "OK" Examples.weatherResponse
            Examples.plainMessage = Ok (ReplyUpdateJson o)
          ∧ oas_securitySchemes o = None ∧ oas_security o = None).
Proof.
  pose proof (proj1 C6_generated_defaults_and_security Examples.weatherEnv
                (mkURL "https://api.weatherapi.com" "/v1/current.json" "api.weatherapi.com")
                "https://api.weatherapi.com/v1/current.json"
                (Some (Obj [("location", Obj [("name", Str "Toronto")]); ("temp_c", Num 3)]))
                (Some "apiKey") "OK" Examples.weatherResponse eq_refl eq_refl)
    as [(o1 & Ho1 & _ & _ & Hscheme & _) Hfetch].
  destruct (Hfetch eq_refl) as (o2 & Ho2 & _ & Hdefault & _).
  split; [exists o1; split; [exact Ho1 | exact Hscheme]|].
  split; [exists o2; split; [exact Ho2 | exact Hdefault]|].
  apply (proj2 C6_generated_defaults_and_security Examples.weatherEnv
           (mkURL "https://api.weatherapi.com" "/v1/current.json" "api.weatherapi.com")
           "OK" Examples.weatherResponse Examples.plainMessage eq_refl).
  - intros k Hk. apply list_elem_of_singleton in Hk as ->.
    split; [discriminate|].
    unfold apiKeyAliases. rewrite !not_elem_of_cons.
    repeat split; try discriminate. apply not_elem_of_nil.
  - reflexivity.
Defined.

(** ** Writing table edits back *)

Section StringFacts.
Variables p q : ascii → bool.

Lemma forallb_drop_while s :
  Strs.forallb q s = true → Strs.forallb q (Strs.drop_while p s) = true.
Proof.
  induction s as [|c s IH]; simpl; [reflexivity|].
  intros H. apply andb_true_iff in H as [Hc Hs].
  destruct (p c); [auto | simpl; now rewrite Hc, Hs].
Qed.

Lemma forallb_drop_while_end s :
  Strs.forallb q s = true → Strs.forallb q (Strs.drop_while_end p s) = true.
Proof.
  induction s as [|c s IH]; simpl; [reflexivity|].
  intros H. apply andb_true_iff in H as [Hc Hs]. specialize (IH Hs).
  destruct (Strs.drop_while_end p s) as [|c' r].
  - destruct (p c); simpl; [reflexivity | now rewrite Hc].
  - change (Strs.forallb q (String c (String c' r)) = true).
    simpl in *. now rewrite Hc.
Qed.

Lemma starts_with_drop_while s : starts_with p (Strs.drop_while p s) = false.
Proof.
  induction s as [|c s IH]; simpl; [reflexivity|].
  destruct (p c) eqn:Hc; [assumption | simpl; assumption].
Qed.

Lemma ends_with_drop_while_end s : ends_with p (Strs.drop_while_end p s) = false.
Proof.
  induction s as [|c s IH]; simpl; [reflexivity|].
  destruct (Strs.drop_while_end p s) as [|c' r].
  - destruct (p c) eqn:Hc; simpl; [reflexivity | assumption].
  - exact IH.
Qed.

Lemma starts_with_drop_while_end s :
  starts_with p s = false → starts_with p (Strs.drop_while_end p s) = false.
Proof.
  destruct s as [|c s]; simpl; [reflexivity|]. intros Hc.
  destruct (Strs.drop_while_end p s); [now rewrite Hc | exact Hc].
Qed.
End StringFacts.

Lemma forallb_replace_outside (keep : ascii → bool) r s :
  keep r = true → Strs.forallb keep (Strs.replace_outside keep r s) = true.
Proof.
  intros Hr. induction s as [|c s IH]; simpl; [reflexivity|].
  unfold Strs.replace_outside in IH. rewrite IH.
  destruct (keep c) eqn:Hc; [now rewrite Hc | now rewrite Hr].
Qed.

(** What is left of a typed name is a safe identifier or nothing. *)
Lemma sanitizeKey_safe raw :
  sanitizeKey raw ≠ "" → safe_identifier (sanitizeKey raw) = true.
Proof.
  intros Hne. unfold safe_identifier, Strs.nonempty.
  apply String.eqb_neq in Hne. rewrite Hne. simpl.
  unfold sanitizeKey.
  rewrite forallb_drop_while_end
    by (apply forallb_drop_while, forallb_replace_outside; reflexivity).
  rewrite starts_with_drop_while_end by apply starts_with_drop_while.
  now rewrite ends_with_drop_while_end.
Qed.

Lemma sanitizeKey_not_proto raw : sanitizeKey raw ≠ "__proto__".
Proof.
  intros H.
  assert (Hs : starts_with Chars.is_underscore (sanitizeKey raw) = false).
  { unfold sanitizeKey.
    apply starts_with_drop_while_end, starts_with_drop_while. }
  rewrite H in Hs. discriminate.
Qed.

Lemma schemaRowKey_Some row key :
  schemaRowKey row = Some key →
  row_deleted row = false ∧ key = sanitizeKey (typedName row) ∧ key ≠ "".
Proof.
  unfold schemaRowKey, typedName.
  destruct (row_deleted row); [discriminate|].
  destruct (String.eqb (Strs.trim (str_or (row_name row) "")) ""); [discriminate|].
  destruct (String.eqb_spec (sanitizeKey (Strs.trim (str_or (row_name row) ""))) "")
    as [|Hne]; [discriminate|].
  intros [= <-]. auto.
Qed.

Lemma pathsRowName_Some row name :
  pathsRowName row = Some name →
  row_deleted row = false ∧ name = typedName row ∧ name ≠ "".
Proof.
  unfold pathsRowName, typedName.
  destruct (row_deleted row); [discriminate|].
  destruct (String.eqb_spec (Strs.trim (str_or (row_name row) "")) "") as [|Hne];
    [discriminate|].
  intros [= <-]. auto.
Qed.

Section FormSyncFacts.
Variable numericLiteral : string → option value.

Lemma schemaRows_keys_gen rows done acc :
  keys_from_rows done (fst acc) →
  keys_from_rows (done ++ rows) (fst (fold_left (schemaRowStep numericLiteral) rows acc)).
Proof.
  revert done acc. induction rows as [|row rows IH]; intros done acc Hacc; simpl.
  - now rewrite app_nil_r.
  - replace (done ++ row :: rows) with ((done ++ [row]) ++ rows)
      by now rewrite <- app_assoc.
    apply IH. unfold schemaRowStep.
    destruct (schemaRowKey row) as [key|] eqn:Hkey; simpl.
    + intros k Hk. apply keys_assign in Hk as [[-> _]|Hk].
      * apply schemaRowKey_Some in Hkey as (Hdel & Hs & Hne).
        exists row. rewrite elem_of_app, list_elem_of_singleton. auto.
      * destruct (Hacc k Hk) as (r & Hr & Hrest).
        exists r. rewrite elem_of_app. auto.
    + intros k Hk. destruct (Hacc k Hk) as (r & Hr & Hrest).
      exists r. rewrite elem_of_app. auto.
Qed.

Lemma schemaRows_keys rows : keys_from_rows rows (fst (schemaRows numericLiteral rows)).
Proof.
  apply (schemaRows_keys_gen rows [] ([], [])). intros key Hkey. inversion Hkey.
Qed.

Lemma pathsRows_elem rows x :
  x ∈ pathsRows numericLiteral rows →
  ∃ row name, row ∈ rows ∧ pathsRowName row = Some name
              ∧ x = pathsRowParam numericLiteral name row.
Proof.
  unfold pathsRows. intros Hx. apply list_elem_of_omap in Hx as (row & Hrow & Hx).
  destruct (pathsRowName row) as [name|] eqn:Hname; simpl in Hx; [|discriminate].
  injection Hx as <-. eauto.
Qed.
End FormSyncFacts.

(** C8 (counterexample).  In a table of the [paths] format the typed name
    "a b" is written back as it is: the parameter name in the document
    holds a space.  In a table of the [schema] format the name "a-b"
    becomes "a_b": the hyphen is replaced by an underscore, not removed. *)
Lemma C8_paths_names_are_not_sanitized :
  applyParamEditsToJson Examples.noNumbers [Examples.spacedTable] Examples.itemsDocument
  = Obj [("openapi", Str "3.0.1");
         ("paths",
          Obj [("/items",
                Obj [("get",
                      Obj [("parameters",
                            Arr [Obj [("name", Str "a b");
                                      ("in", Str "query");
                                      ("required", Bool false);
                                      ("description", Str "");
                                      ("schema", Obj [("type", Str "string")])]])])])])]
  ∧ safe_identifier "a b" = false
  ∧ Obj.keys (fst (schemaRows Examples.noNumbers (tbl_rows Examples.schemaTable)))
    = ["user_id"; "a_b"].
Proof. repeat split. Qed.

(** C8 (amended).  When table edits are written back, deleted rows and
    rows whose name is empty are skipped and the document is left as it
    would be without them.  In a table of the [schema] format every
    property key is the sanitized typed name (white space runs and every
    character outside [[A-Za-z0-9_]] become one underscore each, leading and
    trailing underscores are trimmed) of a row that is kept, and is a safe
    identifier.  In a table of the [paths] format every parameter name is
    the trimmed typed name of a row that is kept.  In both, every
    name written is non-empty. *)
Theorem C8_write_back_names :
  ∀ numericLiteral : string → option value,
    (∀ rows key,
        key ∈ Obj.keys (fst (schemaRows numericLiteral rows)) →
        safe_identifier key = true ∧ key ≠ ""
        ∧ ∃ row, row ∈ rows ∧ row_deleted row = false
                 ∧ key = sanitizeKey (typedName row))
    ∧ (∀ rows x,
          x ∈ pathsRows numericLiteral rows →
          ∃ row name, row ∈ rows ∧ row_deleted row = false
                      ∧ name = typedName row ∧ name ≠ ""
                      ∧ field x "name" = Some (Str name))
    ∧ (∀ acc row,
          row_deleted row = true ∨ sanitizeKey (typedName row) = "" →
          schemaRowStep numericLiteral acc row = acc)
    ∧ (∀ row rows,
          row_deleted row = true ∨ typedName row = "" →
          pathsRows numericLiteral (row :: rows) = pathsRows numericLiteral rows).
Proof.
  intros numericLiteral. repeat split.
  - destruct (schemaRows_keys numericLiteral rows key H) as (row & _ & _ & -> & Hne).
    now apply sanitizeKey_safe.
  - destruct (schemaRows_keys numericLiteral rows key H) as (row & _ & _ & _ & Hne).
    exact Hne.
  - destruct (schemaRows_keys numericLiteral rows key H) as (row & Hin & Hdel & Hk & _).
    eauto.
  - intros rows x Hx.
    apply pathsRows_elem in Hx as (row & name & Hin & Hname & ->).
    apply pathsRowName_Some in Hname as (Hdel & Hn & Hne).
    exists row, name. repeat split; auto.
  - intros acc row Hskip. unfold schemaRowStep, schemaRowKey. fold (typedName row).
    destruct Hskip as [-> | Hs]; [reflexivity|].
    destruct (row_deleted row); [reflexivity|].
    destruct (String.eqb (typedName row) ""); [reflexivity|].
    now rewrite Hs.
  - intros row rows Hskip. unfold pathsRows. simpl.
    unfold pathsRowName at 1. fold (typedName row).
    destruct Hskip as [-> | ->]; [reflexivity|].
    destruct (row_deleted row); reflexivity.
Qed.

Lemma C8_write_back_names_witness :
  safe_identifier "user_id" = true
  ∧ schemaRowStep Examples.noNumbers ([], []) (Examples.rowNamed "___") = ([], []).
Proof.
  split.
  - refine (proj1 (proj1 (C8_write_back_names Examples.noNumbers)
                      (tbl_rows Examples.schemaTable) "user_id" _)).
    change ("user_id" ∈ ["user_id"; "a_b"]). left.
  - apply (proj1 (proj2 (proj2 (C8_write_back_names Examples.noNumbers)))).
    right. reflexivity.
Defined.

(** ** Polling the thread *)

Lemma fieldIs_no_assistant m :
  no_assistant m = true → fieldIs "role" "assistant" m = Ok false.
Proof.
  destruct m; simpl; try discriminate; try reflexivity.
  unfold fieldIs, fieldE, obind, field. intros H.
  apply negb_true_iff in H. now rewrite H.
Qed.


Lemma fieldIs_not_null k s m : not_null m = true → ∃ b, fieldIs k s m = Ok b.
Proof. destruct m; simpl; try discriminate; intros _; eexists; reflexivity. Qed.

Lemma findE_quiet msgs :
  forallb no_assistant msgs = true →
  findE (fieldIs "role" "assistant") msgs = Ok None.
Proof.
  induction msgs as [|m msgs IH]; simpl; [reflexivity|].
  intros H. apply andb_true_iff in H as [Hm Hms].
  now rewrite (fieldIs_no_assistant m Hm), IH.
Qed.


Lemma findE_total k s items :
  forallb not_null items = true → ∃ r, findE (fieldIs k s) items = Ok r.
Proof.
  induction items as [|x items IH]; simpl; [eauto|].
  intros H. apply andb_true_iff in H as [Hx Hitems].
  destruct (fieldIs_not_null k s x Hx) as [[|] ->]; eauto.
Qed.



Section PollFacts.
Context {World : Type}.
Variable woFetch : Request → World → FetchResult * World.
Variables JS1 JS2 : value → string.

(** One iteration of the loop of [invokeToolRemote], spelled out. *)
Lemma toolPoll_S url n messages w log :
  toolPoll World woFetch url (S n) messages (w, log)
  = let req := mkRequest url None None in
    let log' := log ++ pollEvents toolPollDelay req 1 in
    match woFetch req w with
    | (Rejected msg, w') => (Throw msg, (w', log'))
    | (Responded r, w') =>
        if ok r then
          match json r with
          | None => (Throw "SyntaxError", (w', log'))
          | Some msgData =>
              match toolMessagesOf msgData with
              | Throw e => (Throw e, (w', log'))
              | Ok messages' =>
                  match findAssistant messages' with
                  | Throw e => (Throw e, (w', log'))
                  | Ok (Some _) => (Ok messages', (w', log'))
                  | Ok None => toolPoll World woFetch url n messages' (w', log')
                  end
              end
          end
        else toolPoll World woFetch url n messages (w', log')
    end.
Proof.
  cbn [toolPoll pollEvents]. unfold bind, sleep, emit, fetch, jsonOf, lift, ret, throw.
  cbv zeta. rewrite <- app_assoc. cbn [app].
  destruct (woFetch (mkRequest url None None) w) as [[msg|r] w']; [reflexivity|].
  destruct (ok r); [|reflexivity].
  destruct (json r) as [msgData|]; [|reflexivity].
  destruct (toolMessagesOf msgData) as [messages'|e]; [|reflexivity].
  destruct (findAssistant messages') as [[m|]|e]; reflexivity.
Qed.

(** One iteration of the loop of [invokeAgent], spelled out. *)
Lemma agentPoll_S url n w log :
  agentPoll World woFetch JS1 JS2 url (S n) (w, log)
  = let req := mkRequest url (Some "GET") None in
    let log' := log ++ pollEvents agentPollDelay req 1 in
    match woFetch req w with
    | (Rejected msg, w') => (Throw msg, (w', log'))
    | (Responded r, w') =>
        if ok r then
          match json r with
          | None => (Throw "SyntaxError", (w', log'))
          | Some data =>
              match fieldE (Some data) "data" with
              | Throw e => (Throw e, (w', log'))
              | Ok dd =>
                  match default Null (or_else dd (Some data)) with
                  | Arr items =>
                      match lastAssistant items with
                      | Throw e => (Throw e, (w', log'))
                      | Ok (Some am) => (agentResponse JS1 JS2 am, (w', log'))
                      | Ok None => agentPoll World woFetch JS1 JS2 url n (w', log')
                      end
                  | _ => agentPoll World woFetch JS1 JS2 url n (w', log')
                  end
              end
          end
        else agentPoll World woFetch JS1 JS2 url n (w', log')
    end.
Proof.
  cbn [agentPoll pollEvents]. unfold bind, sleep, emit, fetch, jsonOf, lift, ret, throw.
  cbv zeta. rewrite <- app_assoc. cbn [app].
  destruct (woFetch (mkRequest url (Some "GET") None) w) as [[msg|r] w']; [reflexivity|].
  destruct (ok r); [|reflexivity].
  destruct (json r) as [data|]; [|reflexivity].
  unfold agentMessagesOf.
  destruct (fieldE (Some data) "data") as [dd|e]; [|reflexivity].
  cbn [obind].
  destruct (default Null (or_else dd (Some data))); try reflexivity.
  destruct (lastAssistant items) as [[m|]|e]; reflexivity.
Qed.


Lemma agentPoll_bound url n :
  ∀ w log,
    ∃ k, (k ≤ n)%nat
         ∧ snd (snd (agentPoll World woFetch JS1 JS2 url n (w, log)))
           = log ++ pollEvents agentPollDelay (mkRequest url (Some "GET") None) k.
Proof.
  induction n as [|n IH]; intros w log.
  - exists 0%nat. split; [lia|]. simpl. now rewrite app_nil_r.
  - rewrite agentPoll_S. cbv zeta.
    assert (Hone : ∀ (o : outcome AgentRun) (w' : World),
               ∃ k, (k ≤ S n)%nat
                    ∧ snd (snd (o, (w', log ++ pollEvents agentPollDelay
                                              (mkRequest url (Some "GET") None) 1)))
                      = log ++ pollEvents agentPollDelay
                                 (mkRequest url (Some "GET") None) k).
    { intros o w'. exists 1%nat. split; [lia | reflexivity]. }
    assert (Hrec : ∀ w' : World,
               ∃ k, (k ≤ S n)%nat
                    ∧ snd (snd (agentPoll World woFetch JS1 JS2 url n
                                  (w', log ++ pollEvents agentPollDelay
                                                (mkRequest url (Some "GET") None) 1)))
                      = log ++ pollEvents agentPollDelay
                                 (mkRequest url (Some "GET") None) k).
    { intros w'. destruct (IH w'
        (log ++ pollEvents agentPollDelay (mkRequest url (Some "GET") None) 1))
        as (k & Hk & ->).
      exists (S k). split; [lia|]. now rewrite <- app_assoc. }
    destruct (woFetch (mkRequest url (Some "GET") None) w) as [[msg|r] w']; [apply Hone|].
    destruct (ok r); [|apply Hrec].
    destruct (json r) as [data|]; [|apply Hone].
    destruct (fieldE (Some data) "data") as [dd|e]; [|apply Hone].
    destruct (default Null (or_else dd (Some data))); try apply Hrec.
    destruct (lastAssistant items) as [[m|]|e]; [apply Hone | apply Hrec | apply Hone].
Qed.

Lemma forallb_impl {A} (f g : A → bool) l :
  (∀ x, f x = true → g x = true) → forallb f l = true → forallb g l = true.
Proof.
  intros Hfg. induction l as [|x l IH]; simpl; [reflexivity|].
  intros H. apply andb_true_iff in H as [Hx Hl]. now rewrite (Hfg x Hx), IH.
Qed.

Lemma pollEvents_S delay req k :
  pollEvents delay req (S k) = pollEvents delay req 1 ++ pollEvents delay req k.
Proof. reflexivity. Qed.


Lemma pollAnswers_length req n : ∀ w, length (pollAnswers woFetch req n w) = n.
Proof. induction n as [|n IH]; intros w; cbn [pollAnswers length]; [|rewrite IH]; reflexivity. Qed.

(** One iteration of each loop, in terms of what the answer gives the
    loop to search. *)
Lemma toolPoll_step url n messages w log :
  toolPoll World woFetch url (S n) messages (w, log)
  = let req := mkRequest url None None in
    let a := woFetch req w in
    let s' := (snd a, log ++ pollEvents toolPollDelay req 1) in
    match listOf toolMessagesOf (fst a) with
    | Throw e => (Throw e, s')
    | Ok None => toolPoll World woFetch url n messages s'
    | Ok (Some fetched) =>
        match findAssistant fetched with
        | Throw e => (Throw e, s')
        | Ok (Some _) => (Ok fetched, s')
        | Ok None => toolPoll World woFetch url n fetched s'
        end
    end.
Proof.
  rewrite toolPoll_S. cbv zeta.
  destruct (woFetch (mkRequest url None None) w) as [[msg|r] w']; cbn [fst snd listOf];
    [reflexivity|].
  destruct (ok r); [|reflexivity].
  destruct (json r) as [body|]; [|reflexivity].
  destruct (toolMessagesOf body); reflexivity.
Qed.


Lemma toolSilent_cases a :
  toolSilent a = true →
  listOf toolMessagesOf a = Ok None
  ∨ ∃ msgs, listOf toolMessagesOf a = Ok (Some (Arr msgs))
            ∧ forallb no_assistant msgs = true.
Proof.
  unfold toolSilent.
  destruct (listOf toolMessagesOf a) as [[[| | | |msgs|]|]|]; try discriminate; eauto.
Qed.

(** While the answers are silent, the loop of [invokeToolRemote] goes on:
    after them it is where it would be had it started there, with the
    last list fetched. *)
Lemma toolPoll_silent_prefix url quiet :
  ∀ n messages w log rest,
    pollAnswers woFetch (mkRequest url None None) (length quiet + n) w = quiet ++ rest →
    forallb toolSilent quiet = true →
    ∃ w',
      toolPoll World woFetch url (length quiet + n) messages (w, log)
      = toolPoll World woFetch url n (lastFetched messages quiet)
          (w', log ++ pollEvents toolPollDelay (mkRequest url None None) (length quiet))
      ∧ pollAnswers woFetch (mkRequest url None None) n w' = rest.
Proof.
  induction quiet as [|a quiet IH]; intros n messages w log rest Hans Hq.
  - exists w. cbn [length plus pollEvents lastFetched]. rewrite app_nil_r. auto.
  - cbn [length plus pollAnswers app forallb] in *.
    injection Hans as Ha Hans. apply andb_true_iff in Hq as [Hsilent Hq].
    rewrite toolPoll_step. cbv zeta. rewrite Ha. cbn [lastFetched].
    rewrite (pollEvents_S _ _ (length quiet)), app_assoc.
    apply toolSilent_cases in Hsilent as [Hl|(msgs & Hl & Hmsgs)]; rewrite Hl.
    + apply (IH n messages _ _ rest Hans Hq).
    + cbn [findAssistant]. rewrite (findE_quiet msgs Hmsgs).
      apply (IH n (Arr msgs) _ _ rest Hans Hq).
Qed.




Lemma lastFetched_silent quiet :
  ∀ msgs, forallb no_assistant msgs = true →
  forallb toolSilent quiet = true →
  ∃ msgs', lastFetched (Arr msgs) quiet = Arr msgs'
           ∧ forallb no_assistant msgs' = true.
Proof.
  induction quiet as [|a quiet IH]; intros msgs Hmsgs Hq; cbn [lastFetched forallb] in *.
  - eauto.
  - apply andb_true_iff in Hq as [Hsilent Hq].
    apply toolSilent_cases in Hsilent as [->|(ms & -> & Hms)]; eauto.
Qed.

End PollFacts.

(** ** The orchestrators *)

Section OrchestratorFacts.
Context {World : Type}.
Variable woFetch : Request → World → FetchResult * World.
Variables JS1 JS2 : value → string.

(** Once the run is accepted with a thread identifier, [invokeToolRemote]
    is the poll loop followed by the extraction of the result. *)
Lemma invokeToolRemote_accepted toolId parameters agentId w log r w1 runData tid :
  woFetch (toolRunRequest JS1 toolId parameters agentId) w = (Responded r, w1) →
  ok r = true →
  json r = Some runData →
  fieldE (Some runData) "thread_id" = Ok (Some tid) →
  truthy_value tid = true →
  invokeToolRemote World woFetch JS1 JS2 toolId parameters agentId (w, log)
  = match toolPoll World woFetch (threadMessagesUrl (Some tid)) toolMaxAttempts (Arr [])
            (w1, log ++ [EvFetch (toolRunRequest JS1 toolId parameters agentId)]) with
    | (Ok messages, s) =>
        match toolResponse JS1 JS2 tid messages with
        | Ok dr => (Ok (mkToolRun (fst dr) tid (snd dr)), s)
        | Throw e => (Throw e, s)
        end
    | (Throw e, s) => (Throw e, s)
    end.
Proof.
  intros Hrun Hok Hjson Htid Htruthy.
  unfold invokeToolRemote, toolRunRequest in *.
  unfold bind at 1. unfold fetch at 1. rewrite Hrun, Hok. cbn [negb].
  unfold bind at 1. unfold jsonOf. rewrite Hjson. unfold ret at 1.
  unfold bind at 1. unfold lift at 1. rewrite Htid.
  cbn [truthy]. rewrite Htruthy. cbn [negb default]. unfold id.
  unfold bind at 1.
  destruct (toolPoll World woFetch (threadMessagesUrl (Some tid)) toolMaxAttempts (Arr []) _)
    as [[messages|e] s]; [|reflexivity].
  unfold bind, lift, ret.
  destruct (toolResponse JS1 JS2 tid messages) as [dr|e]; reflexivity.
Qed.

(** Once the run is accepted, [invokeAgent] is its poll loop. *)
Lemma invokeAgent_accepted agentId message w log r w1 runData :
  woFetch (agentRunRequest agentId message) w = (Responded r, w1) →
  ok r = true →
  json r = Some runData →
  runData ≠ Null →
  invokeAgent World woFetch JS1 JS2 agentId message (w, log)
  = agentPoll World woFetch JS1 JS2 (threadMessagesUrl (field runData "thread_id"))
      agentMaxAttempts (w1, log ++ [EvFetch (agentRunRequest agentId message)]).
Proof.
  intros Hrun Hok Hjson Hnull.
  unfold invokeAgent, agentRunRequest in *.
  unfold bind at 1. unfold fetch at 1. rewrite Hrun, Hok, Hjson. cbn [negb].
  unfold bind at 1. unfold lift at 1.
  destruct runData; try congruence; reflexivity.
Qed.

Lemma blockLines_total flag c : not_null c = true → ∃ ls, blockLines JS2 flag c = Ok ls.
Proof.
  intros Hc. unfold blockLines.
  assert (Hty : fieldE (Some c) "type" = Ok (field c "type"))
    by (destruct c; try discriminate; reflexivity).
  rewrite Hty. cbn [obind].
  destruct (is_str _ "text"); [eauto|].
  destruct (is_str _ "tool_use"); [eauto|].
  destruct (is_str _ "tool_result"); [|eauto].
  destruct flag; eauto.
Qed.





(** What [invokeToolRemote] makes of a list without a message of the
    assistant: the result is made of the first message of the list. *)
Lemma toolResponse_no_assistant tid msgs :
  forallb no_assistant msgs = true →
  toolResponse JS1 JS2 tid (Arr msgs)
  = responseFrom JS1 JS2 tid (Arr msgs) (firstItem (Arr msgs)).
Proof.
  intros Hq. unfold toolResponse. cbn [findAssistant].
  now rewrite (findE_quiet msgs Hq).
Qed.



End OrchestratorFacts.

Section OrchestratorResults.
Context {World : Type}.
Variable woFetch : Request → World → FetchResult * World.
Variables JS1 JS2 : value → string.




(** *** The loop of [invokeToolRemote] against the answers of the
    transport *)

(** Every answer is silent: every attempt is made, and the result is made
    of the last list fetched. *)
Lemma toolPoll_all_silent url n w log :
  forallb toolSilent (pollAnswers woFetch (mkRequest url None None) n w) = true →
  ∃ w',
    toolPoll World woFetch url n (Arr []) (w, log)
    = (Ok (lastFetched (Arr []) (pollAnswers woFetch (mkRequest url None None) n w)),
       (w', log ++ pollEvents 4000 (mkRequest url None None) n)).
Proof.
  intros Hq.
  destruct (toolPoll_silent_prefix woFetch url
              (pollAnswers woFetch (mkRequest url None None) n w) 0 (Arr []) w log [])
    as (w' & Hpoll & _).
  - now rewrite pollAnswers_length, Nat.add_0_r, app_nil_r.
  - exact Hq.
  - rewrite pollAnswers_length, Nat.add_0_r in Hpoll. exists w'. exact Hpoll.
Qed.



(** *** The loop of [invokeAgent] against the answers of the transport *)




(** *** The orchestrators after an accepted run *)

Section ToolRun.
Variables (toolId : string) (parameters : list (string * value)) (agentId : option string).
Variables (w : World) (log : list Event) (r : HttpResponse) (w1 : World).
Variables (runData tid : value).
Hypothesis Hrun :
  woFetch (toolRunRequest JS1 toolId parameters agentId) w = (Responded r, w1).
Hypothesis Hok : ok r = true.
Hypothesis Hjson : json r = Some runData.
Hypothesis Htid : fieldE (Some runData) "thread_id" = Ok (Some tid).
Hypothesis Htruthy : truthy_value tid = true.


Lemma tool_run_silent :
  forallb toolSilent (pollAnswers woFetch (toolPollRequest tid) 12 w1) = true →
  ∃ msgs w',
    lastFetched (Arr []) (pollAnswers woFetch (toolPollRequest tid) 12 w1) = Arr msgs
    ∧ forallb no_assistant msgs = true
    ∧ invokeToolRemote World woFetch JS1 JS2 toolId parameters agentId (w, log)
      = (toolRunOf tid (responseFrom JS1 JS2 tid (Arr msgs) (firstItem (Arr msgs))),
         (w', log ++ EvFetch (toolRunRequest JS1 toolId parameters agentId) :: pollEvents 4000 (toolPollRequest tid) 12)).
Proof using Hrun Hok Hjson Htid Htruthy.
  intros Hq.
  destruct (lastFetched_silent (pollAnswers woFetch (toolPollRequest tid) 12 w1) [] eq_refl Hq) as (msgs & Hlast & Hmsgs).
  destruct (toolPoll_all_silent (threadMessagesUrl (Some tid)) 12 w1
              (log ++ [EvFetch (toolRunRequest JS1 toolId parameters agentId)]) Hq) as (w' & Hpoll).
  exists msgs, w'. split; [exact Hlast|]. split; [exact Hmsgs|].
  rewrite (invokeToolRemote_accepted woFetch JS1 JS2 _ _ _ _ _ _ _ _ _
             Hrun Hok Hjson Htid Htruthy).
  change toolMaxAttempts with 12%nat. rewrite Hpoll.
  unfold toolPollRequest in Hlast. rewrite Hlast.
  rewrite (toolResponse_no_assistant JS1 JS2 tid msgs Hmsgs), <- app_assoc.
  destruct (responseFrom JS1 JS2 tid (Arr msgs) _); reflexivity.
Qed.


End ToolRun.

Section AgentRun.
Variables (agentId message : string).
Variables (w : World) (log : list Event) (r : HttpResponse) (w1 : World).
Variable runData : value.
Hypothesis Hrun : woFetch (agentRunRequest agentId message) w = (Responded r, w1).
Hypothesis Hok : ok r = true.
Hypothesis Hjson : json r = Some runData.
Hypothesis Hnull : runData ≠ Null.




End AgentRun.

End OrchestratorResults.

(** ** A [null] among the blocks *)


Lemma blockLines_null JS2 flag : blockLines JS2 flag Null = Throw "TypeError".
Proof. reflexivity. Qed.

Lemma mapE_blockLines_null JS2 flag blocks :
  Null ∈ blocks → mapE (blockLines JS2 flag) blocks = Throw "TypeError".
Proof.
  induction blocks as [|c blocks IH]; intros Hin; [inversion Hin|].
  cbn [mapE].
  destruct (not_null c) eqn:Hc.
  - apply elem_of_cons in Hin as [Hin|Hin]; [subst c; discriminate|].
    destruct (blockLines_total JS2 flag c Hc) as [ls ->].
    now rewrite (IH Hin).
  - destruct c; try discriminate. reflexivity.
Qed.

Lemma findE_fieldIs_error k s items e :
  findE (fieldIs k s) items = Throw e → e = "TypeError".
Proof.
  induction items as [|x items IH]; cbn [findE]; [discriminate|].
  destruct (fieldIs k s x) as [[|]|e'] eqn:Hx; [discriminate | exact IH |].
  intros [= <-]. destruct x; try discriminate Hx. now injection Hx.
Qed.

Lemma extractFromBlocks_error JS1 content blocks e :
  extractFromBlocks JS1 content blocks = Throw e → e = "TypeError".
Proof.
  unfold extractFromBlocks.
  destruct (findE (fieldIs "type" "tool_result") blocks) as [a|e1] eqn:H1;
    [|cbn [obind]; intros [= <-]; exact (findE_fieldIs_error _ _ _ _ H1)].
  destruct (findE (fieldIs "type" "text") blocks) as [b|e2] eqn:H2;
    [|cbn [obind]; intros [= <-]; exact (findE_fieldIs_error _ _ _ _ H2)].
  destruct (findE (fieldIs "type" "tool_use") blocks) as [c|e3] eqn:H3;
    [|cbn [obind]; intros [= <-]; exact (findE_fieldIs_error _ _ _ _ H3)].
  discriminate.
Qed.

(** With a [null] among the blocks of the first message, the result
    extraction raises a type error. *)
Lemma responseFrom_null_block JS1 JS2 tid msgs :
  first_blocks_present msgs = false →
  responseFrom JS1 JS2 tid (Arr msgs) (firstItem (Arr msgs)) = Throw "TypeError".
Proof.
  destruct msgs as [|m rest]; [discriminate|].
  cbn [first_blocks_present firstItem]. unfold blocks_present.
  destruct (field m "content") as [[| | | |blocks|]|] eqn:Hcontent; try discriminate.
  intros Hnull.
  assert (Hin : Null ∈ blocks).
  { clear Hcontent. induction blocks as [|c cs IH]; [discriminate|].
    cbn [forallb] in Hnull. apply andb_false_iff in Hnull as [Hc|Hcs].
    - destruct c; try discriminate. left.
    - right. now apply IH. }
  assert (Hm : truthy_value m = true) by (destruct m; try discriminate; reflexivity).
  unfold responseFrom. cbn [truthy ofield]. rewrite Hm, Hcontent.
  cbn [truthy truthy_value andb extractContent].
  destruct (extractFromBlocks JS1 (Arr blocks) blocks) as [d|e] eqn:Hd.
  - cbn [obind]. unfold formatAssistantContent.
    destruct blocks as [|c cs]; [inversion Hin|].
    now rewrite (mapE_blockLines_null JS2 false (c :: cs) Hin).
  - now rewrite (extractFromBlocks_error _ _ _ _ Hd).
Qed.


(** With a [null] among the blocks of the first message of the last
    list, the tool invocation raises a type error after its 12
    attempts. *)
Lemma tool_run_raises_on_null_block
    World (woFetch : Request → World → FetchResult * World) (JS1 JS2 : value → string)
    toolId parameters agentId w log r w1 runData tid msgs :
  woFetch (toolRunRequest JS1 toolId parameters agentId) w = (Responded r, w1) →
  ok r = true →
  json r = Some runData →
  fieldE (Some runData) "thread_id" = Ok (Some tid) →
  truthy_value tid = true →
  forallb toolSilent (pollAnswers woFetch (toolPollRequest tid) 12 w1) = true →
  lastFetched (Arr []) (pollAnswers woFetch (toolPollRequest tid) 12 w1) = Arr msgs →
  first_blocks_present msgs = false →
  fst (invokeToolRemote World woFetch JS1 JS2 toolId parameters agentId (w, log))
  = Throw "TypeError".
Proof.
  intros Hrun Hok Hjson Htid Htruthy Hsilent Hlast Hnull.
  destruct (tool_run_silent woFetch JS1 JS2 toolId parameters agentId w log r w1
              runData tid Hrun Hok Hjson Htid Htruthy Hsilent)
    as (msgs' & w' & Hlast' & _ & ->).
  rewrite Hlast in Hlast'. injection Hlast' as <-.
  now rewrite (responseFrom_null_block JS1 JS2 tid msgs Hnull).
Qed.






(* ===================================================================== *)
(** * Further properties of the compiler and the decompiler *)
(* ===================================================================== *)

Lemma fold_addParameter_required_list ps acc :
  acc_required (fold_left addParameter ps acc)
  = acc_required acc ++ requiredEntries (acc_usedKeys acc) ps.
Proof.
  revert acc. induction ps as [|p ps IH]; intros acc; cbn [fold_left requiredEntries].
  - now rewrite app_nil_r.
  - rewrite IH. unfold addParameter. cbn [acc_required acc_usedKeys].
    destruct (p_required p); [now rewrite <- app_assoc | reflexivity].
Qed.

Lemma requiredEntries_keys used ps k :
  k ∈ requiredEntries used ps → k ∈ map fst (propEntries used ps).
Proof.
  revert used. induction ps as [|p ps IH]; intros used; cbn [requiredEntries propEntries map fst].
  - intros H. inversion H.
  - intros H. apply elem_of_app in H as [H|H].
    + destruct (p_required p); [|inversion H].
      apply list_elem_of_singleton in H as ->. left.
    + right. now apply IH.
Qed.

Lemma wireRequired_paramOfProperty sch k p :
  wireRequired (paramOfProperty sch (k, propSchemaFor k p))
  = (p_name p, paramIn p, bool_decide (k ∈ default [] (is_required sch))).
Proof.
  assert (Hn : p_name (paramOfProperty sch (k, propSchemaFor k p)) = p_name p)
    by exact (f_equal fst (wire_paramOfProperty sch k p)).
  assert (Hi : paramIn (paramOfProperty sch (k, propSchemaFor k p)) = paramIn p)
    by exact (f_equal snd (wire_paramOfProperty sch k p)).
  unfold wireRequired. rewrite Hn, Hi. reflexivity.
Qed.

Lemma wireRequired_propEntries sch ps used :
  NoDup (map fst (propEntries used ps)) →
  (∀ k, k ∈ map fst (propEntries used ps) →
        (k ∈ default [] (is_required sch) ↔ k ∈ requiredEntries used ps)) →
  map wireRequired (map (paramOfProperty sch) (propEntries used ps)) = map wireRequired ps.
Proof.
  revert used. induction ps as [|p ps IH]; intros used Hnd Hreq; [reflexivity|].
  cbn [propEntries map fst requiredEntries] in *.
  set (k := propKeyFor used p) in *.
  apply NoDup_cons in Hnd as [Hk Hnd].
  f_equal.
  - rewrite wireRequired_paramOfProperty. unfold wireRequired. f_equal.
    destruct (p_required p) eqn:Hp.
    + apply bool_decide_eq_true_2. apply Hreq; [left|]. left.
    + apply bool_decide_eq_false_2. intros Hin.
      apply Hreq in Hin; [|left]. cbn [app] in Hin.
      apply Hk. now apply requiredEntries_keys.
  - apply IH; [exact Hnd|].
    intros k' Hk'. rewrite (Hreq k') by now right.
    rewrite elem_of_app. split; [|auto].
    intros [H|H]; [|exact H].
    destruct (p_required p); [|inversion H].
    apply list_elem_of_singleton in H as ->. contradiction.
Qed.

(** X1.  When the keys chosen for the parameters of the compiled operation
    are pairwise distinct and none of them is [__proto__] or an array
    index, compiling the document and decompiling the result gives back
    every parameter, in order, with its wire name, its location and its
    required flag. *)
Theorem roundtrip_keeps_required_flags toolSpec oas :
  NoDup (map fst (propEntries ∅ (operationParameters oas))) →
  forallb plain_key (map fst (propEntries ∅ (operationParameters oas))) = true →
  map wireRequired (operationParameters (skillToOas (buildToolSpec toolSpec oas)))
  = map wireRequired (operationParameters oas).
Proof.
  intros Hnd Hplain. rewrite operationParameters_roundtrip.
  unfold operationParameters, compiledOperation, buildToolSpec in *.
  destruct (oas_paths oas) as [[|[pathKey pathObj] rest]|]; try reflexivity.
  destruct (firstOperation pathObj) as [[m op]|] eqn:Hop; try reflexivity.
  cbn [mbind option_bind bt_input_schema skillParams buildInputSchema is_properties] in *.
  set (ps := default [] (op_parameters op)) in *.
  unfold collectParameters.
  rewrite (fold_addParameter_fresh ps emptyAcc); [| reflexivity | exact Hnd | exact Hplain].
  cbn [acc_properties emptyAcc app acc_usedKeys].
  apply wireRequired_propEntries; [exact Hnd|].
  intros k _. unfold buildInputSchema. cbn [is_required]. fold ps.
  unfold collectParameters. rewrite fold_addParameter_required_list.
  cbn [acc_required emptyAcc app acc_usedKeys].
  destruct (requiredEntries ∅ ps); reflexivity.
Qed.

Lemma roundtrip_keeps_required_flags_witness :
  map wireRequired
    (operationParameters
       (skillToOas (buildToolSpec Examples.weatherMeta
          (Examples.document [("get", Examples.operation Examples.idTwice)]))))
  = [("id", "query", false); ("id", "path", true)].
Proof.
  apply (roundtrip_keeps_required_flags Examples.weatherMeta
           (Examples.document [("get", Examples.operation Examples.idTwice)])).
  - apply (bool_decide_unpack _). vm_compute. exact I.
  - reflexivity.
Defined.

(** ** Decompile, then compile *)

Lemma firstOperation_unsupported m op : m ∉ methods → firstOperation [(m, op)] = None.
Proof.
  unfold methods. rewrite !not_elem_of_cons. intros (H1 & H2 & H3 & H4 & H5 & _).
  apply String.eqb_neq in H1, H2, H3, H4, H5.
  unfold firstOperation. cbn [Obj.get].
  assert (Hnone : list_find (λ m0, is_Some (if String.eqb m m0 then Some op else None))
                    methods = None).
  { apply list_find_None. unfold methods.
    repeat constructor; intros [x Hx]; rewrite ?H1, ?H2, ?H3, ?H4, ?H5 in Hx;
      discriminate. }
  rewrite Hnone. reflexivity.
Qed.

Lemma skillToOas_paths skill :
  ∃ op, oas_paths (skillToOas skill)
        = Some [(decompiledPath skill, [(decompiledMethod skill, op)])].
Proof. eexists. reflexivity. Qed.

(** X2.  A decompiled tool is compiled again with the method and the path
    of its binding when the method, in lower case, is one of get, post,
    put, patch and delete (a missing method counts as GET, a missing or
    empty path as "/"); with any other method the compiler finds no
    operation and the new record has no binding, no input schema and no
    output schema.  In particular a compiled record with a non-empty path
    is compiled again, after decompiling, with the same method and path. *)
Theorem recompile_of_decompiled :
  (∀ toolSpec skill,
      decompiledMethod skill ∈ methods →
      http_method_of (buildToolSpec toolSpec (skillToOas skill))
      = Some (Strs.toUpperCase (decompiledMethod skill))
      ∧ http_path_of (buildToolSpec toolSpec (skillToOas skill))
        = Some (decompiledPath skill))
  ∧ (∀ toolSpec skill,
        decompiledMethod skill ∉ methods →
        bt_binding (buildToolSpec toolSpec (skillToOas skill)) = None
        ∧ bt_input_schema (buildToolSpec toolSpec (skillToOas skill)) = None
        ∧ bt_output_schema (buildToolSpec toolSpec (skillToOas skill)) = None)
  ∧ (∀ toolSpec toolSpec' oas method path,
        http_method_of (buildToolSpec toolSpec oas) = Some method →
        http_path_of (buildToolSpec toolSpec oas) = Some path →
        path ≠ "" →
        http_method_of (buildToolSpec toolSpec' (skillToOas (buildToolSpec toolSpec oas)))
        = Some method
        ∧ http_path_of (buildToolSpec toolSpec' (skillToOas (buildToolSpec toolSpec oas)))
          = Some path).
Proof.
  assert (Hyes : ∀ toolSpec skill,
             decompiledMethod skill ∈ methods →
             http_method_of (buildToolSpec toolSpec (skillToOas skill))
             = Some (Strs.toUpperCase (decompiledMethod skill))
             ∧ http_path_of (buildToolSpec toolSpec (skillToOas skill))
               = Some (decompiledPath skill)).
  { intros toolSpec skill Hm.
    destruct (skillToOas_paths skill) as [op Hpaths].
    unfold http_method_of, http_path_of, buildToolSpec. rewrite Hpaths.
    rewrite (firstOperation_single _ op Hm). split; reflexivity. }
  split; [exact Hyes|]. split.
  - intros toolSpec skill Hm.
    destruct (skillToOas_paths skill) as [op Hpaths].
    unfold buildToolSpec. rewrite Hpaths.
    rewrite (firstOperation_unsupported _ op Hm). repeat split.
  - intros toolSpec toolSpec' oas method path Hmethod Hpath Hne.
    set (spec := buildToolSpec toolSpec oas) in *.
    assert (Hspec : ∃ m, m ∈ methods ∧ method = Strs.toUpperCase m).
    { unfold spec, http_method_of, buildToolSpec in Hmethod.
      destruct (oas_paths oas) as [[|[pathKey pathObj] rest]|]; try discriminate.
      destruct (firstOperation pathObj) as [[m op]|] eqn:Hop; try discriminate.
      apply firstOperation_Some in Hop as [Hm _].
      injection Hmethod as <-. eauto. }
    destruct Hspec as (m & Hm & ->).
    assert (Hdm : decompiledMethod spec = m).
    { unfold decompiledMethod. fold (http_method_of spec). rewrite Hmethod.
      unfold str_or. pose proof (upper_method_nonempty m Hm) as Hu.
      apply String.eqb_neq in Hu. rewrite Hu. now apply lower_upper_method. }
    assert (Hdp : decompiledPath spec = path).
    { unfold decompiledPath. fold (http_path_of spec). rewrite Hpath.
      unfold str_or. apply String.eqb_neq in Hne. now rewrite Hne. }
    destruct (Hyes toolSpec' spec) as [H1 H2]; [now rewrite Hdm|].
    rewrite H1, H2, Hdm, Hdp. split; reflexivity.
Qed.

Lemma recompile_of_decompiled_witness :
  (http_method_of (buildToolSpec Examples.weatherMeta (skillToOas (Samples.skillWith "Post")))
   = Some "POST"
   ∧ http_path_of (buildToolSpec Examples.weatherMeta (skillToOas (Samples.skillWith "Post")))
     = Some "/items")
  ∧ bt_binding (buildToolSpec Examples.weatherMeta (skillToOas (Samples.skillWith "OPTIONS")))
    = None
  ∧ http_method_of
      (buildToolSpec Examples.weatherMeta
         (skillToOas (buildToolSpec Examples.weatherMeta Examples.weatherOas)))
    = Some "GET".
Proof.
  split; [|split].
  - apply (proj1 recompile_of_decompiled Examples.weatherMeta (Samples.skillWith "Post")).
    apply (bool_decide_unpack _). vm_compute. exact I.
  - apply (proj1 (proj2 recompile_of_decompiled) Examples.weatherMeta
             (Samples.skillWith "OPTIONS")).
    apply (bool_decide_unpack _). vm_compute. exact I.
  - apply (proj2 (proj2 recompile_of_decompiled) Examples.weatherMeta Examples.weatherMeta
             Examples.weatherOas "GET" "/current.json").
    + reflexivity.
    + reflexivity.
    + discriminate.
Defined.
Lemma map_flattenServer_urls urls :
  map flattenServer (map (fun u => ServerObject (Some u)) urls)
  = map (fun u => Some (ServerString u)) urls.
Proof. induction urls as [|u urls IH]; simpl; [reflexivity | now rewrite IH]. Qed.

Lemma str_or_opt_idem c : str_or_opt (str_or_opt c None) None = str_or_opt c None.
Proof.
  destruct c as [s|]; [|reflexivity]. simpl.
  destruct (String.eqb s "") eqn:Hs; simpl; [reflexivity | now rewrite Hs].
Qed.

(** X3.  Copying a tool keeps the environment of its binding.  When a
    bound record whose method is supported is decompiled and compiled
    again, the new binding has the non-empty server URLs of the old one
    (https://httpbin.org when there is none), the security array of the old
    one when that is a non-empty array (an empty array otherwise), and the
    connection identifier of the old one when that is a non-empty string
    (none otherwise). *)
Theorem copy_keeps_binding_environment toolSpec skill b :
  bt_binding skill = Some b →
  decompiledMethod skill ∈ methods →
  ∃ b',
    bt_binding (buildToolSpec toolSpec (skillToOas skill)) = Some b'
    ∧ b_servers b' = Some (copiedServers (b_servers b))
    ∧ b_security b'
      = Some (Arr (match b_security b with
                   | Some (Arr (e :: es)) => e :: es
                   | _ => []
                   end))
    ∧ b_connection_id b' = str_or_opt (b_connection_id b) None.
Proof.
  intros Hb Hm.
  assert (Hp : ∃ op, op_security op = None
                     ∧ oas_paths (skillToOas skill)
                       = Some [(decompiledPath skill, [(decompiledMethod skill, op)])])
    by (eexists; split; [|reflexivity]; reflexivity).
  destruct Hp as (op & Hsec & Hpaths).
  unfold buildToolSpec. rewrite Hpaths, (firstOperation_single _ op Hm).
  eexists. split; [reflexivity|]. cbn [bt_binding].
  unfold buildBinding. cbn [b_servers b_security b_connection_id].
  split; [|split].
  - f_equal. unfold copiedServers. cbn [skillToOas oas_servers].
    rewrite Hb. cbn [mbind option_bind].
    destruct (omap serverUrl (default [] (b_servers b))) as [|u urls];
      [reflexivity | apply (map_flattenServer_urls (u :: urls))].
  - do 2 f_equal. unfold deriveBindingSecurity. rewrite Hsec.
    cbn [skillToOas oas_x_ibm_security oas_binding_security oas_security
         oas_securitySchemes].
    rewrite Hb. cbn [mbind option_bind].
    destruct (b_security b) as [[| | | s | [|e es] | ]|]; try reflexivity.
    cbn [hasLength]. destruct (String.eqb s ""); reflexivity.
  - cbn [skillToOas oas_x_ibm_connection_id oas_binding_connection_id].
    rewrite Hb. cbn [mbind option_bind].
    destruct (str_or_opt (b_connection_id b) None) as [c|] eqn:Hc.
    + rewrite <- Hc. apply str_or_opt_idem.
    + reflexivity.
Qed.

Lemma copy_keeps_binding_environment_witness :
  ∃ b',
    bt_binding (buildToolSpec Examples.weatherMeta (skillToOas Samples.connectedSkill))
    = Some b'
    ∧ b_servers b' = Some [Some (ServerString "https://api.weatherapi.com/v1")]
    ∧ b_security b' = Some (Arr [Samples.apiKeyEntry])
    ∧ b_connection_id b' = Some "conn-1".
Proof.
  apply (copy_keeps_binding_environment Examples.weatherMeta Samples.connectedSkill
           (mkBinding (Some "GET") (Some "/current.json")
              (Some (Arr [Samples.apiKeyEntry]))
              (Some [Some (ServerString "https://api.weatherapi.com/v1"); None])
              (Some "conn-1"))).
  - reflexivity.
  - apply (bool_decide_unpack _). vm_compute. exact I.
Defined.
(** ** The shape of the compiled properties *)

Lemma str_or_nonempty s d : d ≠ "" → str_or s d ≠ "".
Proof.
  intros Hd. unfold str_or. destruct s as [x|]; [|exact Hd].
  destruct (String.eqb_spec x ""); [exact Hd | assumption].
Qed.

Lemma propKeyFor_cases used p :
  propKeyFor used p = p_name p ∨ propKeyFor used p = paramIn p +:+ "_" +:+ p_name p.
Proof. unfold propKeyFor. case_bool_decide; auto. Qed.

Lemma fold_addParameter_shape ps acc k s :
  Obj.get (acc_properties (fold_left addParameter ps acc)) k = Some s →
  Obj.get (acc_properties acc) k = Some s
  ∨ ∃ p, p ∈ ps ∧ s = propSchemaFor k p
         ∧ (k = p_name p ∨ k = paramIn p +:+ "_" +:+ p_name p).
Proof.
  revert acc. induction ps as [|p ps IH]; intros acc; cbn [fold_left]; [auto|].
  intros H. apply IH in H as [H|(q & Hq & Hs & Hk)].
  - unfold addParameter in H. cbn [acc_properties] in H.
    set (key := propKeyFor (acc_usedKeys acc) p) in *.
    rewrite get_assign in H.
    destruct (String.eqb key "__proto__"); [now left|].
    destruct (String.eqb_spec key k) as [<-|Hne]; [|now left].
    injection H as <-.
    right. exists p. split; [left|]. split; [reflexivity|].
    apply propKeyFor_cases.
  - right. exists q. split; [now right | auto].
Qed.

(** X4.  Every property of the input schema of a compiled record comes
    from a parameter of the compiled operation and carries a non-empty
    [in] (the location of that parameter, query when it gives none) and a
    non-empty [type].  Its key is either the wire name of the parameter,
    and then it has no [aliasName], or the location, an underscore and the
    wire name, and then its [aliasName] is the wire name. *)
Theorem compiled_properties_shape toolSpec oas sch k ps :
  bt_input_schema (buildToolSpec toolSpec oas) = Some sch →
  Obj.get (default [] (is_properties sch)) k = Some ps →
  ∃ p, p ∈ operationParameters oas
       ∧ ps_in ps = Some (paramIn p) ∧ paramIn p ≠ ""
       ∧ (∃ ty, ps_type ps = Some ty ∧ ty ≠ "")
       ∧ ((k = p_name p ∧ ps_aliasName ps = None)
          ∨ (k = paramIn p +:+ "_" +:+ p_name p ∧ ps_aliasName ps = Some (p_name p))).
Proof.
  unfold buildToolSpec, operationParameters, compiledOperation.
  destruct (oas_paths oas) as [[|[pathKey pathObj] rest]|]; try discriminate.
  destruct (firstOperation pathObj) as [[m op]|]; try discriminate.
  cbn [bt_input_schema mbind option_bind]. intros [= <-].
  unfold buildInputSchema. cbn [is_properties default]. unfold id, collectParameters.
  intros H. apply fold_addParameter_shape in H as [H|(p & Hp & -> & Hk)]; [discriminate|].
  exists p. split; [exact Hp|]. split; [reflexivity|]. split; [apply paramIn_nonempty|].
  split.
  - eexists. split; [reflexivity|]. now apply str_or_nonempty.
  - cbn [propSchemaFor ps_aliasName]. destruct Hk as [->| ->].
    + left. now rewrite bool_decide_eq_true_2.
    + right. split; [reflexivity|].
      rewrite bool_decide_eq_false_2; [reflexivity | apply prefixed_key_differs].
Qed.

Lemma compiled_properties_shape_witness :
  ∃ p, p ∈ Examples.idTwice
       ∧ ps_in (propSchemaFor "path_id" (Examples.param "id" "path" true)) = Some (paramIn p)
       ∧ paramIn p ≠ ""
       ∧ (∃ ty, ps_type (propSchemaFor "path_id" (Examples.param "id" "path" true)) = Some ty
                ∧ ty ≠ "")
       ∧ (("path_id" = p_name p
           ∧ ps_aliasName (propSchemaFor "path_id" (Examples.param "id" "path" true)) = None)
          ∨ ("path_id" = paramIn p +:+ "_" +:+ p_name p
             ∧ ps_aliasName (propSchemaFor "path_id" (Examples.param "id" "path" true))
               = Some (p_name p))).
Proof.
  apply (compiled_properties_shape Examples.weatherMeta
           (Examples.document [("get", Examples.operation Examples.idTwice)])
           (buildInputSchema (Examples.operation Examples.idTwice)) "path_id"
           (propSchemaFor "path_id" (Examples.param "id" "path" true)));
    reflexivity.
Defined.

(** ** The security of the binding *)

Lemma flattenScheme_complete scheme e :
  e ∈ flattenScheme scheme → complete_security_entry e.
Proof.
  unfold flattenScheme. destruct scheme as [sc|]; [|intros H; inversion H].
  case_bool_decide.
  - intros He. apply list_elem_of_singleton in He as ->. left.
    eexists; eexists. split; [|split; [|reflexivity]];
      apply str_or_nonempty; discriminate.
  - destruct (bool_decide (ss_type sc = Some "http") || bool_decide (ss_scheme sc = Some "bearer"));
      [|intros He; inversion He].
    intros He. apply list_elem_of_singleton in He as ->. right.
    eexists; eexists. split; [|split; [|reflexivity]];
      apply str_or_nonempty; discriminate.
Qed.

Lemma flattenScheme_gives_entry sc e :
  e ∈ flattenScheme (Some sc) → gives_entry sc = true.
Proof.
  unfold flattenScheme, gives_entry.
  destruct (bool_decide (ss_type sc = Some "apiKey")); [reflexivity|].
  cbn [orb].
  destruct (bool_decide (ss_type sc = Some "http") || bool_decide (ss_scheme sc = Some "bearer"));
    [reflexivity | intros H; inversion H].
Qed.

Lemma flattenScheme_other sc : gives_entry sc = false → flattenScheme (Some sc) = [].
Proof.
  unfold flattenScheme, gives_entry. intros H.
  apply orb_false_iff in H as [H Hb]. apply orb_false_iff in H as [Ha Hh].
  now rewrite Ha, Hh, Hb.
Qed.

Lemma deriveBindingSecurity_derived oas op :
  no_explicit_security oas →
  deriveBindingSecurity oas op
  = flat_map (λ ref, flattenScheme (referredScheme oas ref)) (securityRefs oas op).
Proof.
  intros Hno. unfold deriveBindingSecurity, securityRefs, referredScheme.
  assert (Hrefs :
    match nullish (nullish (op_security op) (oas_security oas)) (Some (Arr [])) with
    | Some (Arr refs) =>
        flat_map (λ ref, match firstKeyOfRef ref with
                         | None => []
                         | Some name =>
                             flattenScheme
                               (lookupScheme (default [] (oas_securitySchemes oas)) name)
                         end) refs
    | _ => []
    end
    = flat_map (λ ref, flattenScheme
                         match firstKeyOfRef ref with
                         | Some name =>
                             lookupScheme (default [] (oas_securitySchemes oas)) name
                         | None => None
                         end)
        match nullish (nullish (op_security op) (oas_security oas)) (Some (Arr [])) with
        | Some (Arr refs) => refs
        | _ => []
        end).
  { destruct (nullish (nullish (op_security op) (oas_security oas)) (Some (Arr [])))
      as [[| | | | refs |]|]; try reflexivity.
    induction refs as [|ref refs IH]; [reflexivity|].
    cbn [flat_map]. rewrite IH. now destruct (firstKeyOfRef ref). }
  destruct (nullish (oas_x_ibm_security oas) (oas_binding_security oas))
    as [[| | | | [|a l] |]|] eqn:Hx; try exact Hrefs.
  exfalso. exact (Hno a l Hx).
Qed.

(** X5.  The security array of a binding.  A non-empty array under
    [x-ibm-security] (or, when that is missing, under
    [binding.openapi.security]) is taken as it is.  Otherwise every
    entry comes from a security requirement of the operation (of the
    document, when the operation has none) and from the scheme declared
    under the first key of that requirement, whose type is apiKey or
    http or whose scheme is bearer, and it is complete: either type
    apiKey with a non-empty [in] and [name], or type http with a
    non-empty [scheme] and [name].  When no requirement refers to a
    declared scheme of one of these three kinds, the array is empty. *)
Theorem derived_security_entries :
  (∀ oas op e es,
      nullish (oas_x_ibm_security oas) (oas_binding_security oas) = Some (Arr (e :: es)) →
      deriveBindingSecurity oas op = e :: es)
  ∧ (∀ oas op e,
        no_explicit_security oas →
        e ∈ deriveBindingSecurity oas op →
        complete_security_entry e
        ∧ ∃ ref sc,
            ref ∈ securityRefs oas op
            ∧ referredScheme oas ref = Some sc
            ∧ gives_entry sc = true
            ∧ flattenScheme (Some sc) = [e])
  ∧ (∀ oas op,
        no_explicit_security oas →
        (∀ ref sc, ref ∈ securityRefs oas op → referredScheme oas ref = Some sc →
                   gives_entry sc = false) →
        deriveBindingSecurity oas op = []).
Proof.
  split; [|split].
  - intros oas op e es H. unfold deriveBindingSecurity. now rewrite H.
  - intros oas op e Hno. rewrite (deriveBindingSecurity_derived oas op Hno).
    intros H. apply list_elem_of_In, in_flat_map in H as (ref & Href & He).
    apply list_elem_of_In in Href, He.
    split; [eapply flattenScheme_complete; exact He|].
    destruct (referredScheme oas ref) as [sc|] eqn:Hsc; [|inversion He].
    exists ref, sc. split; [exact Href|]. split; [exact Hsc|].
    split; [exact (flattenScheme_gives_entry sc e He)|].
    revert He. unfold flattenScheme.
    destruct (bool_decide (ss_type sc = Some "apiKey"));
      [intros He; apply list_elem_of_singleton in He as ->; reflexivity|].
    destruct (bool_decide (ss_type sc = Some "http") || bool_decide (ss_scheme sc = Some "bearer"));
      [intros He; apply list_elem_of_singleton in He as ->; reflexivity|].
    intros He. inversion He.
  - intros oas op Hno Hother. rewrite (deriveBindingSecurity_derived oas op Hno).
    induction (securityRefs oas op) as [|ref refs IH]; [reflexivity|].
    cbn [flat_map]. rewrite IH by (intros r sc Hr; apply Hother; now right).
    rewrite app_nil_r.
    destruct (referredScheme oas ref) as [sc|] eqn:Hsc; [|reflexivity].
    apply flattenScheme_other. eapply Hother; [left | exact Hsc].
Qed.

Lemma derived_security_entries_witness :
  complete_security_entry Samples.apiKeyEntry
  ∧ deriveBindingSecurity Samples.oauthDocument (Examples.operation []) = [].
Proof.
  split.
  - apply (proj1 (proj2 derived_security_entries) Samples.schemeDocument
             (Examples.operation []) Samples.apiKeyEntry).
    + intros e es. discriminate.
    + vm_compute. left.
  - apply (proj2 (proj2 derived_security_entries) Samples.oauthDocument
             (Examples.operation [])).
    + intros e es. discriminate.
    + intros ref sc Href. vm_compute in Href.
      apply elem_of_cons in Href as [->|Href];
        [|apply list_elem_of_singleton in Href as ->];
        vm_compute; [intros [= <-]; reflexivity | discriminate].
Defined.

(** ** Documents without an operation *)

Lemma firstOperation_none pathObj :
  (∀ m, m ∈ methods → Obj.get pathObj m = None) → firstOperation pathObj = None.
Proof.
  intros H. unfold firstOperation.
  assert (Hnone : list_find (λ m, is_Some (Obj.get pathObj m)) methods = None).
  { apply list_find_None, Forall_forall. intros m Hm [x Hx].
    rewrite (H m Hm) in Hx. discriminate. }
  now rewrite Hnone.
Qed.

(** X6.  A document without [paths], with no path, or whose first path
    declares none of get, post, put, patch and delete compiles to a record
    without binding, input schema and output schema, whatever the later
    paths declare; the record still has the name of the tool and a
    permission. *)
Theorem no_operation_no_binding toolSpec oas :
  oas_paths oas = None
  ∨ oas_paths oas = Some []
  ∨ (∃ pathKey pathObj others,
        oas_paths oas = Some ((pathKey, pathObj) :: others)
        ∧ ∀ m, m ∈ methods → Obj.get pathObj m = None) →
  bt_binding (buildToolSpec toolSpec oas) = None
  ∧ bt_input_schema (buildToolSpec toolSpec oas) = None
  ∧ bt_output_schema (buildToolSpec toolSpec oas) = None
  ∧ bt_name (buildToolSpec toolSpec oas) = tm_name toolSpec
  ∧ bt_permission (buildToolSpec toolSpec oas)
    = Some (str_or (tm_permission toolSpec) "read_write").
Proof.
  unfold buildToolSpec.
  intros [-> | [-> | (pathKey & pathObj & others & -> & H)]].
  - repeat split.
  - repeat split.
  - rewrite (firstOperation_none pathObj H). repeat split.
Qed.

Lemma no_operation_no_binding_witness :
  bt_binding (buildToolSpec Examples.weatherMeta Samples.headFirst) = None
  ∧ bt_input_schema (buildToolSpec Examples.weatherMeta Samples.headFirst) = None
  ∧ bt_output_schema (buildToolSpec Examples.weatherMeta Samples.headFirst) = None
  ∧ bt_name (buildToolSpec Examples.weatherMeta Samples.headFirst) = Some "get_weather"
  ∧ bt_permission (buildToolSpec Examples.weatherMeta Samples.headFirst)
    = Some "read_write".
Proof.
  apply (no_operation_no_binding Examples.weatherMeta Samples.headFirst).
  right. right.
  exists "/status", [("head", Examples.operation [])],
    [("/current.json", [("get", Examples.operation [Examples.param "q" "query" true])])].
  split; [reflexivity|].
  intros m Hm. unfold methods in Hm. rewrite !elem_of_cons in Hm.
  destruct Hm as [->|[->|[->|[->|[->|Hm]]]]]; try reflexivity. inversion Hm.
Defined.
(* ===================================================================== *)
(** * Further properties of the write-back of table edits *)
(* ===================================================================== *)

Lemma field_setField_eq fs k x : field (setField (Obj fs) k x) k = Some x.
Proof. apply get_set_eq. Qed.

Lemma field_setField_ne v k x k' : k ≠ k' → field (setField v k x) k' = field v k'.
Proof. intros Hne. destruct v; try reflexivity. now apply get_set_ne. Qed.

Lemma field_unsetField_eq v k : field (unsetField v k) k = None.
Proof.
  destruct v; try reflexivity. cbn [unsetField field].
  induction fields as [|[k0 v0] fs IH]; [reflexivity|].
  rewrite filter_cons. cbn [fst].
  destruct (String.eqb_spec k0 k) as [->|Hne].
  - rewrite decide_False by (simpl; discriminate). exact IH.
  - rewrite decide_True by reflexivity. cbn [Obj.get].
    apply String.eqb_neq in Hne. now rewrite Hne.
Qed.

Lemma field_unsetField_ne v k k' : k ≠ k' → field (unsetField v k) k' = field v k'.
Proof.
  intros Hne. destruct v; try reflexivity. cbn [unsetField field].
  induction fields as [|[k0 v0] fs IH]; [reflexivity|].
  rewrite filter_cons. cbn [fst].
  destruct (String.eqb_spec k0 k) as [->|Hk].
  - rewrite decide_False by (simpl; discriminate). cbn [Obj.get].
    apply String.eqb_neq in Hne. now rewrite Hne.
  - rewrite decide_True by reflexivity. cbn [Obj.get]. now rewrite IH.
Qed.

Section WriteBackFacts.
Variable numericLiteral : string → option value.

Lemma schemaRowStep_required acc row :
  (∀ k, k ∈ snd acc → k ∈ Obj.keys (fst acc)) →
  ∀ k, k ∈ snd (schemaRowStep numericLiteral acc row) →
       k ∈ Obj.keys (fst (schemaRowStep numericLiteral acc row)).
Proof.
  intros Hacc k. unfold schemaRowStep.
  destruct (schemaRowKey row) as [key|] eqn:Hkey; [|apply Hacc].
  cbn [fst snd]. intros Hk. apply keys_assign.
  destruct (default false (row_required row)); [|right; now apply Hacc].
  apply elem_of_app in Hk as [Hk|Hk]; [right; now apply Hacc|].
  apply list_elem_of_singleton in Hk as ->. left. split; [reflexivity|].
  apply schemaRowKey_Some in Hkey as (_ & -> & _). apply sanitizeKey_not_proto.
Qed.

Lemma schemaRows_required_gen rows acc :
  (∀ k, k ∈ snd acc → k ∈ Obj.keys (fst acc)) →
  ∀ k, k ∈ snd (fold_left (schemaRowStep numericLiteral) rows acc) →
       k ∈ Obj.keys (fst (fold_left (schemaRowStep numericLiteral) rows acc)).
Proof.
  revert acc. induction rows as [|row rows IH]; intros acc Hacc; [exact Hacc|].
  cbn [fold_left]. apply IH. now apply schemaRowStep_required.
Qed.

Lemma schemaRows_required rows k :
  k ∈ snd (schemaRows numericLiteral rows) →
  k ∈ Obj.keys (fst (schemaRows numericLiteral rows)).
Proof. apply schemaRows_required_gen. intros k' H. inversion H. Qed.
End WriteBackFacts.

(** X7.  Writing back a table of the [schema] format to a document whose
    [input_schema] is an object, or is missing or falsy, touches the
    parameters only.  Afterwards [input_schema.properties] holds the
    properties of the rows; [input_schema.required] is missing when no
    kept row is required, and otherwise is an array of keys of those
    properties; every other field of [input_schema], and every other field
    of the document, is as it was. *)
Theorem schema_write_back_frame
    (numericLiteral : string → option value) (doc : list (string * value)) (tbl : Table) :
  let out := applySchemaTable numericLiteral (Obj doc) tbl in
  let props := fst (schemaRows numericLiteral (tbl_rows tbl)) in
  let required := snd (schemaRows numericLiteral (tbl_rows tbl)) in
  (truthy (Obj.get doc "input_schema") = false
   ∨ ∃ fs, Obj.get doc "input_schema" = Some (Obj fs)) →
  ofield (field out "input_schema") "properties" = Some (Obj props)
  ∧ ofield (field out "input_schema") "required"
    = match required with
      | [] => None
      | _ => Some (Arr (map Str required))
      end
  ∧ (∀ k, k ∈ required → k ∈ Obj.keys props)
  ∧ (∀ k, k ≠ "input_schema" → field out k = Obj.get doc k)
  ∧ (∀ fs k, Obj.get doc "input_schema" = Some (Obj fs) →
       k ≠ "properties" → k ≠ "required" →
       ofield (field out "input_schema") k = Obj.get fs k).
Proof.
  intros out props required Hin.
  assert (Hreq : ∀ k, k ∈ required → k ∈ Obj.keys props)
    by (intros k; apply schemaRows_required).
  assert (Hshape : ∃ base,
             (∀ fs, Obj.get doc "input_schema" = Some (Obj fs) → base = fs)
             ∧ out = setField
                       (if truthy (Obj.get doc "input_schema") then Obj doc
                        else setField (Obj doc) "input_schema"
                               (Obj [("type", Str "object"); ("properties", Obj [])]))
                       "input_schema"
                       (match required with
                        | [] => unsetField (setField (Obj base) "properties" (Obj props))
                                  "required"
                        | _ => setField (setField (Obj base) "properties" (Obj props))
                                 "required" (Arr (map Str required))
                        end)).
  { subst out props required. unfold applySchemaTable. cbn [field].
    destruct (schemaRows numericLiteral (tbl_rows tbl)) as [ps rq]. cbn [fst snd].
    destruct Hin as [Hf|[fs Hfs]].
    - rewrite Hf. exists [("type", Str "object"); ("properties", Obj [])].
      split.
      + intros fs Hfs. rewrite Hfs in Hf. discriminate.
      + cbn [setField field]. rewrite get_set_eq. reflexivity.
    - rewrite Hfs. cbn [truthy truthy_value field default]. unfold id.
      rewrite Hfs. exists fs. split; [|reflexivity].
      intros fs' [= ->]. reflexivity. }
  destruct Hshape as (base & Hbase & Hout).
  assert (Hfield : field out "input_schema"
                   = Some (match required with
                           | [] => unsetField (setField (Obj base) "properties" (Obj props))
                                     "required"
                           | _ => setField (setField (Obj base) "properties" (Obj props))
                                    "required" (Arr (map Str required))
                           end)).
  { rewrite Hout. destruct (truthy (Obj.get doc "input_schema"));
      cbn [setField]; apply get_set_eq. }
  split; [|split; [|split; [exact Hreq|split]]].
  - rewrite Hfield. cbn [ofield]. destruct required.
    + rewrite field_unsetField_ne by discriminate. apply field_setField_eq.
    + rewrite field_setField_ne by discriminate. apply field_setField_eq.
  - rewrite Hfield. cbn [ofield]. destruct required.
    + apply field_unsetField_eq.
    + cbn [setField]. apply get_set_eq.
  - intros k Hk. rewrite Hout.
    rewrite field_setField_ne by congruence.
    destruct (truthy (Obj.get doc "input_schema")); [reflexivity|].
    rewrite field_setField_ne by congruence. reflexivity.
  - intros fs k Hfs Hk1 Hk2. rewrite Hfield. cbn [ofield].
    rewrite (Hbase fs Hfs).
    destruct required.
    + rewrite field_unsetField_ne by congruence.
      rewrite field_setField_ne by congruence. reflexivity.
    + rewrite !field_setField_ne by congruence. reflexivity.
Qed.

Lemma schema_write_back_frame_witness :
  field (applySchemaTable Examples.noNumbers (Obj Samples2.boundDocument) Examples.schemaTable)
    "name" = Some (Str "list_items")
  ∧ ofield (field (applySchemaTable Examples.noNumbers (Obj Samples2.boundDocument)
                     Examples.schemaTable) "input_schema") "additionalProperties"
    = Some (Bool false).
Proof.
  destruct (schema_write_back_frame Examples.noNumbers Samples2.boundDocument
              Examples.schemaTable) as (_ & _ & _ & Hdoc & Hschema).
  - right. eexists. reflexivity.
  - split.
    + apply Hdoc. discriminate.
    + apply (Hschema _ "additionalProperties" eq_refl); discriminate.
Defined.


(* ===================================================================== *)
(** * Further properties of the remote invocation *)
(* ===================================================================== *)

Section RunFacts.
Context {World : Type}.
Variable woFetch : Request → World → FetchResult * World.
Variables JS1 JS2 : value → string.

Lemma agentPoll_at_least_once url n w log :
  ∃ k, (1 ≤ k ≤ S n)%nat
       ∧ snd (snd (agentPoll World woFetch JS1 JS2 url (S n) (w, log)))
         = log ++ pollEvents agentPollDelay (mkRequest url (Some "GET") None) k.
Proof.
  rewrite agentPoll_S. cbv zeta.
  assert (Hone : ∀ (o : outcome AgentRun) (w' : World),
             ∃ k, (1 ≤ k ≤ S n)%nat
                  ∧ snd (snd (o, (w', log ++ pollEvents agentPollDelay
                                            (mkRequest url (Some "GET") None) 1)))
                    = log ++ pollEvents agentPollDelay
                               (mkRequest url (Some "GET") None) k).
  { intros o w'. exists 1%nat. split; [lia | reflexivity]. }
  assert (Hrec : ∀ w' : World,
             ∃ k, (1 ≤ k ≤ S n)%nat
                  ∧ snd (snd (agentPoll World woFetch JS1 JS2 url n
                                (w', log ++ pollEvents agentPollDelay
                                              (mkRequest url (Some "GET") None) 1)))
                    = log ++ pollEvents agentPollDelay
                               (mkRequest url (Some "GET") None) k).
  { intros w'. destruct (agentPoll_bound woFetch JS1 JS2 url n w'
      (log ++ pollEvents agentPollDelay (mkRequest url (Some "GET") None) 1))
      as (k & Hk & ->).
    exists (S k). split; [lia|]. now rewrite <- app_assoc. }
  destruct (woFetch (mkRequest url (Some "GET") None) w) as [[msg|r] w']; [apply Hone|].
  destruct (ok r); [|apply Hrec].
  destruct (json r) as [data|]; [|apply Hone].
  destruct (fieldE (Some data) "data") as [dd|e]; [|apply Hone].
  destruct (default Null (or_else dd (Some data))); try apply Hrec.
  destruct (lastAssistant items) as [[m|]|e]; [apply Hone | apply Hrec | apply Hone].
Qed.
End RunFacts.

(** X9.  A tool run that is not accepted is never polled.  When the
    request that submits the run is answered with a status outside
    200..299, [invokeToolRemote] throws "Run failed (status): body"; when
    it is answered with a body without a truthy [thread_id], it throws
    "No thread_id returned from run.", followed by the body.  In both
    cases the submission is the only request made. *)
Theorem tool_run_not_accepted :
  (∀ World (woFetch : Request → World → FetchResult * World) (JS1 JS2 : value → string)
     toolId parameters agentId w log r w1,
      woFetch (toolRunRequest JS1 toolId parameters agentId) w = (Responded r, w1) →
      ok r = false →
      invokeToolRemote World woFetch JS1 JS2 toolId parameters agentId (w, log)
      = (Throw ("Run failed (" +:+ string_of_Z (status r) +:+ "): " +:+ text r),
         (w1, log ++ [EvFetch (toolRunRequest JS1 toolId parameters agentId)])))
  ∧ (∀ World (woFetch : Request → World → FetchResult * World) (JS1 JS2 : value → string)
       toolId parameters agentId w log r w1 runData,
        woFetch (toolRunRequest JS1 toolId parameters agentId) w = (Responded r, w1) →
        ok r = true →
        json r = Some runData →
        runData ≠ Null →
        truthy (field runData "thread_id") = false →
        invokeToolRemote World woFetch JS1 JS2 toolId parameters agentId (w, log)
        = (Throw ("No thread_id returned from run. Response: " +:+ JS1 runData),
           (w1, log ++ [EvFetch (toolRunRequest JS1 toolId parameters agentId)]))).
Proof.
  split.
  - intros World woFetch JS1 JS2 toolId parameters agentId w log r w1 Hrun Hok.
    unfold invokeToolRemote, toolRunRequest in *.
    unfold bind at 1. unfold fetch at 1. rewrite Hrun, Hok. reflexivity.
  - intros World woFetch JS1 JS2 toolId parameters agentId w log r w1 runData
      Hrun Hok Hjson Hnull Htid.
    unfold invokeToolRemote, toolRunRequest in *.
    unfold bind at 1. unfold fetch at 1. rewrite Hrun, Hok. cbn [negb].
    unfold bind at 1. unfold jsonOf. rewrite Hjson. unfold ret at 1.
    unfold bind at 1. unfold lift at 1.
    assert (Hf : fieldE (Some runData) "thread_id" = Ok (field runData "thread_id"))
      by (destruct runData; try congruence; reflexivity).
    rewrite Hf, Htid. reflexivity.
Qed.

Lemma tool_run_not_accepted_witness :
  fst (invokeToolRemote unit (Examples.constantService 404) Examples.noStringify
         Examples.noStringify "tool" [] None (tt, []))
  = Throw "Run failed (404): "
  ∧ requestsOf
      (snd (snd (invokeToolRemote unit (Samples3.acceptingService (Obj [])) Examples.noStringify
                   Examples.noStringify "tool" [] None (tt, []))))
    = [toolRunRequest Examples.noStringify "tool" [] None].
Proof.
  split.
  - rewrite (proj1 tool_run_not_accepted unit (Examples.constantService 404)
               Examples.noStringify Examples.noStringify "tool" [] None tt []
               (mkHttpResponse 404 "" None) tt eq_refl eq_refl).
    reflexivity.
  - rewrite (proj2 tool_run_not_accepted unit (Samples3.acceptingService (Obj []))
               Examples.noStringify Examples.noStringify "tool" [] None tt []
               (mkHttpResponse 200 "{}" (Some (Obj []))) tt (Obj [])
               eq_refl eq_refl eq_refl).
    + reflexivity.
    + discriminate.
    + reflexivity.
Defined.

(** X10.  An agent run that is not accepted is never polled: when the
    submission is answered with a status outside 200..299, [invokeAgent]
    throws "Failed to start run: status body", and when the body of the
    answer is not JSON it throws "Failed to parse run response: body"; the
    submission is then the only request made.  A run that is accepted
    without a [thread_id] is polled all the same: between one and fifteen
    times, at the messages of the thread "undefined". *)
Theorem agent_run_not_accepted :
  (∀ World (woFetch : Request → World → FetchResult * World) (JS1 JS2 : value → string)
     agentId message w log r w1,
      woFetch (agentRunRequest agentId message) w = (Responded r, w1) →
      ok r = false →
      invokeAgent World woFetch JS1 JS2 agentId message (w, log)
      = (Throw ("Failed to start run: " +:+ string_of_Z (status r) +:+ " " +:+ text r),
         (w1, log ++ [EvFetch (agentRunRequest agentId message)])))
  ∧ (∀ World (woFetch : Request → World → FetchResult * World) (JS1 JS2 : value → string)
       agentId message w log r w1,
        woFetch (agentRunRequest agentId message) w = (Responded r, w1) →
        ok r = true →
        json r = None →
        invokeAgent World woFetch JS1 JS2 agentId message (w, log)
        = (Throw ("Failed to parse run response: " +:+ text r),
           (w1, log ++ [EvFetch (agentRunRequest agentId message)])))
  ∧ (∀ World (woFetch : Request → World → FetchResult * World) (JS1 JS2 : value → string)
       agentId message w log r w1 runData,
        woFetch (agentRunRequest agentId message) w = (Responded r, w1) →
        ok r = true →
        json r = Some runData →
        runData ≠ Null →
        field runData "thread_id" = None →
        ∃ k, (1 ≤ k ≤ 15)%nat
             ∧ snd (snd (invokeAgent World woFetch JS1 JS2 agentId message (w, log)))
               = log ++ EvFetch (agentRunRequest agentId message)
                     :: pollEvents 2000
                          (mkRequest "/v1/orchestrate/threads/undefined/messages"
                             (Some "GET") None) k).
Proof.
  split; [|split].
  - intros World woFetch JS1 JS2 agentId message w log r w1 Hrun Hok.
    unfold invokeAgent, agentRunRequest in *.
    unfold bind at 1. unfold fetch at 1. rewrite Hrun, Hok. reflexivity.
  - intros World woFetch JS1 JS2 agentId message w log r w1 Hrun Hok Hjson.
    unfold invokeAgent, agentRunRequest in *.
    unfold bind at 1. unfold fetch at 1. rewrite Hrun, Hok, Hjson. reflexivity.
  - intros World woFetch JS1 JS2 agentId message w log r w1 runData
      Hrun Hok Hjson Hnull Htid.
    rewrite (invokeAgent_accepted woFetch JS1 JS2 _ _ _ _ _ _ _ Hrun Hok Hjson Hnull).
    rewrite Htid.
    destruct (agentPoll_at_least_once woFetch JS1 JS2 (threadMessagesUrl None) 14 w1
                (log ++ [EvFetch (agentRunRequest agentId message)]))
      as (k & Hk & Hlog).
    exists k. split; [exact Hk|].
    change agentMaxAttempts with 15%nat. rewrite Hlog, <- app_assoc. reflexivity.
Qed.

Lemma agent_run_not_accepted_witness :
  fst (invokeAgent unit (Examples.constantService 500) Examples.noStringify
         Examples.noStringify "agent" "hello" (tt, []))
  = Throw "Failed to start run: 500 "
  ∧ fst (invokeAgent unit (Examples.constantService 200) Examples.noStringify
           Examples.noStringify "agent" "hello" (tt, []))
    = Throw "Failed to parse run response: "
  ∧ ∃ k, (1 ≤ k ≤ 15)%nat
         ∧ snd (snd (invokeAgent unit (Samples3.acceptingService (Obj []))
                       Examples.noStringify Examples.noStringify "agent" "hello" (tt, [])))
           = [] ++ EvFetch (agentRunRequest "agent" "hello")
               :: pollEvents 2000
                    (mkRequest "/v1/orchestrate/threads/undefined/messages"
                       (Some "GET") None) k.
Proof.
  split; [|split].
  - rewrite (proj1 agent_run_not_accepted unit (Examples.constantService 500)
               Examples.noStringify Examples.noStringify "agent" "hello" tt []
               (mkHttpResponse 500 "" None) tt eq_refl eq_refl).
    reflexivity.
  - rewrite (proj1 (proj2 agent_run_not_accepted) unit (Examples.constantService 200)
               Examples.noStringify Examples.noStringify "agent" "hello" tt []
               (mkHttpResponse 200 "" None) tt eq_refl eq_refl eq_refl).
    reflexivity.
  - apply (proj2 (proj2 agent_run_not_accepted) unit (Samples3.acceptingService (Obj []))
             Examples.noStringify Examples.noStringify "agent" "hello" tt []
             (mkHttpResponse 200 "{}" (Some (Obj []))) tt (Obj [])).
    + reflexivity.
    + reflexivity.
    + reflexivity.
    + discriminate.
    + reflexivity.
Defined.
(** ** What is taken from the content of the assistant's message *)

Lemma fieldIs_present k s c : not_null c = true → fieldIs k s c = Ok (is_str (field c k) s).
Proof. destruct c; simpl; try discriminate; reflexivity. Qed.

Lemma is_str_not_null k s c : is_str (field c k) s = true → not_null c = true.
Proof. destruct c; simpl; try discriminate; reflexivity. Qed.

Lemma findE_none_of k s items :
  forallb (λ c, not_null c && negb (is_str (field c k) s)) items = true →
  findE (fieldIs k s) items = Ok None.
Proof.
  induction items as [|x items IH]; simpl; [reflexivity|].
  intros H. apply andb_true_iff in H as [Hx Hitems].
  apply andb_true_iff in Hx as [Hnn Hx]. apply negb_true_iff in Hx.
  now rewrite (fieldIs_present k s x Hnn), Hx, IH.
Qed.

Lemma findE_first_of k s before x after :
  forallb (λ c, not_null c && negb (is_str (field c k) s)) before = true →
  is_str (field x k) s = true →
  findE (fieldIs k s) (before ++ x :: after) = Ok (Some x).
Proof.
  intros Hb Hx. induction before as [|y before IH]; simpl.
  - now rewrite (fieldIs_present k s x (is_str_not_null k s x Hx)), Hx.
  - simpl in Hb. apply andb_true_iff in Hb as [Hy Hb].
    apply andb_true_iff in Hy as [Hnn Hy]. apply negb_true_iff in Hy.
    rewrite (fieldIs_present k s y Hnn), Hy. auto.
Qed.

Lemma forallb_other_not_null t blocks :
  forallb (other_block t) blocks = true → forallb not_null blocks = true.
Proof.
  apply forallb_impl. intros c H. unfold other_block in H.
  now apply andb_true_iff in H as [H _].
Qed.

(** X11.  What [invokeToolRemote] takes from a list of content blocks.
    The first block of type tool_result takes precedence over every text
    and tool_use block, wherever they stand: the datum is its [content],
    else its [output], else its [result], else the block itself.  Without
    a tool_result block, the datum is the text of the first block of type
    text when that text is a string. *)
Theorem tool_result_takes_precedence (JS1 : value → string) :
  (∀ content before r after,
      forallb (other_block "tool_result") before = true →
      is_str (field r "type") "tool_result" = true →
      forallb not_null after = true →
      extractFromBlocks JS1 content (before ++ r :: after) = Ok (resultOf r))
  ∧ (∀ content before t after s,
        forallb (other_block "tool_result") (before ++ t :: after) = true →
        forallb (other_block "text") before = true →
        is_str (field t "type") "text" = true →
        field t "text" = Some (Str s) →
        extractFromBlocks JS1 content (before ++ t :: after) = Ok (Str s)).
Proof.
  split.
  - intros content before r after Hb Hr Ha.
    assert (Hnn : forallb not_null (before ++ r :: after) = true).
    { rewrite forallb_app. cbn [forallb].
      rewrite (forallb_other_not_null _ _ Hb), (is_str_not_null _ _ _ Hr), Ha.
      reflexivity. }
    unfold extractFromBlocks.
    rewrite (findE_first_of "type" "tool_result" before r after Hb Hr).
    destruct (findE_total "type" "text" _ Hnn) as [tb ->].
    destruct (findE_total "type" "tool_use" _ Hnn) as [tu ->].
    reflexivity.
  - intros content before t after s Hall Hb Ht Htext.
    pose proof (forallb_other_not_null _ _ Hall) as Hnn.
    unfold extractFromBlocks.
    rewrite (findE_none_of "type" "tool_result" _ Hall).
    rewrite (findE_first_of "type" "text" before t after Hb Ht).
    destruct (findE_total "type" "tool_use" _ Hnn) as [tu ->].
    cbn [obind]. now rewrite Htext.
Qed.

Lemma tool_result_takes_precedence_witness :
  extractFromBlocks Examples.noStringify (Arr Samples4.blocks) Samples4.blocks
  = Ok (Str "22 C")
  ∧ extractFromBlocks Examples.noStringify (Arr [Samples4.textBlock]) [Samples4.textBlock]
    = Ok (Str "It is 22 C in Toronto.").
Proof.
  split.
  - apply (proj1 (tool_result_takes_precedence Examples.noStringify)
             (Arr Samples4.blocks) [Samples4.textBlock; Samples4.toolUse]
             Samples4.toolResult []); reflexivity.
  - apply (proj2 (tool_result_takes_precedence Examples.noStringify)
             (Arr [Samples4.textBlock]) [] Samples4.textBlock [] "It is 22 C in Toronto.");
      reflexivity.
Defined.

(** ** The reasoning trace *)


(** ** The response of an agent chat *)

Lemma nonempty_or_nonempty a b : b ≠ "" → nonempty_or a b ≠ "".
Proof.
  intros Hb. unfold nonempty_or.
  destruct (String.eqb_spec a ""); [exact Hb | assumption].
Qed.






(* ===================================================================== *)
(** * Further properties of the update of a tool *)
(* ===================================================================== *)

Lemma letter_or_digit c :
  negb (Chars.is_letter_or_underscore (if Chars.is_word c then c else "_"%char))
  = Chars.is_digit c.
Proof. destruct c as [[] [] [] [] [] [] [] []]; reflexivity. Qed.

Lemma letter_is_no_digit c :
  Chars.is_letter_or_underscore c = true → Chars.is_digit c = false.
Proof. destruct c as [[] [] [] [] [] [] [] []]; intros H; try reflexivity; discriminate. Qed.

Lemma drop_while_empty p s : Strs.drop_while p s = "" ↔ Strs.forallb p s = true.
Proof.
  induction s as [|c s IH]; simpl; [tauto|].
  destruct (p c); simpl; [exact IH | split; discriminate].
Qed.

Lemma forallb_replace_outside_digits s :
  Strs.forallb (λ c, negb (Chars.is_letter_or_underscore c))
    (Strs.replace_outside Chars.is_word "_" s)
  = Strs.forallb Chars.is_digit s.
Proof.
  induction s as [|c s IH]; simpl; [reflexivity|].
  unfold Strs.replace_outside in IH. now rewrite IH, letter_or_digit.
Qed.

Lemma starts_with_letter_no_digit s :
  starts_with (λ c, negb (Chars.is_letter_or_underscore c)) s = false →
  starts_with Chars.is_digit s = false.
Proof.
  destruct s as [|c s]; simpl; [reflexivity|].
  intros H. apply negb_false_iff in H. now apply letter_is_no_digit.
Qed.

Lemma get_copyIfTruthy_ne sj k payload k' :
  k ≠ k' → Obj.get (copyIfTruthy sj k payload) k' = Obj.get payload k'.
Proof.
  intros Hne. unfold copyIfTruthy.
  destruct (field sj k) as [v|]; [|reflexivity].
  destruct (truthy_value v); [now apply get_set_ne | reflexivity].
Qed.

Lemma updatePayload_fields sj payload :
  updatePayload (Some sj) = Ok payload →
  ∃ p0, namePayload sj = Ok p0
        ∧ Obj.get payload "name" = Obj.get p0 "name"
        ∧ Obj.get payload "permission"
          = Some (default Null (or_else (field sj "permission") (Some (Str "read_write")))).
Proof.
  intros H.
  assert (Hgen : obind (namePayload sj)
            (λ p0, Ok (copyIfTruthy sj "tags"
                         (copyIfTruthy sj "restrictions"
                            (Obj.set
                               (copyIfTruthy sj "description"
                                  (copyIfTruthy sj "display_name" p0))
                               "permission"
                               (default Null
                                  (or_else (field sj "permission")
                                     (Some (Str "read_write"))))))))
          = Ok payload).
  { destruct sj; try exact H. discriminate. }
  destruct (namePayload sj) as [p0|e]; [|discriminate].
  cbn [obind] in Hgen. injection Hgen as <-.
  exists p0. split; [reflexivity|]. split.
  - rewrite !get_copyIfTruthy_ne by discriminate.
    rewrite get_set_ne by discriminate.
    now rewrite !get_copyIfTruthy_ne by discriminate.
  - rewrite !get_copyIfTruthy_ne by discriminate. apply get_set_eq.
Qed.

(** X14.  The name sent in an update is made of letters, digits and
    underscores only and does not start with a digit: every other
    character of the name in the document becomes an underscore, and the
    digits at its start are dropped.  It is the empty string exactly when
    the name in the document consists of digits only. *)
Theorem sent_tool_name_is_identifier :
  (∀ name,
      Strs.forallb Chars.is_word (sanitizeToolName name) = true
      ∧ starts_with Chars.is_digit (sanitizeToolName name) = false)
  ∧ (∀ name, sanitizeToolName name = "" ↔ Strs.forallb Chars.is_digit name = true)
  ∧ (∀ skillJson payload v,
        updatePayload skillJson = Ok payload →
        Obj.get payload "name" = Some v →
        ∃ s, v = Str s
             ∧ Strs.forallb Chars.is_word s = true
             ∧ starts_with Chars.is_digit s = false).
Proof.
  assert (Hid : ∀ name,
             Strs.forallb Chars.is_word (sanitizeToolName name) = true
             ∧ starts_with Chars.is_digit (sanitizeToolName name) = false).
  { intros name. unfold sanitizeToolName. split.
    - apply forallb_drop_while, forallb_replace_outside. reflexivity.
    - apply starts_with_letter_no_digit, starts_with_drop_while. }
  split; [exact Hid|]. split.
  - intros name. unfold sanitizeToolName.
    now rewrite drop_while_empty, forallb_replace_outside_digits.
  - intros skillJson payload v Hp Hv.
    destruct skillJson as [sj|]; [|discriminate].
    apply updatePayload_fields in Hp as (p0 & Hp0 & Hname & _).
    rewrite Hname in Hv. unfold namePayload in Hp0.
    destruct (field sj "name") as [[| b | n | s | items | fs]|];
      try (injection Hp0 as <-; discriminate).
    + destruct (truthy_value (Bool b)); [discriminate | injection Hp0 as <-; discriminate].
    + destruct (truthy_value (Num n)); [discriminate | injection Hp0 as <-; discriminate].
    + injection Hp0 as <-. destruct (String.eqb s ""); [discriminate|].
      cbn in Hv. injection Hv as <-. exists (sanitizeToolName s).
      split; [reflexivity | apply Hid].
    + discriminate.
    + discriminate.
Qed.

Lemma sent_tool_name_is_identifier_witness :
  sanitizeToolName "2024" = ""
  ∧ ∃ s, Str "get_weather" = Str s
         ∧ Strs.forallb Chars.is_word s = true
         ∧ starts_with Chars.is_digit s = false.
Proof.
  split.
  - apply (proj1 (proj2 sent_tool_name_is_identifier)). reflexivity.
  - apply (proj2 (proj2 sent_tool_name_is_identifier) (Some Examples.editedSkill)
             [("name", Str "get_weather"); ("display_name", Str "Weather");
              ("permission", Str "read_write"); ("tags", Arr [Str "demo"])]);
      reflexivity.
Defined.

(** X15.  Every update sends a permission: the payload has the key
    [permission], with the permission of the document when that is truthy
    and with "read_write" otherwise.  The commands that activate and
    deactivate a tool pass a document with the permission alone, and the
    payload is that document. *)
Theorem update_always_sends_permission :
  (∀ sj payload,
      updatePayload (Some sj) = Ok payload →
      ∃ v, Obj.get payload "permission" = Some v
           ∧ truthy_value v = true
           ∧ (truthy (field sj "permission") = true → field sj "permission" = Some v)
           ∧ (truthy (field sj "permission") = false → v = Str "read_write"))
  ∧ (∀ state, state ≠ "" →
       updatePayload (Some (Obj [("permission", Str state)]))
       = Ok [("permission", Str state)]).
Proof.
  split.
  - intros sj payload Hp.
    apply updatePayload_fields in Hp as (p0 & _ & _ & Hperm).
    eexists. split; [exact Hperm|]. unfold or_else.
    destruct (truthy (field sj "permission")) eqn:Ht.
    + destruct (field sj "permission") as [v|]; [|discriminate].
      cbn [default]. unfold id. repeat split; [exact Ht | discriminate].
    + repeat split; discriminate.
  - intros state Hne. apply String.eqb_neq in Hne.
    unfold updatePayload, namePayload, copyIfTruthy, or_else.
    cbn [field Obj.get String.eqb Ascii.eqb Bool.eqb obind truthy truthy_value].
    rewrite Hne. reflexivity.
Qed.

Lemma update_always_sends_permission_witness :
  (∃ v, Obj.get [("name", Str "get_weather"); ("display_name", Str "Weather");
                 ("permission", Str "read_write"); ("tags", Arr [Str "demo"])]
          "permission" = Some v
        ∧ truthy_value v = true
        ∧ (truthy (field Examples.editedSkill "permission") = true →
           field Examples.editedSkill "permission" = Some v)
        ∧ (truthy (field Examples.editedSkill "permission") = false →
           v = Str "read_write"))
  ∧ updatePayload (Some (Obj [("permission", Str "read_only")]))
    = Ok [("permission", Str "read_only")].
Proof.
  split.
  - apply (proj1 update_always_sends_permission Examples.editedSkill). reflexivity.
  - apply (proj2 update_always_sends_permission). discriminate.
Defined.
(* ===================================================================== *)
(** * Further properties of the generation of documents *)
(* ===================================================================== *)

Lemma forallb_replace_outside_weak (keep q : ascii → bool) r s :
  (∀ c, keep c = true → q c = true) → q r = true →
  Strs.forallb q (Strs.replace_outside keep r s) = true.
Proof.
  intros Hkeep Hr. induction s as [|c s IH]; simpl; [reflexivity|].
  unfold Strs.replace_outside in IH. rewrite IH, andb_true_r.
  destruct (keep c) eqn:Hc; [now apply Hkeep | exact Hr].
Qed.

Lemma forallb_collapse_spaces (q : ascii → bool) r s :
  q r = true →
  Strs.forallb (λ c, Chars.is_space c || q c) s = true →
  ∀ in_run, Strs.forallb q (Strs.collapse_spaces_from in_run r s) = true.
Proof.
  intros Hr. induction s as [|c s IH]; simpl; [reflexivity|].
  intros H in_run. apply andb_true_iff in H as [Hc Hs].
  destruct (Chars.is_space c) eqn:Hsp.
  - destruct in_run; simpl; rewrite ?Hr; now apply IH.
  - simpl in Hc. simpl. rewrite Hc. now apply IH.
Qed.

Lemma forallb_nonempty_or q a b :
  Strs.forallb q a = true → Strs.forallb q b = true → Strs.forallb q (nonempty_or a b) = true.
Proof. intros Ha Hb. unfold nonempty_or. now destruct (String.eqb a ""). Qed.

Lemma alnum_is_word c : Chars.is_alnum c = true → Chars.is_word c = true.
Proof. unfold Chars.is_alnum, Chars.is_word. intros ->. reflexivity. Qed.

(** X16.  The operation identifier and the summary generated from the
    path of a URL are never empty.  The identifier is made of letters,
    digits and underscores only; the summary is made of letters, digits
    and spaces only. *)
Theorem generated_operation_names (path : string) :
  pathToOperationId path ≠ ""
  ∧ Strs.forallb Chars.is_word (pathToOperationId path) = true
  ∧ pathToSummary path ≠ ""
  ∧ Strs.forallb (λ c, Chars.is_alnum c || Ascii.eqb c " ") (pathToSummary path) = true.
Proof.
  split; [|split; [|split]].
  - apply nonempty_or_nonempty. discriminate.
  - apply forallb_nonempty_or; [|reflexivity].
    apply forallb_replace_outside_weak; [apply alnum_is_word | reflexivity].
  - apply nonempty_or_nonempty. discriminate.
  - apply forallb_nonempty_or; [|reflexivity].
    apply forallb_drop_while_end, forallb_drop_while.
    apply forallb_collapse_spaces; [reflexivity|].
    apply forallb_replace_outside_weak.
    + intros c Hc. apply orb_true_iff in Hc as [Hc|Hc].
      * now rewrite Hc, !orb_true_r.
      * now rewrite Hc.
    + reflexivity.
Qed.

(** ** The inferred schema *)

(** The properties assigned from the entries of a sample whose keys are
    distinct and hold no array index: one for each entry, in order, but
    none for the key [__proto__]. *)
Lemma fold_assign_fresh {A B} (f : A → B) fs acc :
  NoDup (Obj.keys acc ++ Obj.keys fs) →
  forallb (λ k, negb (is_array_index k)) (Obj.keys fs) = true →
  fold_left (λ props (kv : string * A),
               let '(key, v) := kv in assignProperty props key (f v)) fs acc
  = acc ++ map (λ kv : string * A, (fst kv, f (snd kv)))
             (List.filter (λ kv, negb (String.eqb (fst kv) "__proto__")) fs).
Proof.
  revert acc. induction fs as [|[k v] fs IH]; intros acc Hnd Hidx;
    cbn [fold_left List.filter fst snd].
  - now rewrite app_nil_r.
  - unfold Obj.keys in Hidx. cbn [map fst forallb] in Hidx.
    apply andb_true_iff in Hidx as [Hk Hidx].
    assert (Hfresh : k ∉ Obj.keys acc).
    { apply NoDup_app in Hnd as (_ & Hdisj & _). intros Hin. apply (Hdisj _ Hin). left. }
    assert (Hrest : NoDup (Obj.keys acc ++ Obj.keys fs)).
    { unfold Obj.keys in *. cbn [map fst] in Hnd.
      apply NoDup_app in Hnd as (Ha & Hdisj & Hfs). apply NoDup_cons in Hfs as [_ Hfs].
      apply NoDup_app. split; [exact Ha|]. split; [|exact Hfs].
      intros x Hx Hx'. apply (Hdisj x Hx). now right. }
    destruct (String.eqb_spec k "__proto__") as [->|Hproto]; cbn [negb].
    + rewrite assign_proto. now apply IH.
    + assert (Hplain : plain_key k = true).
      { unfold plain_key. apply String.eqb_neq in Hproto. now rewrite Hproto, Hk. }
      rewrite (assign_plain acc k (f v) Hplain), (set_fresh acc k (f v) Hfresh).
      rewrite IH; [cbn [map fst snd]; now rewrite <- app_assoc | | exact Hidx].
      unfold Obj.keys in *. cbn [map fst] in Hnd.
      rewrite map_app, <- app_assoc. exact Hnd.
Qed.

(** X17.  The schema inferred from a sample (whose numbers are integers)
    is always an object with a [type] that is one of string, integer,
    boolean, array and object, so the fall-back schema of the generation
    handlers is never needed.  The schema of an object whose keys are
    distinct and hold no array index has exactly one property for each
    key of the sample other than [__proto__], in the order of the sample:
    the schema inferred from the value of that key, with a description
    that quotes the value when it is a string longer than ten characters.
    A key [__proto__] of the sample gets no property. *)
Theorem inferred_schema_shape :
  (∀ data, ∃ fs t,
      inferSchema data = Obj fs
      ∧ Obj.get fs "type" = Some (Str t)
      ∧ t ∈ ["string"; "integer"; "boolean"; "array"; "object"])
  ∧ (∀ fs, NoDup (Obj.keys fs) →
       forallb (λ k, negb (is_array_index k)) (Obj.keys fs) = true →
       inferSchema (Obj fs)
       = Obj [("type", Str "object");
              ("properties",
               Obj (map (λ kv, (fst kv, withExample (snd kv) (inferSchema (snd kv))))
                      (List.filter (λ kv, negb (String.eqb (fst kv) "__proto__")) fs)))]).
Proof.
  split.
  - intros data. destruct data; cbn [inferSchema]; eexists; eexists;
      (split; [reflexivity|]); (split; [reflexivity|]);
      rewrite !elem_of_cons; tauto.
  - intros fs Hnd Hidx. cbn [inferSchema]. do 4 f_equal.
    rewrite (fold_assign_fresh (λ v, withExample v (inferSchema v)) fs []);
      [reflexivity | exact Hnd | exact Hidx].
Qed.

Lemma inferred_schema_shape_witness :
  inferSchema (Obj [("location", Obj [("name", Str "Toronto")]);
                    ("__proto__", Obj [("admin", Bool true)]);
                    ("temp_c", Num 3)])
  = Obj [("type", Str "object");
         ("properties",
          Obj [("location",
                Obj [("type", Str "object");
                     ("properties", Obj [("name", Obj [("type", Str "string")])])]);
               ("temp_c", Obj [("type", Str "integer")])])].
Proof.
  apply (proj2 inferred_schema_shape
           [("location", Obj [("name", Str "Toronto")]);
            ("__proto__", Obj [("admin", Bool true)]);
            ("temp_c", Num 3)]).
  - apply (bool_decide_unpack _). vm_compute. exact I.
  - reflexivity.
Defined.

(** ** Generate, then compile *)

Lemma apiKeyParamOf_nonempty configured : apiKeyParamOf configured ≠ "".
Proof. unfold apiKeyParamOf. apply nonempty_or_nonempty. discriminate. Qed.

Lemma secNameOf_nonempty names configured :
  secNameOf names (apiKeyParamOf configured) ≠ "".
Proof.
  unfold secNameOf.
  destruct (hasApiKeyParamIn names (apiKeyParamOf configured)
            && bool_decide (apiKeyParamOf configured ∈ names));
    [apply apiKeyParamOf_nonempty|].
  destruct (hasApiKeyParamIn names (apiKeyParamOf configured));
    [apply str_or_nonempty|]; apply apiKeyParamOf_nonempty.
Qed.

Lemma str_or_same s d : s ≠ "" → str_or (Some s) d = s.
Proof. intros H. unfold str_or. apply String.eqb_neq in H. now rewrite H. Qed.

Lemma compile_assembled toolSpec env url u pathKey methodKey parameters schema
    names configured b :
  bt_binding (buildToolSpec toolSpec
                (assembleOas env url u pathKey methodKey parameters schema names configured))
  = Some b →
  methodKey ∈ methods
  ∧ b_http_method b = Some (Strs.toUpperCase methodKey)
  ∧ b_http_path b = Some pathKey
  ∧ b_servers b = Some [Some (ServerString (origin u))]
  ∧ b_connection_id b = None
  ∧ b_security b
    = Some (Arr (if hasApiKeyParamIn names (apiKeyParamOf configured)
                 then [Obj [("type", Str "apiKey"); ("in", Str "query");
                            ("name", Str (secNameOf names (apiKeyParamOf configured)))]]
                 else [])).
Proof.
  unfold buildToolSpec. cbn [assembleOas oas_paths].
  destruct (decide (methodKey ∈ methods)) as [Hm|Hm].
  - rewrite (firstOperation_single _ _ Hm). cbn [bt_binding]. intros [= <-].
    split; [exact Hm|]. repeat split.
    cbn [buildBinding b_security]. do 2 f_equal.
    unfold deriveBindingSecurity, assembleOas.
    cbn [oas_x_ibm_security oas_binding_security nullish
      op_security oas_security oas_securitySchemes].
    destruct (hasApiKeyParamIn names (apiKeyParamOf configured)); [|reflexivity].
    cbn [default nullish flat_map firstKeyOfRef Obj.keys map fst head lookupScheme
         str_nullish Obj.get String.eqb Ascii.eqb Bool.eqb app flattenScheme ss_type ss_in
         ss_name].
    unfold id. cbn [Obj.get String.eqb Ascii.eqb Bool.eqb].
    unfold flattenScheme. cbn [ss_type ss_in ss_name].
    rewrite (bool_decide_eq_true_2 _ eq_refl).
    rewrite (str_or_same _ _ (secNameOf_nonempty names configured)). reflexivity.
  - rewrite (firstOperation_unsupported _ _ Hm). discriminate.
Qed.

Lemma generated_from_url env message o :
  generated (generateOaS env message) = Some o →
  ∃ u method parameters schema,
    env_url env = Some u ∧ g_method message = Some method
    ∧ o = assembleOas env (g_url message) u (pathname u) (Strs.toLowerCase method)
            parameters schema
            (Obj.keys (default [] (g_params message))) (g_apiKeyParamName message).
Proof.
  unfold generateOaS.
  destruct (env_url env) as [u|]; [|discriminate].
  destruct (g_method message) as [m|]; [|discriminate].
  simpl. intros [= <-]. eauto 10.
Qed.

Lemma fetched_from_url env statusText response message o :
  fetched (fetchAndGenerate env statusText response message) = Some o →
  ∃ u parameters schema,
    env_url env = Some u
    ∧ o = assembleOas env (g_url message) u (nonempty_or (pathname u) "/")
            (Strs.toLowerCase
               (Strs.toUpperCase (Strs.trim (str_or (g_method message) "GET"))))
            parameters schema
            (Obj.keys (default [] (g_params message))) (g_apiKeyParamName message).
Proof.
  unfold fetchAndGenerate.
  destruct (negb (ok response)); [discriminate|].
  destruct (env_url env) as [u|]; [|discriminate].
  simpl. intros [= <-]. eauto 10.
Qed.

(** X18.  What a generated document compiles to.  Whichever of the two
    handlers generated the document, a binding compiled from it has the
    origin of the URL as its only server, no connection, and a security
    array that holds one entry of type apiKey in query, named after the
    parameter that was recognised as the API key, when there is such a
    parameter, and that is empty when there is none.  The document of
    [generateOaS] compiles to a binding whenever the method of the
    request, in lower case, is one of get, post, put, patch and delete,
    with that method in upper case and the path of the URL. *)
Theorem generated_document_compiles :
  (∀ toolSpec env statusText response message o b,
      generated (generateOaS env message) = Some o
      ∨ fetched (fetchAndGenerate env statusText response message) = Some o →
      bt_binding (buildToolSpec toolSpec o) = Some b →
      b_security b = Some (Arr (generatedSecurity message))
      ∧ b_connection_id b = None
      ∧ ∃ u, env_url env = Some u ∧ b_servers b = Some [Some (ServerString (origin u))])
  ∧ (∀ toolSpec env message o u method,
        generated (generateOaS env message) = Some o →
        env_url env = Some u →
        g_method message = Some method →
        Strs.toLowerCase method ∈ methods →
        http_method_of (buildToolSpec toolSpec o)
        = Some (Strs.toUpperCase (Strs.toLowerCase method))
        ∧ http_path_of (buildToolSpec toolSpec o) = Some (pathname u)).
Proof.
  split.
  - intros toolSpec env statusText response message o b Ho Hb.
    assert (∃ u pathKey methodKey parameters schema,
               env_url env = Some u
               ∧ o = assembleOas env (g_url message) u pathKey methodKey parameters schema
                       (Obj.keys (default [] (g_params message)))
                       (g_apiKeyParamName message))
      as (u & pathKey & methodKey & parameters & schema & Hu & ->).
    { destruct Ho as [Ho|Ho].
      - apply generated_from_url in Ho as (u & m & ps & sch & Hu & _ & ->). eauto 10.
      - apply fetched_from_url in Ho as (u & ps & sch & Hu & ->). eauto 10. }
    apply compile_assembled in Hb as (_ & _ & _ & Hservers & Hconn & Hsec).
    split; [exact Hsec|]. split; [exact Hconn|]. eauto.
  - intros toolSpec env message o u method Ho Hu Hmethod Hm.
    apply generated_from_url in Ho as (u' & m' & ps & sch & Hu' & Hm' & ->).
    rewrite Hu in Hu'. injection Hu' as <-.
    rewrite Hmethod in Hm'. injection Hm' as <-.
    unfold http_method_of, http_path_of, buildToolSpec. cbn [assembleOas oas_paths].
    rewrite (firstOperation_single _ _ Hm). split; reflexivity.
Qed.

Lemma generated_document_compiles_witness :
  ∃ o, generated (generateOaS Examples.weatherEnv Examples.weatherMessage) = Some o
       ∧ http_method_of (buildToolSpec Examples.weatherMeta o) = Some "GET"
       ∧ http_path_of (buildToolSpec Examples.weatherMeta o) = Some "/v1/current.json"
       ∧ ∀ b, bt_binding (buildToolSpec Examples.weatherMeta o) = Some b →
              b_security b = Some (Arr [Samples.apiKeyEntry]).
Proof.
  eexists. split; [reflexivity|].
  split; [|split].
  - apply (proj2 generated_document_compiles Examples.weatherMeta Examples.weatherEnv
             Examples.weatherMessage _
             (mkURL "https://api.weatherapi.com" "/v1/current.json" "api.weatherapi.com")
             "GET"); try reflexivity.
    apply (bool_decide_unpack _). vm_compute. exact I.
  - apply (proj2 generated_document_compiles Examples.weatherMeta Examples.weatherEnv
             Examples.weatherMessage _
             (mkURL "https://api.weatherapi.com" "/v1/current.json" "api.weatherapi.com")
             "GET"); try reflexivity.
    apply (bool_decide_unpack _). vm_compute. exact I.
  - intros b Hb.
    apply (proj1 generated_document_compiles Examples.weatherMeta Examples.weatherEnv
             "OK" Examples.weatherResponse Examples.weatherMessage _ b
             (or_introl eq_refl) Hb).
Defined.
(* ===================================================================== *)
(** * The validator on the documents the extension makes *)
(* ===================================================================== *)

Lemma get_app {A} (a b : list (string * A)) k :
  Obj.get (a ++ b) k = match Obj.get a k with Some v => Some v | None => Obj.get b k end.
Proof.
  induction a as [|[k' v'] a IH]; simpl; [reflexivity|].
  destruct (String.eqb k' k); [reflexivity | exact IH].
Qed.

Lemma get_entry k' (v : option value) k :
  Obj.get (entry k' v) k = if String.eqb k' k then v else None.
Proof. destruct v; simpl; destruct (String.eqb k' k); reflexivity. Qed.

Lemma jsonOfOpenApi_fields o :
  ∃ fs, jsonOfOpenApi o = Obj fs
        ∧ Obj.get fs "openapi" = Str <$> oas_openapi o
        ∧ Obj.get fs "info" = jsonOfInfo <$> oas_info o
        ∧ isArray (Obj.get fs "servers") = is_defined (Obj.get fs "servers")
        ∧ (is_defined (Obj.get fs "paths") = true →
           typeof_is_object (Obj.get fs "paths") = true
           ∧ isArray (Obj.get fs "paths") = false)
        ∧ Obj.get fs "binding" = jsonOfOasBinding o.
Proof.
  eexists. split; [reflexivity|].
  rewrite !get_app, !get_entry. cbn [String.eqb Ascii.eqb Bool.eqb].
  split; [|split; [|split; [|split]]].
  - now destruct (oas_openapi o).
  - destruct (oas_openapi o); [|now destruct (oas_info o)]. cbn. now destruct (oas_info o).
  - destruct (oas_openapi o), (oas_info o), (oas_servers o); reflexivity.
  - destruct (oas_openapi o), (oas_info o), (oas_servers o), (oas_paths o);
      cbn; intros H; try discriminate; split; reflexivity.
  - destruct (oas_openapi o), (oas_info o), (oas_servers o), (oas_paths o),
      (oas_securitySchemes o), (oas_security o), (oas_x_ibm_security o),
      (oas_x_ibm_connection_id o); reflexivity.
Qed.

Lemma jsonOfInfo_fields i :
  field (jsonOfInfo i) "title" = Str <$> i_title i
  ∧ field (jsonOfInfo i) "version" = Str <$> i_version i.
Proof.
  unfold jsonOfInfo. cbn [field].
  rewrite !get_app, !get_entry. cbn [String.eqb Ascii.eqb Bool.eqb].
  split; [now destruct (i_title i)|].
  destruct (i_title i); [|now destruct (i_version i)]. cbn. now destruct (i_version i).
Qed.

(** A typed document that has [openapi], [info.title] and [info.version]
    and is not a bound record passes the validator. *)
Lemma validateOas_typed_document o v i t ver :
  oas_openapi o = Some v → v ≠ "" →
  oas_info o = Some i →
  i_title i = Some t → t ≠ "" →
  i_version i = Some ver →
  jsonOfOasBinding o = None →
  validateOas (Some (jsonOfOpenApi o)) = [].
Proof.
  intros Hv Hvne Hi Ht Htne Hver Hb.
  destruct (jsonOfOpenApi_fields o) as (fs & -> & Hopenapi & Hinfo & Hservers & Hpaths & Hbinding).
  destruct (jsonOfInfo_fields i) as [Htitle Hversion].
  rewrite Hv in Hopenapi. rewrite Hi in Hinfo. rewrite Hb in Hbinding.
  rewrite Ht in Htitle. rewrite Hver in Hversion.
  apply String.eqb_neq in Hvne, Htne.
  unfold validateOas. cbn [truthy truthy_value typeof_is_object typeof negb orb ofield field].
  cbn [String.eqb Ascii.eqb Bool.eqb]. rewrite Hbinding. cbn [ofield truthy andb].
  unfold validateOpenApi. cbn [ofield field].
  rewrite Hopenapi, Hinfo. cbn [fmap option_fmap option_map ofield truthy truthy_value typeof].
  rewrite Hvne, Htitle, Hversion.
  cbn [fmap option_fmap option_map truthy truthy_value is_nullish negb push_if app
       String.eqb Ascii.eqb Bool.eqb].
  rewrite Htne. cbn [negb push_if app].
  rewrite Hservers.
  destruct (is_defined (Obj.get fs "servers")); cbn [negb andb push_if app];
    rewrite ?app_nil_r.
  - destruct (is_defined (Obj.get fs "paths")) eqn:Hp; [|reflexivity].
    destruct (Hpaths eq_refl) as [-> ->]. reflexivity.
  - destruct (is_defined (Obj.get fs "paths")) eqn:Hp; [|reflexivity].
    destruct (Hpaths eq_refl) as [-> ->]. reflexivity.
Qed.

Lemma append_nonempty a b : b ≠ "" → a +:+ b ≠ "".
Proof.
  intros Hb H. apply (f_equal String.length) in H.
  rewrite length_append in H. destruct b; [congruence | simpl in H; lia].
Qed.

(** X19.  The documents the extension makes pass its own validator: the
    OpenAPI document decompiled from any bound record, and the document
    either generation handler posts, get no report from [validateOas]. *)
Theorem made_documents_pass_validation :
  (∀ skill, validateOas (Some (jsonOfOpenApi (skillToOas skill))) = [])
  ∧ (∀ env statusText response message o,
        generated (generateOaS env message) = Some o
        ∨ fetched (fetchAndGenerate env statusText response message) = Some o →
        validateOas (Some (jsonOfOpenApi o)) = []).
Proof.
  split.
  - intros skill.
    eapply (validateOas_typed_document (skillToOas skill) "3.0.1" _ _ _);
      try reflexivity; try discriminate.
    apply append_nonempty. discriminate.
  - intros env statusText response message o Ho.
    assert (∃ u pathKey methodKey parameters schema,
               o = assembleOas env (g_url message) u pathKey methodKey parameters schema
                     (Obj.keys (default [] (g_params message)))
                     (g_apiKeyParamName message))
      as (u & pathKey & methodKey & parameters & schema & ->).
    { destruct Ho as [Ho|Ho];
        [eapply generated_assembled | eapply fetched_assembled]; eassumption. }
    eapply (validateOas_typed_document _ "3.0.1" _ _ "1.0.0");
      try reflexivity; try discriminate.
    apply str_or_nonempty. discriminate.
Qed.

Lemma made_documents_pass_validation_witness :
  ∃ o, generated (generateOaS Examples.weatherEnv Examples.weatherMessage) = Some o
       ∧ validateOas (Some (jsonOfOpenApi o)) = [].
Proof.
  eexists. split; [reflexivity|].
  apply (proj2 made_documents_pass_validation Examples.weatherEnv "OK"
           Examples.weatherResponse Examples.weatherMessage).
  left. reflexivity.
Defined.
Lemma jsonOfBoundTool_fields t :
  ∃ fs, jsonOfBoundTool t = Obj fs
        ∧ Obj.get fs "name" = Str <$> bt_name t
        ∧ Obj.get fs "display_name" = Str <$> bt_display_name t
        ∧ Obj.get fs "binding" = jsonOfBinding <$> bt_binding t
        ∧ Obj.get fs "input_schema" = jsonOfInputSchema <$> bt_input_schema t
        ∧ (bt_info_version t = None → Obj.get fs "info" = None)
        ∧ Obj.get fs "openapi" = None
        ∧ Obj.get fs "paths" = None
        ∧ Obj.get fs "servers" = None.
Proof.
  eexists. split; [reflexivity|].
  rewrite !get_app, !get_entry. cbn [String.eqb Ascii.eqb Bool.eqb].
  split; [|split; [|split; [|split; [|split; [|split; [|split]]]]]]; try reflexivity.
  - now destruct (bt_name t).
  - destruct (bt_name t), (bt_display_name t); reflexivity.
  - destruct (bt_name t), (bt_display_name t), (bt_description t), (bt_permission t),
      (bt_restrictions t), (bt_tags t), (bt_binding t); reflexivity.
  - destruct (bt_name t), (bt_display_name t), (bt_description t), (bt_permission t),
      (bt_restrictions t), (bt_tags t), (bt_binding t), (bt_input_schema t); reflexivity.
  - intros ->.
    destruct (bt_name t), (bt_display_name t), (bt_description t), (bt_permission t),
      (bt_restrictions t), (bt_tags t), (bt_binding t), (bt_input_schema t),
      (bt_output_schema t); reflexivity.
Qed.

Lemma jsonOfBinding_fields b :
  ∃ fs, field (jsonOfBinding b) "openapi" = Some (Obj fs)
        ∧ Obj.get fs "http_method" = Str <$> b_http_method b
        ∧ Obj.get fs "http_path" = Str <$> b_http_path b.
Proof.
  eexists. split; [reflexivity|].
  rewrite !get_app, !get_entry. cbn [String.eqb Ascii.eqb Bool.eqb].
  split; [now destruct (b_http_method b)|].
  destruct (b_http_method b), (b_http_path b); reflexivity.
Qed.

Lemma display_name_of_named toolSpec oas name :
  tm_name toolSpec = Some name → name ≠ "" →
  ∃ d, bt_display_name (buildToolSpec toolSpec oas) = Some d ∧ d ≠ "".
Proof.
  intros Hname Hne.
  assert (Hd : ∃ d, str_or_opt (oas_info oas ≫= i_x_ibm_skill_name)
                      (str_or_opt (oas_info oas ≫= i_title) (tm_name toolSpec)) = Some d
                    ∧ d ≠ "").
  { rewrite Hname. unfold str_or_opt.
    destruct (oas_info oas ≫= i_x_ibm_skill_name) as [a|].
    - destruct (String.eqb_spec a ""); [|eauto].
      destruct (oas_info oas ≫= i_title) as [c|]; [|eauto].
      destruct (String.eqb_spec c ""); eauto.
    - destruct (oas_info oas ≫= i_title) as [c|]; [|eauto].
      destruct (String.eqb_spec c ""); eauto. }
  unfold buildToolSpec.
  destruct (oas_paths oas) as [[|[pathKey pathObj] rest]|]; try exact Hd.
  destruct (firstOperation pathObj) as [[m op]|]; exact Hd.
Qed.

(** X20.  What the validator makes of a compiled record.  A record
    compiled for a tool with a non-empty name from a document whose first
    path has a non-empty key and a supported method gets no report: it is
    recognised as a bound record and has everything the validator asks of
    one.  A record compiled from a document without an operation has no
    binding; it is judged as an OpenAPI document and reported to lack
    [openapi] and [info]. *)
Theorem compiled_record_validation :
  (∀ toolSpec oas name pathKey,
      tm_name toolSpec = Some name → name ≠ "" →
      http_path_of (buildToolSpec toolSpec oas) = Some pathKey → pathKey ≠ "" →
      validateOas (Some (jsonOfBoundTool (buildToolSpec toolSpec oas))) = [])
  ∧ (∀ toolSpec oas,
        bt_binding (buildToolSpec toolSpec oas) = None →
        validateOas (Some (jsonOfBoundTool (buildToolSpec toolSpec oas)))
        = ["Missing required field: openapi"; "Missing required field: info"]).
Proof.
  split.
  - intros toolSpec oas name pathKey Hname Hne Hpath Hpne.
    destruct (display_name_of_named toolSpec oas name Hname Hne) as (d & Hd & Hdne).
    set (spec := buildToolSpec toolSpec oas) in *.
    assert (Hspec : ∃ b sch m, bt_binding spec = Some b ∧ bt_input_schema spec = Some sch
                               ∧ b_http_method b = Some m ∧ m ≠ ""
                               ∧ b_http_path b = Some pathKey).
    { unfold spec, http_path_of, buildToolSpec in *.
      destruct (oas_paths oas) as [[|[pk pathObj] rest]|]; try discriminate.
      destruct (firstOperation pathObj) as [[m op]|] eqn:Hop; try discriminate.
      apply firstOperation_Some in Hop as [Hm _].
      cbn in Hpath. injection Hpath as ->.
      eexists; eexists; eexists. split; [reflexivity|]. split; [reflexivity|].
      split; [reflexivity|]. split; [now apply upper_method_nonempty | reflexivity]. }
    destruct Hspec as (b & sch & m & Hb & Hsch & Hm & Hmne & Hp).
    destruct (jsonOfBoundTool_fields spec)
      as (fs & -> & _ & Hdisplay & Hbinding & Hinput & _).
    destruct (jsonOfBinding_fields b) as (bfs & Hopenapi & Hmethod & Hbpath).
    rewrite Hb in Hbinding. rewrite Hsch in Hinput. rewrite Hd in Hdisplay.
    rewrite Hm in Hmethod. rewrite Hp in Hbpath.
    apply String.eqb_neq in Hmne, Hpne, Hdne.
    unfold validateOas. cbn [truthy truthy_value typeof_is_object typeof negb orb ofield field].
    cbn [String.eqb Ascii.eqb Bool.eqb]. rewrite Hbinding.
    cbn [fmap option_fmap option_map ofield]. rewrite Hopenapi.
    cbn [truthy truthy_value typeof andb String.eqb Ascii.eqb Bool.eqb].
    unfold validateBound. cbn [ofield field]. rewrite Hmethod, Hbpath, Hinput, Hdisplay.
    cbn [fmap option_fmap option_map truthy truthy_value]. rewrite Hmne, Hpne, Hdne.
    cbn [negb push_if app]. rewrite andb_false_r. reflexivity.
  - intros toolSpec oas Hb.
    set (spec := buildToolSpec toolSpec oas) in *.
    assert (Hinfo : bt_info_version spec = None).
    { unfold spec, buildToolSpec.
      destruct (oas_paths oas) as [[|[pk pathObj] rest]|]; try reflexivity.
      destruct (firstOperation pathObj) as [[m op]|]; reflexivity. }
    destruct (jsonOfBoundTool_fields spec)
      as (fs & -> & _ & _ & Hbinding & _ & Hnoinfo & Hnoopenapi & Hnopaths & Hnoservers).
    rewrite Hb in Hbinding. specialize (Hnoinfo Hinfo).
    unfold validateOas. cbn [truthy truthy_value typeof_is_object typeof negb orb ofield field].
    cbn [String.eqb Ascii.eqb Bool.eqb]. rewrite Hbinding.
    cbn [fmap option_fmap option_map ofield truthy andb].
    unfold validateOpenApi. cbn [ofield field].
    rewrite Hnoinfo, Hnoopenapi, Hnopaths, Hnoservers. reflexivity.
Qed.

Lemma compiled_record_validation_witness :
  validateOas (Some (jsonOfBoundTool (buildToolSpec Examples.weatherMeta Examples.weatherOas)))
  = []
  ∧ validateOas (Some (jsonOfBoundTool (buildToolSpec Examples.weatherMeta Samples.headFirst)))
    = ["Missing required field: openapi"; "Missing required field: info"].
Proof.
  split.
  - apply (proj1 compiled_record_validation Examples.weatherMeta Examples.weatherOas
             "get_weather" "/current.json"); try reflexivity; discriminate.
  - apply (proj2 compiled_record_validation Examples.weatherMeta Samples.headFirst).
    reflexivity.
Defined.
(* ===================================================================== *)
(** * Properties of the model and agent clients *)
(* ===================================================================== *)

Section ClientFacts.
Context {World : Type}.
Variable woFetch : Request → World → FetchResult * World.

Lemma listModels_spec w log :
  listModels World woFetch (w, log)
  = match woFetch modelsRequest w with
    | (Rejected msg, w') => (Throw msg, (w', log ++ [EvFetch modelsRequest]))
    | (Responded r, w') =>
        if negb (ok r) then
          (Throw ("Failed to list models: " +:+ string_of_Z (status r) +:+ " " +:+ text r),
           (w', log ++ [EvFetch modelsRequest]))
        else
          match fieldE (Some (default (Obj []) (json r))) "resources" with
          | Throw e => (Throw e, (w', log ++ [EvFetch modelsRequest]))
          | Ok _ => (Ok (listedModels r), (w', log ++ [EvFetch modelsRequest]))
          end
    end.
Proof.
  unfold listModels, bind, fetch, throw, lift, ret. fold modelsRequest.
  destruct (woFetch modelsRequest w) as [[msg|r] w']; [reflexivity|].
  destruct (negb (ok r)); [reflexivity|].
  unfold listedModels.
  destruct (default (Obj []) (json r)); reflexivity.
Qed.

(** Whatever the transport does, [getDefaultModelId] returns a value
    after exactly one request. *)
Lemma getDefaultModelId_spec w log :
  ∃ v w',
    getDefaultModelId World woFetch (w, log)
    = (Ok v, (w', log ++ [EvFetch modelsRequest]))
    ∧ w' = snd (woFetch modelsRequest w).
Proof.
  unfold getDefaultModelId, catch, bind at 1. rewrite listModels_spec.
  destruct (woFetch modelsRequest w) as [[msg|r] w']; cbn [snd]; [eauto|].
  destruct (negb (ok r)); [unfold ret; eauto|].
  destruct (fieldE (Some (default (Obj []) (json r))) "resources"); [|unfold ret; eauto].
  destruct (listedModels r) as [|first rest]; [unfold ret; eauto|].
  unfold bind, lift, ret.
  destruct (findE (fieldIs "id" PREFERRED_DEFAULT_MODEL_ID) (first :: rest)) as [p|e];
    [|eauto].
  destruct (truthy p); eauto.
Qed.

Lemma listAgents_spec limit offset w log :
  ∃ o w',
    listAgents World woFetch limit offset (w, log)
    = (o, (w', log ++ [EvFetch (listAgentsRequest limit offset)])).
Proof.
  unfold listAgents, bind, fetch, throw, ret. fold (listAgentsRequest limit offset).
  destruct (woFetch (listAgentsRequest limit offset) w) as [[msg|r] w']; [eauto|].
  destruct (negb (ok r)); eauto.
Qed.

Lemma updateAgent_spec agentId payload w log :
  ∃ o w',
    updateAgent World woFetch agentId payload (w, log)
    = (o, (w', log ++ [EvFetch (updateAgentRequest agentId payload)])).
Proof.
  unfold updateAgent, bind, fetch, throw, ret. fold (updateAgentRequest agentId payload).
  destruct (woFetch (updateAgentRequest agentId payload) w) as [[msg|r] w']; [eauto|].
  destruct (negb (ok r)); eauto.
Qed.

Lemma createAgent_spec modelId w log :
  ∃ o w',
    createAgent World woFetch TEST_AGENT_NAME testAgentDescription modelId
      testAgentInstructions (w, log)
    = (o, (w', log ++ [EvFetch (createTestAgentRequest modelId)])).
Proof.
  unfold createAgent, bind, fetch, throw, ret. fold (createTestAgentRequest modelId).
  destruct (woFetch (createTestAgentRequest modelId) w) as [[msg|r] w']; [eauto|].
  destruct (negb (ok r)); eauto.
Qed.
End ClientFacts.

Lemma listModels_listed {World} (woFetch : Request → World → FetchResult * World)
    w log r w' :
  woFetch modelsRequest w = (Responded r, w') →
  ok r = true →
  listedModels r ≠ [] →
  listModels World woFetch (w, log)
  = (Ok (listedModels r), (w', log ++ [EvFetch modelsRequest])).
Proof.
  intros Hf Hok Hlisted. rewrite listModels_spec, Hf, Hok. cbn [negb].
  destruct (fieldE (Some (default (Obj []) (json r))) "resources") as [x|e] eqn:Hx;
    [reflexivity|].
  exfalso. apply Hlisted. unfold listedModels.
  destruct (default (Obj []) (json r)); try discriminate Hx. reflexivity.
Qed.

Lemma findE_null_first k s before after :
  forallb (λ c, not_null c && negb (is_str (field c k) s)) before = true →
  findE (fieldIs k s) (before ++ Null :: after) = Throw "TypeError".
Proof.
  intros Hb. induction before as [|y before IH]; [reflexivity|].
  simpl in Hb. apply andb_true_iff in Hb as [Hy Hb].
  apply andb_true_iff in Hy as [Hnn Hy]. apply negb_true_iff in Hy.
  cbn [app findE]. now rewrite (fieldIs_present k s y Hnn), Hy, IH.
Qed.

(** X21.  [getDefaultModelId] never fails.  Whatever the transport does,
    it returns a value after exactly one request, the one that lists the
    models.  The models listed are those of the [resources] of the
    answer, else of its [data], else the answer itself, when that is an
    array.  The value is the preferred model, groq/openai/gpt-oss-120b,
    when the request is rejected or answered with a status outside
    200..299, when no model is listed, when the preferred model is listed
    with no [null] before it, and when a [null] is listed before any
    preferred model.  When the listed models hold neither the preferred
    one nor [null], the value is the [id] of the first of them, and the
    preferred model when that has no [id]. *)
Theorem default_model_never_fails :
  (∀ World (woFetch : Request → World → FetchResult * World) w log,
      ∃ v w',
        getDefaultModelId World woFetch (w, log)
        = (Ok v, (w', log ++ [EvFetch modelsRequest])))
  ∧ (∀ World (woFetch : Request → World → FetchResult * World) w log,
        match fst (woFetch modelsRequest w) with
        | Rejected _ => True
        | Responded r => ok r = false ∨ listedModels r = []
        end →
        fst (getDefaultModelId World woFetch (w, log)) = Ok (Str PREFERRED_DEFAULT_MODEL_ID))
  ∧ (∀ World (woFetch : Request → World → FetchResult * World) w log r w' before m after,
        woFetch modelsRequest w = (Responded r, w') →
        ok r = true →
        listedModels r = before ++ m :: after →
        without_model PREFERRED_DEFAULT_MODEL_ID before = true →
        is_str (field m "id") PREFERRED_DEFAULT_MODEL_ID = true ∨ m = Null →
        fst (getDefaultModelId World woFetch (w, log)) = Ok (Str PREFERRED_DEFAULT_MODEL_ID))
  ∧ (∀ World (woFetch : Request → World → FetchResult * World) w log r w' first rest,
        woFetch modelsRequest w = (Responded r, w') →
        ok r = true →
        listedModels r = first :: rest →
        without_model PREFERRED_DEFAULT_MODEL_ID (first :: rest) = true →
        fst (getDefaultModelId World woFetch (w, log))
        = Ok (match field first "id" with
              | None | Some Null => Str PREFERRED_DEFAULT_MODEL_ID
              | Some modelId => modelId
              end)).
Proof.
  split; [|split; [|split]].
  - intros World woFetch w log.
    destruct (getDefaultModelId_spec woFetch w log) as (v & w' & H & _). eauto.
  - intros World woFetch w log H.
    unfold getDefaultModelId, catch, bind at 1. rewrite listModels_spec.
    destruct (woFetch modelsRequest w) as [[msg|r] w']; cbn [fst] in H; [reflexivity|].
    destruct H as [Hok|Hnone].
    + rewrite Hok. reflexivity.
    + destruct (negb (ok r)); [reflexivity|].
      destruct (fieldE (Some (default (Obj []) (json r))) "resources"); [|reflexivity].
      rewrite Hnone. reflexivity.
  - intros World woFetch w log r w' before m after Hf Hok Hlisted Hbefore Hm.
    unfold getDefaultModelId, catch, bind at 1.
    rewrite (listModels_listed woFetch w log r w' Hf Hok)
      by (rewrite Hlisted; now destruct before).
    rewrite Hlisted. unfold bind, lift, ret. cbv beta iota zeta.
    destruct Hm as [Hm| ->].
    + rewrite (findE_first_of "id" PREFERRED_DEFAULT_MODEL_ID before m after Hbefore Hm).
      destruct (before ++ m :: after) as [|first rest]; [reflexivity|].
      cbn [truthy]. destruct m; try discriminate. reflexivity.
    + rewrite (findE_null_first "id" PREFERRED_DEFAULT_MODEL_ID before after Hbefore).
      now destruct (before ++ Null :: after).
  - intros World woFetch w log r w' first rest Hf Hok Hlisted Hnone.
    unfold getDefaultModelId, catch, bind at 1.
    rewrite (listModels_listed woFetch w log r w' Hf Hok) by now rewrite Hlisted.
    rewrite Hlisted. unfold bind, lift, ret. cbv beta iota zeta.
    rewrite (findE_none_of "id" PREFERRED_DEFAULT_MODEL_ID (first :: rest) Hnone).
    cbn [truthy fst]. destruct (field first "id") as [[]|]; reflexivity.
Qed.

Lemma default_model_never_fails_witness :
  fst (getDefaultModelId unit (Examples.constantService 404) (tt, []))
  = Ok (Str PREFERRED_DEFAULT_MODEL_ID)
  ∧ fst (getDefaultModelId unit
           (Samples3.acceptingService
              (Obj [("resources",
                     Arr [Obj [("id", Str "watsonx/meta-llama/llama-3-8b-instruct")];
                          Null;
                          Obj [("id", Str "watsonx/ibm/granite-13b-chat")]])]))
           (tt, []))
    = Ok (Str PREFERRED_DEFAULT_MODEL_ID)
  ∧ fst (getDefaultModelId unit
           (Samples3.acceptingService
              (Obj [("data",
                     Arr [Obj [("id", Str "watsonx/meta-llama/llama-3-8b-instruct")]])]))
           (tt, []))
    = Ok (Str "watsonx/meta-llama/llama-3-8b-instruct").
Proof.
  split; [|split].
  - apply (proj1 (proj2 default_model_never_fails) unit (Examples.constantService 404) tt []).
    left. reflexivity.
  - apply (proj1 (proj2 (proj2 default_model_never_fails)) unit
             (Samples3.acceptingService
                (Obj [("resources",
                       Arr [Obj [("id", Str "watsonx/meta-llama/llama-3-8b-instruct")];
                            Null;
                            Obj [("id", Str "watsonx/ibm/granite-13b-chat")]])]))
             tt []
             (mkHttpResponse 200 "{}"
                (Some (Obj [("resources",
                             Arr [Obj [("id", Str "watsonx/meta-llama/llama-3-8b-instruct")];
                                  Null;
                                  Obj [("id", Str "watsonx/ibm/granite-13b-chat")]])])))
             tt
             [Obj [("id", Str "watsonx/meta-llama/llama-3-8b-instruct")]]
             Null [Obj [("id", Str "watsonx/ibm/granite-13b-chat")]]);
      try reflexivity.
    now right.
  - apply (proj2 (proj2 (proj2 default_model_never_fails)) unit
             (Samples3.acceptingService
                (Obj [("data",
                       Arr [Obj [("id", Str "watsonx/meta-llama/llama-3-8b-instruct")]])]))
             tt []
             (mkHttpResponse 200 "{}"
                (Some (Obj [("data",
                             Arr [Obj [("id", Str "watsonx/meta-llama/llama-3-8b-instruct")]])])))
             tt
             (Obj [("id", Str "watsonx/meta-llama/llama-3-8b-instruct")]) []);
      reflexivity.
Defined.

(** ** The test agent *)

Lemma onlyThisTool_payload toolId (fix_llm : bool) llm :
  let payload := if fix_llm then Obj.set (onlyThisTool toolId) "llm" llm
                 else onlyThisTool toolId in
  Obj.get payload "tools" = Some (Arr [Str toolId])
  ∧ ∀ k, k ∈ Obj.keys payload → k = "tools" ∨ k = "llm".
Proof.
  destruct fix_llm; cbn; (split; [reflexivity|]); intros k Hk;
    rewrite ?elem_of_cons in Hk; destruct Hk as [->|Hk]; auto.
  - destruct Hk as [->|Hk]; [auto | inversion Hk].
  - inversion Hk.
Qed.

(** X22.  When [ensureTestAgentForTool] returns an agent, the last request
    it has made updates that agent with a payload whose [tools] is the
    list of the given tool alone, and that holds nothing else but,
    possibly, an [llm]: the test agent is left with this one tool.  The
    first request lists the agents; between the two there are at most the
    request that lists the models and the request that creates the test
    agent. *)
Theorem test_agent_is_left_with_the_tool
    World (woFetch : Request → World → FetchResult * World) toolId w log v s' :
  ensureTestAgentForTool World woFetch toolId (w, log) = (Ok v, s') →
  ∃ between payload,
    snd s' = log ++ EvFetch (listAgentsRequest 100 0) :: between
                 ++ [EvFetch (updateAgentRequest v (Obj payload))]
    ∧ Obj.get payload "tools" = Some (Arr [Str toolId])
    ∧ (∀ k, k ∈ Obj.keys payload → k = "tools" ∨ k = "llm")
    ∧ (∀ req, EvFetch req ∈ between →
         req = modelsRequest ∨ ∃ modelId, req = createTestAgentRequest modelId).
Proof.
  unfold ensureTestAgentForTool. unfold bind at 1.
  destruct (listAgents_spec woFetch 100 0 w log) as (o & w1 & ->).
  destruct o as [data|e]; [|discriminate].
  unfold bind at 1. unfold lift at 1.
  destruct (findE isTestAgent (agentsOf data)) as [[agent|]|e]; [| |discriminate].
  - (* the agent exists *)
    unfold bind at 1.
    destruct (needsLlmFix agent) eqn:Hfix.
    + unfold bind at 1.
      destruct (getDefaultModelId_spec woFetch w1 (log ++ [EvFetch (listAgentsRequest 100 0)]))
        as (llm & w2 & -> & _).
      unfold ret at 1. unfold bind at 1.
      destruct (updateAgent_spec woFetch
                  (default Null (or_else (field agent "id") (Some agent)))
                  (Obj (Obj.set (onlyThisTool toolId) "llm" llm)) w2
                  ((log ++ [EvFetch (listAgentsRequest 100 0)]) ++ [EvFetch modelsRequest]))
        as (o & w3 & ->).
      destruct o as [u|e]; [|discriminate].
      unfold ret. intros [= <- <-]. cbn [snd].
      exists [EvFetch modelsRequest], (Obj.set (onlyThisTool toolId) "llm" llm).
      split; [now rewrite <- !app_assoc|].
      destruct (onlyThisTool_payload toolId true llm) as [Ht Hk].
      split; [exact Ht|]. split; [exact Hk|].
      intros req Hreq. apply list_elem_of_singleton in Hreq. injection Hreq as ->. now left.
    + unfold ret at 1. unfold bind at 1.
      destruct (updateAgent_spec woFetch
                  (default Null (or_else (field agent "id") (Some agent)))
                  (Obj (onlyThisTool toolId)) w1
                  (log ++ [EvFetch (listAgentsRequest 100 0)]))
        as (o & w3 & ->).
      destruct o as [u|e]; [|discriminate].
      unfold ret. intros [= <- <-]. cbn [snd].
      exists [], (onlyThisTool toolId).
      split; [now rewrite <- !app_assoc|].
      destruct (onlyThisTool_payload toolId false Null) as [Ht Hk].
      split; [exact Ht|]. split; [exact Hk|].
      intros req Hreq. inversion Hreq.
  - (* the agent is created *)
    unfold bind at 1.
    destruct (getDefaultModelId_spec woFetch w1 (log ++ [EvFetch (listAgentsRequest 100 0)]))
      as (llm & w2 & -> & _).
    unfold bind at 1.
    destruct (createAgent_spec woFetch llm w2
                ((log ++ [EvFetch (listAgentsRequest 100 0)]) ++ [EvFetch modelsRequest]))
      as (o & w3 & ->).
    destruct o as [created|e]; [|discriminate].
    unfold bind at 1.
    destruct (updateAgent_spec woFetch (createdAgentId created)
                (Obj (onlyThisTool toolId)) w3
                (((log ++ [EvFetch (listAgentsRequest 100 0)]) ++ [EvFetch modelsRequest])
                 ++ [EvFetch (createTestAgentRequest llm)]))
      as (o & w4 & ->).
    destruct o as [u|e]; [|discriminate].
    unfold ret. intros [= <- <-]. cbn [snd].
    exists [EvFetch modelsRequest; EvFetch (createTestAgentRequest llm)],
      (onlyThisTool toolId).
    split; [now rewrite <- !app_assoc|].
    destruct (onlyThisTool_payload toolId false Null) as [Ht Hk].
    split; [exact Ht|]. split; [exact Hk|].
    intros req Hreq. rewrite !elem_of_cons in Hreq.
    destruct Hreq as [Hreq|[Hreq|Hreq]]; [| |inversion Hreq].
    + injection Hreq as ->. now left.
    + injection Hreq as ->. right. eauto.
Qed.

Lemma test_agent_is_left_with_the_tool_witness :
  ∃ between payload,
    snd (snd (ensureTestAgentForTool unit
                (Samples3.acceptingService
                   (Arr [Obj [("name", Str TEST_AGENT_NAME); ("id", Str "agent-1");
                              ("llm", Str "ibm/granite-13b-chat")]]))
                "tool-1" (tt, [])))
    = [] ++ EvFetch (listAgentsRequest 100 0) :: between
         ++ [EvFetch (updateAgentRequest (Str "agent-1") (Obj payload))]
    ∧ Obj.get payload "tools" = Some (Arr [Str "tool-1"])
    ∧ (∀ k, k ∈ Obj.keys payload → k = "tools" ∨ k = "llm")
    ∧ (∀ req, EvFetch req ∈ between →
         req = modelsRequest ∨ ∃ modelId, req = createTestAgentRequest modelId).
Proof.
  apply (test_agent_is_left_with_the_tool unit
           (Samples3.acceptingService
              (Arr [Obj [("name", Str TEST_AGENT_NAME); ("id", Str "agent-1");
                         ("llm", Str "ibm/granite-13b-chat")]]))
           "tool-1" tt [] (Str "agent-1")).
  vm_compute. reflexivity.
Defined.

(** * Deployment *)

Lemma uploadArtifact_spec {World}
    (woFetch : Request → World → FetchResult * World)
    (createOpenApiZip : OpenApi → World → outcome value * World)
    (multipart : string → value → value) toolId openApiSpec w log :
  ∃ w' uploads,
    uploadArtifact World woFetch createOpenApiZip multipart toolId openApiSpec (w, log)
    = (Ok tt, (w', log ++ uploads))
    ∧ (uploads = []
       ∨ ∃ zipBuffer, uploads = [EvFetch (uploadRequest multipart toolId zipBuffer)]).
Proof.
  unfold uploadArtifact, catch, bind, fetch, ret. cbn [fst snd].
  destruct (createOpenApiZip openApiSpec w) as [[z|e] w1].
  - destruct (woFetch (uploadRequest multipart toolId z) w1) as [[r|msg] w2];
      eexists _, _; (split; [reflexivity|]); right; eauto.
  - exists w1, []. rewrite app_nil_r. split; [reflexivity|now left].
Qed.

(** X23.  [deploySkill] fails with the status and the text of the answer
    when the request that creates the tool is refused, and with the text
    when the answer is not JSON, after this one request.  Once the tool is
    created (the answer is JSON and not [null]) it succeeds with the [id]
    of the answer, whatever becomes of the archive and of its upload, for
    which it makes at most one more request, to the [upload] endpoint of
    that tool. *)
Theorem deploy_outcomes World
    (woFetch : Request → World → FetchResult * World)
    (createOpenApiZip : OpenApi → World → outcome value * World)
    (multipart : string → value → value) toolSpec openApiSpec w log r w1 :
  woFetch (createToolRequest toolSpec openApiSpec) w = (Responded r, w1) →
  let deployed :=
    deploySkill World woFetch createOpenApiZip multipart toolSpec openApiSpec (w, log) in
  let created := log ++ [EvFetch (createToolRequest toolSpec openApiSpec)] in
  (ok r = false →
     deployed = (Throw ("Failed to create tool: " +:+ string_of_Z (status r)
                        +:+ " " +:+ text r), (w1, created)))
  ∧ (ok r = true → json r = None →
     deployed = (Throw ("Failed to parse tool response: " +:+ text r), (w1, created)))
  ∧ (∀ toolData, ok r = true → json r = Some toolData → not_null toolData = true →
     ∃ w' uploads,
       deployed = (Ok (Obj ([("success", Bool true)]
                            ++ entry "toolId" (field toolData "id"))),
                   (w', created ++ uploads))
       ∧ (uploads = []
          ∨ ∃ zipBuffer,
              uploads = [EvFetch (uploadRequest multipart (field toolData "id") zipBuffer)])).
Proof.
  intros Hf deployed created. subst deployed created.
  split; [|split]; [intros Hok|intros Hok Hjson|intros toolData Hok Hjson Hnn];
    unfold deploySkill; unfold bind at 1; unfold fetch at 1; rewrite Hf;
    cbn beta iota; rewrite Hok; cbn [negb]; [reflexivity|rewrite Hjson..].
  - reflexivity.
  - assert (fieldE (Some toolData) "id" = Ok (field toolData "id")) as Hid
      by (destruct toolData; try reflexivity; discriminate).
    unfold bind at 1. unfold lift at 1. rewrite Hid.
    unfold bind at 1.
    destruct (uploadArtifact_spec woFetch createOpenApiZip multipart
                (field toolData "id") openApiSpec w1
                (log ++ [EvFetch (createToolRequest toolSpec openApiSpec)]))
      as (w' & uploads & -> & Hup).
    exists w', uploads. split; [reflexivity|exact Hup].
Qed.

Lemma deploy_outcomes_witness :
  ∃ w' uploads,
    deploySkill unit
      (Samples3.acceptingService (Obj [("id", Str "tool-1")]))
      (λ _ w, (Throw "archive error", w)) (λ _ z, z)
      Examples.weatherMeta Examples.weatherOas (tt, [])
    = (Ok (Obj ([("success", Bool true)]
                ++ entry "toolId" (field (Obj [("id", Str "tool-1")]) "id"))),
       (w', ([] ++ [EvFetch (createToolRequest Examples.weatherMeta Examples.weatherOas)])
            ++ uploads))
    ∧ (uploads = []
       ∨ ∃ zipBuffer,
           uploads = [EvFetch (uploadRequest (λ _ z, z)
                                 (field (Obj [("id", Str "tool-1")]) "id") zipBuffer)]).
Proof.
  apply (proj2 (proj2 (deploy_outcomes unit
           (Samples3.acceptingService (Obj [("id", Str "tool-1")]))
           (λ _ w, (Throw "archive error", w)) (λ _ z, z)
           Examples.weatherMeta Examples.weatherOas tt []
           (mkHttpResponse 200 "{}" (Some (Obj [("id", Str "tool-1")]))) tt
           eq_refl)) (Obj [("id", Str "tool-1")])); reflexivity.
Defined.

(** * Escaping *)

Lemma replaceAll_special a rest :
  escapeHtml (String a rest) = entity a +:+ escapeHtml rest
  ∧ (replaceAll ">" "&gt;" (replaceAll "<" "&lt;" (replaceAll quoteChar "&quot;"
       (replaceAll "&" "&amp;" (String a rest))))
     = entity a +:+ replaceAll ">" "&gt;" (replaceAll "<" "&lt;"
         (replaceAll quoteChar "&quot;" (replaceAll "&" "&amp;" rest)))).
Proof.
  unfold escapeHtml, entity.
  destruct (Ascii.eqb_spec a "&") as [->|Hamp]; [split; reflexivity|].
  destruct (Ascii.eqb_spec a "<") as [->|Hlt]; [split; reflexivity|].
  destruct (Ascii.eqb_spec a ">") as [->|Hgt]; [split; reflexivity|].
  destruct (Ascii.eqb_spec a quoteChar) as [->|Hq]; [split; reflexivity|].
  apply Ascii.eqb_neq in Hamp, Hlt, Hgt, Hq.
  cbn [replaceAll]. rewrite Hamp. cbn [replaceAll]. rewrite ?Hlt, ?Hq.
  cbn [replaceAll]. rewrite ?Hlt, ?Hgt. cbn [replaceAll]. rewrite ?Hgt, ?Hq.
  split; reflexivity.
Qed.

Lemma escapeHtml_entities s : escapeHtml s = entities s.
Proof.
  induction s as [|a rest IH]; [reflexivity|].
  rewrite (proj1 (replaceAll_special a rest)), IH. reflexivity.
Qed.

Lemma escapeAttr_entities s : escapeAttr (Some (Str s)) = entities s.
Proof.
  unfold escapeAttr. cbn [toString].
  induction s as [|a rest IH]; [reflexivity|].
  rewrite (proj2 (replaceAll_special a rest)), IH. reflexivity.
Qed.

Lemma forallb_string_app p s t :
  Strs.forallb p (s +:+ t) = Strs.forallb p s && Strs.forallb p t.
Proof.
  induction s as [|a s IH]; [reflexivity|].
  simpl. rewrite IH. now rewrite andb_assoc.
Qed.

Lemma entity_no_markup a : Strs.forallb (λ c, negb (markup c)) (entity a) = true.
Proof.
  unfold entity.
  destruct (Ascii.eqb_spec a "&"); [reflexivity|].
  destruct (Ascii.eqb a "<") eqn:Hlt; [reflexivity|].
  destruct (Ascii.eqb a ">") eqn:Hgt; [reflexivity|].
  destruct (Ascii.eqb a quoteChar) eqn:Hq; [reflexivity|].
  cbn. unfold markup. now rewrite Hlt, Hgt, Hq.
Qed.

Lemma entities_injective s : ∀ t, entities s = entities t → s = t.
Proof.
  assert (Hcons : ∀ a b x y, entity a +:+ x = entity b +:+ y → a = b ∧ x = y).
  { intros a b x y. unfold entity.
    destruct (Ascii.eqb_spec a "&") as [->|Ha1];
    [|destruct (Ascii.eqb_spec a "<") as [->|Ha2];
      [|destruct (Ascii.eqb_spec a ">") as [->|Ha3];
        [|destruct (Ascii.eqb_spec a quoteChar) as [->|Ha4]]]];
    (destruct (Ascii.eqb_spec b "&") as [->|Hb1];
     [|destruct (Ascii.eqb_spec b "<") as [->|Hb2];
       [|destruct (Ascii.eqb_spec b ">") as [->|Hb3];
         [|destruct (Ascii.eqb_spec b quoteChar) as [->|Hb4]]]]);
    intros H; cbv beta iota zeta delta [String.append] in H;
    fold String.append in H; try discriminate H;
    try (injection H as H1 H2; first [congruence | split; congruence]);
    try (injection H as H1; split; congruence). }
  induction s as [|a s IH]; intros [|b t]; cbn [entities].
  - reflexivity.
  - intros H. exfalso. unfold entity in H.
    repeat (destruct (Ascii.eqb _ _) in H; [discriminate H|]). discriminate H.
  - intros H. exfalso. unfold entity in H.
    repeat (destruct (Ascii.eqb _ _) in H; [discriminate H|]). discriminate H.
  - intros H. apply Hcons in H as [-> H]. f_equal. now apply IH.
Qed.

(** X24.  [escapeHtml] and [escapeAttr] replace each of [&], [<], [>] and
    the double quote by its entity and nothing else: an [&] that an entity
    brings in is not escaped again, and the two functions, which replace in
    different orders, agree on every string.  The escaped text has no [<],
    [>] or double quote, and two strings that differ are escaped to texts
    that differ. *)
Theorem escaping_text s :
  escapeHtml s = entities s
  ∧ escapeAttr (Some (Str s)) = escapeHtml s
  ∧ Strs.forallb (λ c, negb (markup c)) (escapeHtml s) = true
  ∧ ∀ t, escapeHtml t = escapeHtml s → t = s.
Proof.
  split; [apply escapeHtml_entities|].
  split; [now rewrite escapeAttr_entities, escapeHtml_entities|].
  split.
  - rewrite escapeHtml_entities.
    induction s as [|a s IH]; [reflexivity|].
    cbn [entities]. now rewrite forallb_string_app, entity_no_markup, IH.
  - intros t. rewrite !escapeHtml_entities. apply entities_injective.
Qed.

(** * The URL of a request *)

Lemma endsWith_app_char b c : endsWith (b +:+ String c EmptyString) c = true.
Proof.
  induction b as [|a b IH]; [apply Ascii.eqb_refl|].
  change (String a b +:+ String c EmptyString)
    with (String a (b +:+ String c EmptyString)).
  cbn [endsWith].
  destruct (b +:+ String c EmptyString) eqn:Hb; [|exact IH].
  destruct b; discriminate Hb.
Qed.

Lemma dropLast_app_char b c : dropLast (b +:+ String c EmptyString) = b.
Proof.
  induction b as [|a b IH]; [reflexivity|].
  change (String a b +:+ String c EmptyString)
    with (String a (b +:+ String c EmptyString)).
  cbn [dropLast].
  destruct (b +:+ String c EmptyString) eqn:Hb; [destruct b; discriminate Hb|].
  now rewrite IH.
Qed.

(** X25.  For an endpoint that is a path, [woFetch] requests the instance
    URL, a slash and the path, whether or not the instance URL is written
    with a slash at its end and whether or not the path is written with a
    slash at its start; only one slash at the end of the instance URL is
    dropped.  An endpoint that starts with [http] is requested as it
    is. *)
Theorem request_url_slashes base :
  (∀ path,
     String.prefix "http" path = false →
     String.prefix "/" path = false →
     (endsWith base "/" = false →
        requestUrl base path = base +:+ "/" +:+ path
        ∧ requestUrl base ("/" +:+ path) = base +:+ "/" +:+ path)
     ∧ requestUrl (base +:+ "/") path = base +:+ "/" +:+ path
     ∧ requestUrl (base +:+ "/") ("/" +:+ path) = base +:+ "/" +:+ path)
  ∧ (∀ endpoint,
       String.prefix "http" endpoint = true → requestUrl base endpoint = endpoint).
Proof.
  split.
  - intros path Hhttp Hslash.
    assert (Hrel : String.prefix "http" ("/" +:+ path) = false) by reflexivity.
    assert (Habs : String.prefix "/" ("/" +:+ path) = true).
    { change ("/" +:+ path) with (String "/" path). cbn. now destruct path. }
    unfold requestUrl.
    rewrite Hhttp, Hslash, Hrel, Habs, endsWith_app_char, dropLast_app_char.
    split; [intros ->; split; reflexivity|].
    split; reflexivity.
  - intros endpoint Hhttp. unfold requestUrl. now rewrite Hhttp.
Qed.

Lemma request_url_slashes_witness :
  requestUrl ("https://api.example.com/instances/42" +:+ "/") "v1/orchestrate/tools"
  = "https://api.example.com/instances/42" +:+ "/" +:+ "v1/orchestrate/tools"
  ∧ requestUrl "https://api.example.com/instances/42" "https://iam.example.com/token"
    = "https://iam.example.com/token".
Proof.
  split.
  - apply (proj1 (request_url_slashes "https://api.example.com/instances/42")
             "v1/orchestrate/tools"); reflexivity.
  - apply (proj2 (request_url_slashes "https://api.example.com/instances/42")
             "https://iam.example.com/token"). reflexivity.
Defined.

(** * The connections offered for a new tool *)

Lemma connectionToSecurity_nonempty app security :
  connectionToSecurity app = Ok security → ∃ first rest, security = first :: rest.
Proof.
  unfold connectionToSecurity.
  set (fallback :=
         match or_else (ofield app "auth_type") (Some (Str "")) with
         | Some (Str a) => _
         | _ => _
         end).
  assert (Hfb : fallback = Ok security → ∃ first rest, security = first :: rest).
  { subst fallback.
    destruct (or_else (ofield app "auth_type") (Some (Str ""))) as [[| | |a| |]|];
      try discriminate.
    repeat (destruct (_ || _)); intros [= <-]; eauto. }
  assert (Hobj : (if truthy (ofield app "security_scheme")
                     && typeof_is_object (ofield app "security_scheme")
                     && truthy (ofield (ofield app "security_scheme") "type")
                  then Ok [default Null (ofield app "security_scheme")]
                  else fallback) = Ok security →
                 ∃ first rest, security = first :: rest).
  { destruct (_ && _); [intros [= <-]; eauto|exact Hfb]. }
  destruct (ofield app "security_scheme") as [[| | | |[|x xs]|]|]; try exact Hobj.
  intros [= <-]. eauto.
Qed.

Lemma filterE_kept pred items kept a :
  filterE pred items = Ok kept → a ∈ kept → pred a = Ok true.
Proof.
  revert kept. induction items as [|x items IH]; intros kept; cbn [filterE].
  - intros [= <-] Ha. inversion Ha.
  - destruct (pred x) as [b|] eqn:Hx; [|discriminate].
    destruct (filterE pred items) as [ys|]; [|discriminate].
    intros [= <-]. destruct b.
    + rewrite elem_of_cons. intros [->|Ha]; [exact Hx|]. now apply (IH ys).
    + now apply (IH ys).
Qed.

Lemma mapE_image {B} (f : value → outcome B) items ys y :
  mapE f items = Ok ys → y ∈ ys → ∃ x, x ∈ items ∧ f x = Ok y.
Proof.
  revert ys. induction items as [|x items IH]; intros ys; cbn [mapE].
  - intros [= <-] Hy. inversion Hy.
  - destruct (f x) as [z|] eqn:Hx; [|discriminate].
    destruct (mapE f items) as [zs|]; [|discriminate].
    intros [= <-]. rewrite elem_of_cons. intros [->|Hy].
    + exists x. split; [left|exact Hx].
    + destruct (IH zs eq_refl Hy) as (x' & Hin & Hfx). exists x'. split; [now right|exact Hfx].
Qed.

Lemma truthy_or_else a b : truthy (or_else a b) = truthy a || truthy b.
Proof. unfold or_else. destruct (truthy a) eqn:Ha; [now rewrite Ha|reflexivity]. Qed.

Lemma truthy_default o : truthy (Some (default Null o)) = truthy o.
Proof. now destruct o. Qed.

(** X26.  Every connection that [_loadData] offers for a new tool has a
    [connection_id] and an [app_id] that are truthy and a [security] array
    that is not empty: an application with neither identifier is left out,
    and [connectionToSecurity] never returns an empty array. *)
Theorem offered_connections_are_usable connData c :
  c ∈ offeredConnections connData →
  ∃ connection_id app_id first rest,
    c = Obj [("connection_id", connection_id); ("app_id", app_id);
             ("security", Arr (first :: rest))]
    ∧ truthy (Some connection_id) = true
    ∧ truthy (Some app_id) = true.
Proof.
  unfold offeredConnections.
  destruct (nullish _ _) as [[| | | |items|]|]; try (intros H; now inversion H).
  destruct (filterE hasIdentifier items) as [kept|] eqn:Hkept;
    [|intros H; now inversion H].
  cbn [obind].
  destruct (mapE offeredConnection kept) as [cs|] eqn:Hcs;
    [|intros H; now inversion H].
  intros Hc.
  destruct (mapE_image _ _ _ _ Hcs Hc) as (a & Ha & Hoff).
  pose proof (filterE_kept _ _ _ _ Hkept Ha) as Hid.
  unfold offeredConnection in Hoff.
  destruct (connectionToSecurity (Some a)) as [security|] eqn:Hsec; [|discriminate].
  destruct (connectionToSecurity_nonempty _ _ Hsec) as (first & rest & ->).
  cbn [obind] in Hoff. injection Hoff as <-.
  assert (Htruthy : truthy (or_else (field a "connection_id") (field a "app_id")) = true).
  { unfold hasIdentifier in Hid.
    destruct a; try discriminate Hid; cbn [fieldE obind] in Hid; now injection Hid. }
  eexists _, _, first, rest. split; [reflexivity|].
  rewrite !truthy_default, !truthy_or_else. rewrite truthy_or_else in Htruthy.
  split; [exact Htruthy|]. cbn [truthy truthy_value String.eqb negb]. now rewrite !orb_true_r.
Qed.

Lemma offered_connections_are_usable_witness :
  ∃ connection_id app_id first rest,
    Obj [("connection_id", Str "weather"); ("app_id", Str "weather");
         ("security", Arr [bearerAuthorization])]
    = Obj [("connection_id", connection_id); ("app_id", app_id);
           ("security", Arr (first :: rest))]
    ∧ truthy (Some connection_id) = true
    ∧ truthy (Some app_id) = true.
Proof.
  apply (offered_connections_are_usable
           (Some (Obj [("applications",
                        Arr [Obj [("environment", Str "draft")];
                             Obj [("app_id", Str "weather");
                                  ("auth_type", Str "Bearer")]])]))).
  vm_compute. left.
Defined.
